(** * Simple_DropBox: the file-sync server routes, the sync client and the
      hash tree, embedded in Rocq.

    The development follows the layout of the repository:

    - [HashTree]  the hash tree of the design document
                  ([Client/lib/merkle-tree.js] of the README);
    - [Server]    [Server/routes/files.js]: upload, download, listing and
                  delete of files, over the [files] table and the MinIO
                  bucket;
    - [Client]    [Client/lib/sync.js], [Client/lib/file-watcher.js] and the
                  calls of [Client/lib/api.js] they make.

    JavaScript values are modelled as the code uses them: strings as
    [string], byte counts and the timestamps of the database as [N], a
    [Buffer] by its length and an index function, objects used as records as
    [Record]s, the rows of a table as a list in the order of insertion, the
    bucket and the local disk as [gmap]s from keys to contents.  An [async]
    function whose promise may reject returns a [Settled] value; [console]
    output is a list of lines.  Calls to the database and to MinIO may fail
    at any point, and settle; so do the calls the client makes through its
    [axios] instance, which has a timeout.  The transfer of a download may
    never settle. *)

From Stdlib Require Import String Ascii NArith List Bool Lia.
From Stdlib Require Import OrderedTypeEx.
From stdpp Require Import base option list sorting gmap strings pretty.

Local Open Scope string_scope.
Local Open Scope N_scope.

(** ** Strings ordered as JavaScript's default sort orders them *)

Module StrOrd.

Definition le (a b : string) : Prop := String.leb a b = true.

End StrOrd.

(** ** The hash tree *)

Module HashTree.

(** Modelled from the spec: the repository's [Client/lib/merkle-tree.js]
    (the README's "Core Merkle Tree implementation": [addOrUpdateFile],
    [removeFile], [updateS3Url], [getRootHash]) is not among the sources.
    The definitions of this module follow sections 3 and 4.1 of the design
    document word by word: a tree holds a map from path to entry, kept here in
    the order of insertion as a JavaScript [Map] keeps it; a leaf combines an
    entry's path with its content hash; the root hash is recombined from the
    leaves sorted by path. *)

Record FileEntry := mkEntry {
  path : string;
  contentHash : string;
  size : N;
  mimeType : string;
  modifiedAt : N;
  localRef : option string;
  remoteKey : option string
}.

Record Metadata := mkMeta {
  md_size : N;
  md_mimeType : string;
  md_modifiedAt : N;
  md_localRef : option string
}.

(** Modelled from the spec: the [Tree] of section 3, "{ deviceId, entries:
    map(path -> FileEntry), rootHash, version }" of the missing
    [merkle-tree.js]; [rootHash] is the function below, not a field. *)
Record Tree := mkTree {
  deviceId : string;
  entries : list FileEntry;
  version : N
}.

Definition empty (dev : string) : Tree :=
  {| deviceId := dev; entries := []; version := 0 |}.

Definition lookup (p : string) (t : Tree) : option FileEntry :=
  List.find (fun e => String.eqb (path e) p) (entries t).

(** [Map.set]: a known key keeps its place, a new key goes last. *)
Fixpoint put (e : FileEntry) (es : list FileEntry) : list FileEntry :=
  match es with
  | [] => [e]
  | x :: rest =>
      if String.eqb (path x) (path e) then e :: rest else x :: put e rest
  end.

(** Modelled from the spec: [upsert(path, contentHash, metadata)] of the
    missing [merkle-tree.js] "inserts or replaces the entry at path; clears
    any existing remoteKey; increments version". *)
Definition upsert (p h : string) (md : Metadata) (t : Tree) : Tree :=
  {| deviceId := deviceId t;
     entries := put (mkEntry p h (md_size md) (md_mimeType md)
                       (md_modifiedAt md) (md_localRef md) None) (entries t);
     version := version t + 1 |}.

(** Modelled from the spec: [remove(path)] of the missing [merkle-tree.js]
    "deletes entry; fails silently (no-op) if path absent". *)
Definition remove (p : string) (t : Tree) : Tree :=
  match lookup p t with
  | None => t
  | Some _ =>
      {| deviceId := deviceId t;
         entries := List.filter (fun e => negb (String.eqb (path e) p)) (entries t);
         version := version t + 1 |}
  end.

(** Modelled from the spec: [setRemoteKey(path, key)] of the missing
    [merkle-tree.js] "records successful upload; fails with NotFound if path
    absent". *)
Definition setRemoteKey (p key : string) (t : Tree) : option Tree :=
  match lookup p t with
  | None => None
  | Some e =>
      Some {| deviceId := deviceId t;
              entries := put (mkEntry p (contentHash e) (size e) (mimeType e)
                                (modifiedAt e) (localRef e) (Some key)) (entries t);
              version := version t + 1 |}
  end.

(** What a leaf is made of: the path and the content hash, nothing else. *)
Definition key (e : FileEntry) : string * string := (path e, contentHash e).

Definition key_le (a b : string * string) : Prop := StrOrd.le a.1 b.1.

#[local] Instance key_le_dec : RelDecision key_le.
Proof. intros a b. unfold key_le, StrOrd.le. apply _. Defined.

(** Modelled from the spec: the "path-keyed sorted join" of the leaves of
    the missing [merkle-tree.js]. *)
Definition sorted_keys (t : Tree) : list (string * string) :=
  merge_sort key_le (key <$> entries t).

Section Hashing.

(** The digest of the platform ([crypto.createHash('sha256')], in hex). *)
Variable digest : string -> string.

(** Modelled from the spec: the leaf of the missing [merkle-tree.js]; "each
    node's hash input must unambiguously encode child count/order (e.g.,
    length-prefixed or path-keyed sorted join)". *)
Definition leafHash (k : string * string) : string :=
  digest ("leaf:" ++ pretty (String.length k.1) ++ ":" ++ k.1 ++ ":" ++ k.2).

Definition nodeHash (l r : string) : string :=
  digest ("node:" ++ pretty (String.length l) ++ ":" ++ l ++ r).

(** One level up: neighbours are combined pairwise, an odd last node is
    carried over. *)
Fixpoint level (hs : list string) : list string :=
  match hs with
  | a :: b :: rest => nodeHash a b :: level rest
  | _ => hs
  end.

Fixpoint climb (rounds : nat) (hs : list string) : list string :=
  match rounds with
  | O => hs
  | S r => climb r (level hs)
  end.

(** Modelled from the spec: the recombination of the missing
    [merkle-tree.js], "an internal node's hash is a deterministic combining
    function of its children's hashes", level by level up to the root. *)
Definition merkleRoot (leaves : list string) : string :=
  match climb (length leaves) leaves with
  | [] => digest ""
  | h :: _ => h
  end.

(** Modelled from the spec: [rootHash()] of the missing [merkle-tree.js] is
    "a pure function of entries", recombined from the leaves in path order. *)
Definition rootHash (t : Tree) : string :=
  merkleRoot (leafHash <$> sorted_keys t).

End Hashing.

(** A tree built by a sequence of insertions, as a device builds its own. *)
Definition build (dev : string) (ops : list (string * string * Metadata)) : Tree :=
  fold_left (fun t op => upsert op.1.1 op.1.2 op.2 t) ops (empty dev).

(** Two trees hold the same entry set by (path, contentHash). *)
Definition same_entry_set (t1 t2 : Tree) : Prop :=
  forall p : string, contentHash <$> lookup p t1 = contentHash <$> lookup p t2.

Definition unique_paths (t : Tree) : Prop := NoDup (path <$> entries t).

(** Two devices insert the same two files in different orders, with
    different metadata; the second first inserts an older [a.txt]. *)
Definition ops_X : list (string * string * Metadata) :=
  [ ("a.txt", "h1", mkMeta 10 "text/plain" 100 (Some "/x/a.txt"));
    ("b.txt", "h3", mkMeta 20 "text/plain" 101 (Some "/x/b.txt")) ].

Definition ops_Y : list (string * string * Metadata) :=
  [ ("b.txt", "h3", mkMeta 20 "text/x-b" 205 None);
    ("a.txt", "h0", mkMeta 9 "text/plain" 206 None);
    ("a.txt", "h1", mkMeta 10 "text/plain" 207 None) ].

End HashTree.

(** ** Promises: an [async] function either resolves or rejects *)

Module Js.

Inductive Settled (E A : Type) : Type :=
| Resolved (a : A)
| Rejected (e : E).
Arguments Resolved {E A} a.
Arguments Rejected {E A} e.

(** An [async] function over a mutable world [S]. *)
Definition Async (S E A : Type) : Type := S -> Settled E A * S.

Definition ret {S E A} (a : A) : Async S E A := fun s => (Resolved a, s).

Definition throw {S E A} (e : E) : Async S E A := fun s => (Rejected e, s).

(** [await m; k]: a rejection of [m] skips [k]. *)
Definition bind {S E A B} (m : Async S E A) (k : A -> Async S E B) : Async S E B :=
  fun s =>
    match m s with
    | (Resolved a, s') => k a s'
    | (Rejected e, s') => (Rejected e, s')
    end.

(** [try { m } catch (e) { h e }]. *)
Definition try_catch {S E A} (m : Async S E A) (h : E -> Async S E A) : Async S E A :=
  fun s =>
    match m s with
    | (Resolved a, s') => (Resolved a, s')
    | (Rejected e, s') => h e s'
    end.

(** [for (const x of xs) { await f x }]. *)
Fixpoint for_of {S E A} (xs : list A) (f : A -> Async S E unit) : Async S E unit :=
  match xs with
  | [] => ret tt
  | x :: rest => bind (f x) (fun _ => for_of rest f)
  end.

Definition modify {S E} (f : S -> S) : Async S E unit := fun s => (Resolved tt, f s).

Definition get {S E A} (f : S -> A) : Async S E A := fun s => (Resolved (f s), s).

Declare Scope async_scope.
Delimit Scope async_scope with async.
Notation "'let*' x ':=' m 'in' k" := (bind m (fun x => k))
  (at level 10, x name, m at level 100, k at level 200) : async_scope.
Notation "m ';;' k" := (bind m (fun _ => k))
  (at level 100, k at level 200, right associativity) : async_scope.

(** A [Buffer]: its length and its bytes by index. *)
Record Buffer := mkBuffer {
  byteLength : N;
  byteAt : N -> ascii
}.

(** [Buffer.alloc(n)]: [n] zero bytes. *)
Definition Buffer_alloc (n : N) : Buffer :=
  {| byteLength := n; byteAt := fun _ => Ascii.zero |}.

(** [Buffer.from(s)] for a string of one-byte characters. *)
Definition Buffer_from (s : string) : Buffer :=
  {| byteLength := N.of_nat (String.length s);
     byteAt := fun i => match String.get (N.to_nat i) s with
                        | Some c => c
                        | None => Ascii.zero
                        end |}.

(** What the code takes from Node's standard modules: [crypto]'s SHA-256 in
    hex and the functions of [path]. *)
Record NodeLib := mkNodeLib {
  sha256_hex : Buffer -> string;
  path_join : string -> string -> string;
  path_relative : string -> string -> string;
  path_basename : string -> string;
  path_dirname : string -> string
}.

(** [a || b] on strings that may be undefined: the empty string is falsy. *)
Definition or_default (a : option string) (b : string) : string :=
  match a with
  | Some "" => b
  | Some x => x
  | None => b
  end.

(** [s.replace(/\\/g, '/')]. *)
Fixpoint backslashes_to_slashes (s : string) : string :=
  match s with
  | EmptyString => EmptyString
  | String c rest =>
      String (if Ascii.eqb c "\"%char then "/"%char else c) (backslashes_to_slashes rest)
  end.

(** Tests on strings for the regular expressions of the code: [/x/],
    [/x$/]. *)
Fixpoint contains (needle hay : string) : bool :=
  String.prefix needle hay
  || match hay with
     | EmptyString => false
     | String _ rest => contains needle rest
     end.

Definition ends_with (suffix s : string) : bool :=
  String.eqb suffix
    (substring (String.length s - String.length suffix) (String.length suffix) s)
  && (String.length suffix <=? String.length s)%nat.

(** Node's [path] on POSIX paths that are already normalised (no [.] or [..]
    segment, no doubled slash), for the examples. *)
Fixpoint split_slash (s : string) : list string :=
  match s with
  | EmptyString => [EmptyString]
  | String c rest =>
      match split_slash rest with
      | [] => [String c EmptyString]
      | h :: t =>
          if Ascii.eqb c "/"%char then EmptyString :: h :: t else String c h :: t
      end
  end.

Definition posix_basename (p : string) : string := List.last (split_slash p) "".

Definition posix_dirname (p : string) : string :=
  match List.removelast (split_slash p) with
  | [] => "."
  | [""] => "/"
  | segments => String.concat "/" segments
  end.

Definition posix_join (a b : string) : string :=
  if ends_with "/" a then a ++ b else a ++ "/" ++ b.

Definition posix_relative (from to : string) : string :=
  if String.prefix (from ++ "/") to
  then substring (String.length from + 1) (String.length to) to
  else to.

(** The bytes of a buffer as text. *)
Definition buffer_text (b : Buffer) : string :=
  string_of_list_ascii
    (List.map (fun i => byteAt b (N.of_nat i)) (seq 0 (N.to_nat (byteLength b)))).

(** A stand-in for Node's modules in the examples below: the digest of a
    buffer is its text, paths are POSIX paths. *)
Definition example_lib : NodeLib :=
  {| sha256_hex := fun b => "sha256:" ++ buffer_text b;
     path_join := posix_join;
     path_relative := posix_relative;
     path_basename := posix_basename;
     path_dirname := posix_dirname |}.

End Js.

(** ** [Server/routes/files.js] *)

Module Server.
Import Js.
Local Open Scope async_scope.

(** A URL of an object: presigned by MinIO for a number of seconds from the
    time of signing, or the plain address of the fallback. *)
Inductive Url : Type :=
| PresignedUrl (bucketName key : string) (expiry signedAt : N)
| BasicUrl (protocol endpoint port bucketName key : string).

Definition url_key (u : Url) : string :=
  match u with
  | PresignedUrl _ k _ _ => k
  | BasicUrl _ _ _ _ k => k
  end.

(** The time after which a URL no longer gives access, if there is one. *)
Definition url_expires_at (u : Url) : option N :=
  match u with
  | PresignedUrl _ _ expiry signedAt => Some (signedAt + expiry)
  | BasicUrl _ _ _ _ _ => None
  end.

(** A row of the table [files], with the columns the routes read and write.
    [local_url], [s3_url] and [upload_status] are columns of the table the
    README describes ("Added s3_url"); the table [scripts/migrate.js] creates
    has none of the three. *)
Record FileRow := mkRow {
  id : string;
  user_id : string;
  filename : string;
  file_path : string;
  file_size : N;
  file_hash : string;
  mime_type : string;
  minio_key : string;
  local_url : option string;
  s3_url : option Url;
  upload_status : string;
  status : string;
  created_at : N;
  updated_at : N
}.

(** An object of the bucket, with the metadata [putObject] is given. *)
Record StoredObject := mkObject {
  body : Buffer;
  content_type : string;
  x_file_hash : string
}.

(** The calls a handler makes to the database and to MinIO. *)
Inductive Call : Type :=
| DbSelect
| DbInsert
| DbUpdate
| PutObject (key : string)
| RemoveObject (key : string)
| PresignedGetObject (key : string) (expiry : N).

Inductive Error : Type :=
| DbError (message : string)
| MinioError (message : string)
| MulterError (code : string).

(** The database, the bucket, the clock, the source of random identifiers
    ([uuidv4()] and [gen_random_uuid()]) and, for every call made so far and
    to come, whether the collaborator fails on it. *)
Record World := mkWorld {
  files : list FileRow;
  bucket : gmap string StoredObject;
  now : N;
  entropy : nat -> string;
  drawn : nat;
  outage : nat -> bool;
  calls : list Call
}.

Definition with_files (fs : list FileRow) (w : World) : World :=
  mkWorld fs (bucket w) (now w) (entropy w) (drawn w) (outage w) (calls w).

Definition with_bucket (b : gmap string StoredObject) (w : World) : World :=
  mkWorld (files w) b (now w) (entropy w) (drawn w) (outage w) (calls w).

Definition with_drawn (n : nat) (w : World) : World :=
  mkWorld (files w) (bucket w) (now w) (entropy w) n (outage w) (calls w).

Definition with_calls (cs : list Call) (w : World) : World :=
  mkWorld (files w) (bucket w) (now w) (entropy w) (drawn w) (outage w) cs.

Definition Handler (A : Type) : Type := Async World Error A.

(** One call to a collaborator: it is recorded, and it rejects when the
    collaborator is out at this point. *)
Definition external {A} (c : Call) (err : Error) (run : Handler A) : Handler A :=
  fun w =>
    let w1 := with_calls (calls w ++ [c])%list w in
    if outage w (length (calls w)) then (Rejected err, w1) else run w1.

(** A fresh random identifier. *)
Definition draw : Handler string :=
  fun w => (Resolved (entropy w (drawn w)), with_drawn (S (drawn w)) w).

(** [process.env], as far as the routes read it. *)
Record ProcessEnv := mkEnv {
  MINIO_ENDPOINT : option string;
  MINIO_PORT : option string;
  MINIO_BUCKET : option string;
  MINIO_USE_SSL : option string
}.

(** The body of a JSON response. *)
Record FileJson := mkFileJson {
  j_id : string;
  j_filename : string;
  j_filePath : string;
  j_fileSize : N;
  j_fileHash : string;
  j_mimeType : string;
  j_localUrl : option string;
  j_s3Url : option Url;
  j_createdAt : N
}.

Record DownloadJson := mkDownloadJson {
  d_id : string;
  d_filename : string;
  d_filePath : string;
  d_fileSize : N;
  d_mimeType : string
}.

Inductive Body : Type :=
| ErrorBody (error : string)
| MessageBody (message : string)
| UploadBody (message : string) (file : FileJson)
| DownloadBody (file : DownloadJson) (downloadUrl : Url).

(** What a route does with a request: it answers with a status and a JSON
    body, or hands an error to [next]. *)
Inductive Response : Type :=
| Json (code : N) (body : Body)
| Next (e : Error).

(** The part of a multipart form in the field [file]. *)
Record FilePart := mkPart {
  part_filename : string;
  part_mimetype : string;
  part_content : Buffer
}.

(** [req.file] as multer's memory storage leaves it. *)
Record MulterFile := mkFile {
  originalname : string;
  buffer : Buffer;
  mimetype : string;
  size : N
}.

(** An upload request after [authMiddleware] has set [req.user]. *)
Record UploadRequest := mkUpload {
  req_user_id : string;
  req_part : option FilePart;
  body_filePath : option string;
  body_localUrl : option string
}.

Section Routes.

Variable lib : NodeLib.
(** [BUCKET_NAME] of [config/minio]. *)
Variable BUCKET_NAME : string.
Variable env : ProcessEnv.

(** [limits.fileSize] of the multer instance. *)
Definition fileSize_limit : N := 100 * 1024 * 1024.

(** [upload.single('file')]: multer reads the part into memory and hands
    [LIMIT_FILE_SIZE] to [next] when the part has more bytes than the limit;
    the route's handler does not run then. *)
Definition upload_single (part : option FilePart) : Settled Error (option MulterFile) :=
  match part with
  | None => Resolved None
  | Some p =>
      if fileSize_limit <? byteLength (part_content p)
      then Rejected (MulterError "LIMIT_FILE_SIZE")
      else Resolved (Some {| originalname := part_filename p;
                             buffer := part_content p;
                             mimetype := part_mimetype p;
                             size := byteLength (part_content p) |})
  end.

Definition calculateFileHash (b : Buffer) : string := sha256_hex lib b.

Definition generateMinioKey (userId fname : string) : Handler string :=
  let* fileId := draw in
  ret ("users/" ++ userId ++ "/files/" ++ fileId ++ "/" ++ fname).

Definition presignedGetObject (key : string) (expiry : N) : Handler Url :=
  external (PresignedGetObject key expiry) (MinioError "presignedGetObject")
    (fun w => (Resolved (PresignedUrl BUCKET_NAME key expiry (now w)), w)).

Definition putObject (key : string) (o : StoredObject) : Handler unit :=
  external (PutObject key) (MinioError "putObject")
    (modify (fun w => with_bucket (<[key := o]> (bucket w)) w)).

Definition removeObject (key : string) : Handler unit :=
  external (RemoveObject key) (MinioError "removeObject")
    (modify (fun w => with_bucket (delete key (bucket w)) w)).

Definition generateS3Url (minioKey : string) : Handler Url :=
  try_catch (presignedGetObject minioKey (60 * 60))
    (fun _ =>
       let endpoint := or_default (MINIO_ENDPOINT env) "localhost" in
       let port := or_default (MINIO_PORT env) "9000" in
       let bucketName := or_default (MINIO_BUCKET env) "filesync-bucket" in
       let useSSL := match MINIO_USE_SSL env with
                     | Some v => String.eqb v "true"
                     | None => false
                     end in
       let protocol := if useSSL then "https" else "http" in
       ret (BasicUrl protocol endpoint port bucketName minioKey)).

(** [SELECT * FROM files WHERE user_id = $1 AND file_hash = $2 AND status = $3];
    the rows come in the order of the table. *)
Definition select_by_hash (uid hash st : string) : Handler (list FileRow) :=
  external DbSelect (DbError "select")
    (get (fun w => List.filter (fun r => String.eqb (user_id r) uid
                                  && String.eqb (file_hash r) hash
                                  && String.eqb (status r) st) (files w))).

(** [SELECT * FROM files WHERE id = $1 AND user_id = $2 AND status = $3].
    The columns [id] and [user_id] are of type UUID: for a parameter that is
    no UUID the database refuses the statement, and the call is out. *)
Definition select_by_id (fileId uid st : string) : Handler (list FileRow) :=
  external DbSelect (DbError "select")
    (get (fun w => List.filter (fun r => String.eqb (id r) fileId
                                  && String.eqb (user_id r) uid
                                  && String.eqb (status r) st) (files w))).

Definition set_local_url (url : string) (t : N) (r : FileRow) : FileRow :=
  mkRow (id r) (user_id r) (filename r) (file_path r) (file_size r) (file_hash r)
    (mime_type r) (minio_key r) (Some url) (s3_url r) (upload_status r) (status r)
    (created_at r) t.

Definition set_status (st : string) (t : N) (r : FileRow) : FileRow :=
  mkRow (id r) (user_id r) (filename r) (file_path r) (file_size r) (file_hash r)
    (mime_type r) (minio_key r) (local_url r) (s3_url r) (upload_status r) st
    (created_at r) t.

Definition update_where_id (fileId : string) (f : N -> FileRow -> FileRow) : Handler unit :=
  external DbUpdate (DbError "update")
    (modify (fun w =>
       with_files (List.map (fun r => if String.eqb (id r) fileId then f (now w) r else r)
                     (files w)) w)).

(** [UPDATE files SET local_url = $1, updated_at = CURRENT_TIMESTAMP WHERE id = $2]. *)
Definition update_local_url (url fileId : string) : Handler unit :=
  update_where_id fileId (set_local_url url).

(** [UPDATE files SET status = $1, updated_at = CURRENT_TIMESTAMP WHERE id = $2]. *)
Definition update_status (st fileId : string) : Handler unit :=
  update_where_id fileId (set_status st).

(** [INSERT INTO files (...) VALUES (...) RETURNING *]: [id], [status] and the
    two timestamps take their defaults; [id] is the primary key.  The
    database refuses a statement that names a column the table does not
    have, as the table of [scripts/migrate.js] has no [local_url], [s3_url]
    and [upload_status], and a [user_id] that is no UUID: the call is then
    out, as it is when the database cannot be reached. *)
Definition insert_file (uid fname fpath : string) (fsize : N)
    (fhash mime key : string) (lurl : option string) (surl : option Url)
    (ustatus : string) : Handler FileRow :=
  external DbInsert (DbError "insert")
    (let* newId := draw in
     fun w =>
       if List.existsb (fun r => String.eqb (id r) newId) (files w)
       then (Rejected (DbError "files_pkey"), w)
       else
         let row := mkRow newId uid fname fpath fsize fhash mime key lurl surl
                      ustatus "active" (now w) (now w) in
         (Resolved row, with_files (files w ++ [row])%list w)).

(** [localUrl && fileRecord.local_url !== localUrl]. *)
Definition local_url_differs (localUrl : option string) (r : FileRow) : bool :=
  match localUrl with
  | None | Some "" => false
  | Some u =>
      match local_url r with
      | Some v => negb (String.eqb v u)
      | None => true
      end
  end.

(** The handler of [POST /upload] (the route's current version). *)
Definition upload_handler (uid : string) (file : option MulterFile)
    (filePath localUrl : option string) : Handler Response :=
  try_catch
    (match file with
     | None => ret (Json 400 (ErrorBody "No file uploaded"))
     | Some f =>
         let fileHash := calculateFileHash (buffer f) in
         let fullPath :=
           backslashes_to_slashes
             (path_join lib (match filePath with Some fp => fp | None => "/" end)
                (originalname f)) in
         let* existingFile := select_by_hash uid fileHash "active" in
         match existingFile with
         | fileRecord :: _ =>
             let* fileRecord :=
               (if local_url_differs localUrl fileRecord
                then
                  match localUrl with
                  | Some u =>
                      update_local_url u (id fileRecord) ;;
                      ret (set_local_url u (updated_at fileRecord) fileRecord)
                  | None => ret fileRecord
                  end
                else ret fileRecord) in
             let* s3Url := generateS3Url (minio_key fileRecord) in
             ret (Json 200
                    (UploadBody "File already exists with identical content"
                       {| j_id := id fileRecord;
                          j_filename := filename fileRecord;
                          j_filePath := file_path fileRecord;
                          j_fileSize := file_size fileRecord;
                          j_fileHash := file_hash fileRecord;
                          j_mimeType := mime_type fileRecord;
                          j_localUrl := local_url fileRecord;
                          j_s3Url := Some s3Url;
                          j_createdAt := created_at fileRecord |}))
         | [] =>
             let* minioKey := generateMinioKey uid (originalname f) in
             putObject minioKey (mkObject (buffer f) (mimetype f) fileHash) ;;
             let* s3Url := generateS3Url minioKey in
             let* fileRecord :=
               insert_file uid (originalname f) fullPath (size f) fileHash
                 (mimetype f) minioKey localUrl (Some s3Url) "completed" in
             ret (Json 201
                    (UploadBody "File uploaded successfully"
                       {| j_id := id fileRecord;
                          j_filename := filename fileRecord;
                          j_filePath := file_path fileRecord;
                          j_fileSize := file_size fileRecord;
                          j_fileHash := file_hash fileRecord;
                          j_mimeType := mime_type fileRecord;
                          j_localUrl := local_url fileRecord;
                          j_s3Url := s3_url fileRecord;
                          j_createdAt := created_at fileRecord |}))
         end
     end)
    (fun error => ret (Next error)).

(** [router.post('/upload', authMiddleware, upload.single('file'), handler)],
    for a request served with no other request in between
    ([ServerMore.overlapping_uploads] has two requests overlap). *)
Definition post_upload (req : UploadRequest) : World -> Response * World :=
  fun w =>
    match upload_single (req_part req) with
    | Rejected e => (Next e, w)
    | Resolved file =>
        match upload_handler (req_user_id req) file (body_filePath req)
                (body_localUrl req) w with
        | (Resolved r, w') => (r, w')
        | (Rejected e, w') => (Next e, w')
        end
    end.

(** [SELECT * FROM files WHERE user_id = $1 AND file_path = $2 AND status = $3]. *)
Definition select_by_path (uid fpath st : string) : Handler (list FileRow) :=
  external DbSelect (DbError "select")
    (get (fun w => List.filter (fun r => String.eqb (user_id r) uid
                                  && String.eqb (file_path r) fpath
                                  && String.eqb (status r) st) (files w))).

(** The handler of [POST /upload] in the route's earlier version: the
    duplicate check is by path, the answer has no URL, and the columns
    [local_url] and [s3_url] are not written. *)
Definition upload_handler_v1 (uid : string) (file : option MulterFile)
    (filePath : option string) : Handler Response :=
  try_catch
    (match file with
     | None => ret (Json 400 (ErrorBody "No file uploaded"))
     | Some f =>
         let fileHash := calculateFileHash (buffer f) in
         let fullPath :=
           backslashes_to_slashes
             (path_join lib (match filePath with Some fp => fp | None => "/" end)
                (originalname f)) in
         let* existingFile := select_by_path uid fullPath "active" in
         match existingFile with
         | _ :: _ => ret (Json 409 (ErrorBody "File already exists at this path"))
         | [] =>
             let* minioKey := generateMinioKey uid (originalname f) in
             putObject minioKey (mkObject (buffer f) (mimetype f) fileHash) ;;
             let* fileRecord :=
               insert_file uid (originalname f) fullPath (size f) fileHash
                 (mimetype f) minioKey None None "completed" in
             ret (Json 201
                    (UploadBody "File uploaded successfully"
                       {| j_id := id fileRecord;
                          j_filename := filename fileRecord;
                          j_filePath := file_path fileRecord;
                          j_fileSize := file_size fileRecord;
                          j_fileHash := file_hash fileRecord;
                          j_mimeType := mime_type fileRecord;
                          j_localUrl := None;
                          j_s3Url := None;
                          j_createdAt := created_at fileRecord |}))
         end
     end)
    (fun error => ret (Next error)).

Definition post_upload_v1 (req : UploadRequest) : World -> Response * World :=
  fun w =>
    match upload_single (req_part req) with
    | Rejected e => (Next e, w)
    | Resolved file =>
        match upload_handler_v1 (req_user_id req) file (body_filePath req) w with
        | (Resolved r, w') => (r, w')
        | (Rejected e, w') => (Next e, w')
        end
    end.

(** [router.get('/:fileId/download', authMiddleware, handler)]. *)
Definition get_download (uid fileId : string) : World -> Response * World :=
  fun w =>
    match
      try_catch
        (let* result := select_by_id fileId uid "active" in
         match result with
         | [] => ret (Json 404 (ErrorBody "File not found"))
         | file :: _ =>
             let* downloadUrl := presignedGetObject (minio_key file) (24 * 60 * 60) in
             ret (Json 200
                    (DownloadBody
                       {| d_id := id file;
                          d_filename := filename file;
                          d_filePath := file_path file;
                          d_fileSize := file_size file;
                          d_mimeType := mime_type file |}
                       downloadUrl))
         end)
        (fun error => ret (Next error)) w
    with
    | (Resolved r, w') => (r, w')
    | (Rejected e, w') => (Next e, w')
    end.

(** [router.delete('/:fileId', authMiddleware, handler)]. *)
Definition delete_file (uid fileId : string) : World -> Response * World :=
  fun w =>
    match
      try_catch
        (let* result := select_by_id fileId uid "active" in
         match result with
         | [] => ret (Json 404 (ErrorBody "File not found"))
         | file :: _ =>
             removeObject (minio_key file) ;;
             update_status "deleted" fileId ;;
             ret (Json 200 (MessageBody "File deleted successfully"))
         end)
        (fun error => ret (Next error)) w
    with
    | (Resolved r, w') => (r, w')
    | (Rejected e, w') => (Next e, w')
    end.

End Routes.

(** An answer is an error when its status is 400 or above or when the error
    went to [next]. *)
Definition is_error (r : Response) : bool :=
  match r with
  | Json code _ => 400 <=? code
  | Next _ => true
  end.

Definition response_file (r : Response) : option FileJson :=
  match r with
  | Json _ (UploadBody _ f) => Some f
  | _ => None
  end.

(** The storage key behind the URL an upload answers with. *)
Definition response_key (r : Response) : option string :=
  match response_file r with
  | Some f => url_key <$> j_s3Url f
  | None => None
  end.

Definition is_active (r : FileRow) : bool := String.eqb (status r) "active".

Definition is_put (c : Call) : bool :=
  match c with
  | PutObject _ => true
  | _ => false
  end.

(** A world with nothing stored, at time [t], whose [n]-th random identifier
    is [uuid-n] and whose collaborators never fail. *)
Definition fresh_world (t : N) : World :=
  {| files := [];
     bucket := ∅;
     now := t;
     entropy := fun n => "uuid-" ++ pretty n;
     drawn := 0;
     outage := fun _ => false;
     calls := [] |}.

End Server.

(** ** Statements about the routes, and the data of the examples *)

Module ServerSpec.
Import Js Server.

(** No active record of user [uid] has the identifier [fileId]. *)
Definition absent (uid fileId : string) (w : World) : Prop :=
  forall r, In r (files w) ->
            ~ (id r = fileId /\ user_id r = uid /\ status r = "active").

(** The first active record of [uid] with the hash [hash], as the duplicate
    check of the upload finds it. *)
Definition first_match (uid hash : string) (w : World) : option FileRow :=
  head (List.filter (fun r => String.eqb (user_id r) uid
                              && String.eqb (file_hash r) hash
                              && String.eqb (status r) "active") (files w)).

(** The design document's [remove]: "fails silently (no-op) if path absent". *)
Definition delete_silent_when_absent (uid fileId : string) (w : World) : Prop :=
  absent uid fileId w -> is_error (fst (delete_file uid fileId w)) = false.

(** The design document's [permanentKeyFor]: "deterministic, permanent,
    stable across re-uploads of identical content": two uploads of content
    with one hash by one user, in whatever worlds, answer with one key. *)
Definition key_stable_across_uploads
    (lib : NodeLib) (BUCKET_NAME : string) (env : ProcessEnv) : Prop :=
  forall (req1 req2 : UploadRequest) (p1 p2 : FilePart) (w1 w2 : World)
         (k1 k2 : string),
    req_part req1 = Some p1 -> req_part req2 = Some p2 ->
    req_user_id req1 = req_user_id req2 ->
    sha256_hex lib (part_content p1) = sha256_hex lib (part_content p2) ->
    response_key (fst (post_upload lib BUCKET_NAME env req1 w1)) = Some k1 ->
    response_key (fst (post_upload lib BUCKET_NAME env req2 w2)) = Some k2 ->
    k1 = k2.

(** The design document's deletion: the object "is only physically deleted
    when no tree references its content hash": while a record with the hash
    of the deleted one stays active, the deleted record's object stays as it
    was. *)
Definition object_kept_while_referenced (uid fileId : string) (w : World) : Prop :=
  forall r, In r (files w) -> id r = fileId -> user_id r = uid ->
            status r = "active" ->
    let w' := snd (delete_file uid fileId w) in
    (exists r', In r' (files w') /\ status r' = "active"
                /\ file_hash r' = file_hash r) ->
    bucket w' !! minio_key r = bucket w !! minio_key r.

(** The design document's rule on URLs: "generated on demand and never
    persisted": no record holds a URL that expires. *)
Definition no_expiring_url_stored (w : World) : Prop :=
  forall r u, In r (files w) -> s3_url r = Some u -> url_expires_at u = None.

Definition example_env : ProcessEnv :=
  {| MINIO_ENDPOINT := None; MINIO_PORT := None;
     MINIO_BUCKET := None; MINIO_USE_SSL := None |}.

Definition example_bucket : string := "filesync-bucket".

Definition upload_of (uid fname text : string) (dir lurl : option string) : UploadRequest :=
  {| req_user_id := uid;
     req_part := Some {| part_filename := fname;
                         part_mimetype := "text/plain";
                         part_content := Buffer_from text |};
     body_filePath := dir;
     body_localUrl := lurl |}.

Definition example_post (req : UploadRequest) (w : World) : Response * World :=
  post_upload example_lib example_bucket example_env req w.

(** User [u1] uploads [a.txt] holding [hello] at time 1000. *)
Definition hello_request : UploadRequest :=
  upload_of "u1" "a.txt" "hello" (Some "docs") (Some "/home/x/sync/docs/a.txt").

Definition world_after_hello : World :=
  snd (example_post hello_request (fresh_world 1000)).

(** The same content from another device of [u1], under another name. *)
Definition hello_again_request : UploadRequest :=
  upload_of "u1" "copy.txt" "hello" (Some "other") (Some "/home/y/sync/other/copy.txt").

(** [u1] deletes the record of the first upload (its identifier is the
    second random identifier drawn). *)
Definition world_after_hello_deleted : World :=
  snd (delete_file "u1" "uuid-1" world_after_hello).

(** User [u2] uploads the same content while [u1]'s record is active. *)
Definition world_with_two_owners : World :=
  snd (example_post (upload_of "u2" "b.txt" "hello" None None) world_after_hello).

(** A part of one byte more than the limit. *)
Definition oversized_request : UploadRequest :=
  {| req_user_id := "u1";
     req_part := Some {| part_filename := "big.bin";
                         part_mimetype := "application/octet-stream";
                         part_content := Buffer_alloc (100 * 1024 * 1024 + 1) |};
     body_filePath := None;
     body_localUrl := None |}.

(** The record the first example upload inserts. *)
Definition hello_record : FileRow :=
  {| id := "uuid-1"; user_id := "u1"; filename := "a.txt";
     file_path := "docs/a.txt"; file_size := 5; file_hash := "sha256:hello";
     mime_type := "text/plain"; minio_key := "users/u1/files/uuid-0/a.txt";
     local_url := Some "/home/x/sync/docs/a.txt";
     s3_url := Some (PresignedUrl "filesync-bucket"
                       "users/u1/files/uuid-0/a.txt" 3600 1000);
     upload_status := "completed"; status := "active";
     created_at := 1000; updated_at := 1000 |}.

(** A user, by the identifier [authMiddleware] puts into [req.user.id]: the
    columns [id] and [user_id] are of type [UUID]. *)
Definition alice : string := "6f1c0a9e-52b7-4d3a-9c1e-8b7a6d5c4e3f".

(** The [n]-th identifier of the examples that need identifiers the
    database accepts. *)
Definition uuid_of (n : nat) : string :=
  "0b9f6c52-3d1e-4a7b-8c2d-9e0f1a2b3c" ++ pretty (10 + n)%nat.

(** [fresh_world], with random identifiers in the format of UUIDs. *)
Definition uuid_world (t : N) : World :=
  mkWorld [] ∅ t uuid_of 0 (fun _ => false) [].

(** [alice] uploads [a.txt] holding [hello] at time 1000: the key holds the
    first identifier drawn, the record has the second. *)
(** The upload of [a.txt] holding [hello] by [alice]. *)
Definition upload_of_alice : UploadRequest :=
  upload_of alice "a.txt" "hello" (Some "docs") None.

Definition world_of_alice : World :=
  snd (example_post upload_of_alice (uuid_world 1000)).

Definition record_of_alice : FileRow :=
  {| id := "0b9f6c52-3d1e-4a7b-8c2d-9e0f1a2b3c11"; user_id := alice; filename := "a.txt";
     file_path := "docs/a.txt"; file_size := 5; file_hash := "sha256:hello";
     mime_type := "text/plain";
     minio_key := "users/6f1c0a9e-52b7-4d3a-9c1e-8b7a6d5c4e3f/files/0b9f6c52-3d1e-4a7b-8c2d-9e0f1a2b3c10/a.txt";
     local_url := None;
     s3_url := Some (PresignedUrl "filesync-bucket"
                       "users/6f1c0a9e-52b7-4d3a-9c1e-8b7a6d5c4e3f/files/0b9f6c52-3d1e-4a7b-8c2d-9e0f1a2b3c10/a.txt" 3600 1000);
     upload_status := "completed"; status := "active";
     created_at := 1000; updated_at := 1000 |}.

End ServerSpec.

(** ** [Client/lib/api.js], [Client/lib/sync.js] and [Client/lib/file-watcher.js] *)

Module Client.
Import Js.
Local Open Scope async_scope.

(** A value of a JSON body where the client expects a number. *)
Inductive JsValue : Type :=
| JNumber (n : N)
| JString (s : string)
| JNull.

(** [n === v] for a number [n]. *)
Definition strict_equal (n : N) (v : JsValue) : bool :=
  match v with
  | JNumber m => N.eqb n m
  | _ => false
  end.

(** A row of [syncData.changedFiles]. *)
Record FileMetadata := mkMetadata {
  id : string;
  filename : string;
  file_path : string;
  file_size : JsValue;
  file_hash : string;
  updated_at : string
}.

Record SyncData := mkSyncData {
  session_id : string;
  changedFiles : list FileMetadata;
  serverTime : string
}.

(** The requests the client sends. *)
Inductive Request : Type :=
| PostSyncInit (deviceId : string) (lastSyncAt : option string)
| PostSyncComplete (sessionId : string)
| GetDownload (fileId : string)
| PostUpload (filePath remotePath : string)
| DeleteFile (fileId : string).

(** An error as the client catches it: its [message] and, when the server
    has answered with an error body, [response.data.error]. *)
Record JsError := mkError {
  message : string;
  response_error : option string
}.

(** [error.response?.data?.error || error.message], the text [api.js]
    writes. *)
Definition shown (error : JsError) : string :=
  or_default (response_error error) (message error).

(** How a download goes.  The server refuses the URL; the storage refuses
    the transfer, or never answers it ([axios.get(downloadUrl)] is sent
    without a timeout); the write stream fails after some bytes; the
    response stream fails after some bytes, which the write stream neither
    finishes nor fails on; or the file is written. *)
Inductive Download : Type :=
| UrlRejected (error : JsError)
| FetchRejected (error : JsError)
| Unanswered
| WriteRejected (written : Buffer) (error : JsError)
| Stalled (written : Buffer)
| Written (name : string) (content : Buffer).

(** The server as the client meets it: the answer to each request.  The
    calls of the [axios] instance [api] have a timeout and settle. *)
Record Remote := mkRemote {
  sync_init : string -> option string -> Settled JsError SyncData;
  sync_complete : string -> Settled JsError unit;
  download : string -> Download;
  upload : string -> string -> Settled JsError unit;
  delete_reply : string -> Settled JsError unit
}.

(** The lines written to the console. *)
Inductive Line : Type :=
| StartingSync
| FoundChanged (n : nat)
| NoChanges
| SyncCompleted
| SyncFailed (message : string)
| FileUnchanged (name : string)
| Downloading (name : string)
| FailedToDownload (name message : string)
| ApiDownloaded (name : string)
| ApiDownloadFailed (message : string)
| ApiSyncInitFailed (message : string)
| ApiSyncCompleteFailed (message : string)
| ApiUploaded (name : string)
| ApiUploadFailed (filePath message : string)
| ApiDeleted
| ApiDeleteFailed (message : string)
| FileEvent (eventType relativePath : string)
| DeletedLocally (relativePath : string)
| ProcessingQueue (n : nat)
| FailedToUpload (relativePath message : string)
| WatcherError
| WatcherReady.

(** One device: its disk, the module variables of [sync.js] and
    [file-watcher.js], the timers pending, the console and the requests
    sent. *)
Record Device := mkDevice {
  disk : gmap string Buffer;
  lastSyncAt : option string;
  uploadQueue : list string;
  isProcessing : bool;
  timers : nat;
  console : list Line;
  sent : list Request
}.

Definition with_disk (f : gmap string Buffer -> gmap string Buffer) (d : Device) : Device :=
  mkDevice (f (disk d)) (lastSyncAt d) (uploadQueue d) (isProcessing d) (timers d)
    (console d) (sent d).

Definition with_lastSyncAt (t : option string) (d : Device) : Device :=
  mkDevice (disk d) t (uploadQueue d) (isProcessing d) (timers d) (console d) (sent d).

Definition with_uploadQueue (q : list string) (d : Device) : Device :=
  mkDevice (disk d) (lastSyncAt d) q (isProcessing d) (timers d) (console d) (sent d).

Definition with_isProcessing (b : bool) (d : Device) : Device :=
  mkDevice (disk d) (lastSyncAt d) (uploadQueue d) b (timers d) (console d) (sent d).

Definition with_timers (n : nat) (d : Device) : Device :=
  mkDevice (disk d) (lastSyncAt d) (uploadQueue d) (isProcessing d) n (console d) (sent d).

(** How an awaited promise of the client fails to resolve: it rejects with
    an error, or it never settles. *)
Inductive Failure : Type :=
| Throws (error : JsError)
| NeverSettles.

Definition Task (A : Type) : Type := Async Device Failure A.

(** The state of a promise that never settles: what comes after the [await]
    does not run. *)
Definition pending {A} : Settled Failure A := Rejected NeverSettles.

Definition throw_error {A} (error : JsError) : Task A := throw (Throws error).

Definition never {A} : Task A := throw NeverSettles.

(** [try { m } catch (error) { h error }]: a rejection is caught, a promise
    that never settles is not. *)
Definition try_catch {A} (m : Task A) (h : JsError -> Task A) : Task A :=
  Js.try_catch m
    (fun failure =>
       match failure with
       | Throws error => h error
       | NeverSettles => never
       end).

Definition log (l : Line) : Task unit :=
  modify (fun d => mkDevice (disk d) (lastSyncAt d) (uploadQueue d) (isProcessing d)
                     (timers d) (console d ++ [l])%list (sent d)).

Definition send (r : Request) : Task unit :=
  modify (fun d => mkDevice (disk d) (lastSyncAt d) (uploadQueue d) (isProcessing d)
                     (timers d) (console d) (sent d ++ [r])%list).

Definition settle {A} (r : Settled JsError A) : Task A :=
  fun d =>
    (match r with
     | Resolved a => Resolved a
     | Rejected error => Rejected (Throws error)
     end, d).

(** [if (lastSyncAt) payload.lastSyncAt = lastSyncAt]: [null] and the empty
    string are left out of the payload. *)
Definition if_truthy (last : option string) : option string :=
  match last with
  | Some "" | None => None
  | Some t => Some t
  end.

(** [config]. *)
Record Config := mkConfig {
  WATCH_DIRECTORY : string;
  DEVICE_ID : string;
  SYNC_INTERVAL : N
}.

Section Modules.

Variable lib : NodeLib.
Variable config : Config.
Variable remote : Remote.

(** *** [api.js] *)

Definition api_initSync (deviceId : string) (last : option string) : Task SyncData :=
  try_catch
    (send (PostSyncInit deviceId (if_truthy last)) ;;
     settle (sync_init remote deviceId (if_truthy last)))
    (fun error => log (ApiSyncInitFailed (shown error)) ;; throw_error error).

Definition api_completeSync (sessionId : string) : Task unit :=
  try_catch
    (send (PostSyncComplete sessionId) ;;
     settle (sync_complete remote sessionId))
    (fun error => log (ApiSyncCompleteFailed (shown error)) ;; throw_error error).

(** The [try] of [downloadFile] ends with [return new Promise(...)]: a
    failure of the write stream rejects the promise returned, past the
    [catch] of [downloadFile].  The promise listens to the write stream
    only, for [finish] and [error]: when the response stream fails, the
    bytes piped so far are in the file and the promise never settles. *)
Definition api_downloadFile (fileId savePath : string) : Task unit :=
  let* outcome :=
    try_catch
      (send (GetDownload fileId) ;;
       match download remote fileId with
       | UrlRejected e => throw_error e
       | FetchRejected e => throw_error e
       | Unanswered => never
       | other => ret other
       end)
      (fun error => log (ApiDownloadFailed (shown error)) ;; throw_error error) in
  match outcome with
  | Written name content =>
      modify (with_disk (fun fs => <[savePath := content]> fs)) ;;
      log (ApiDownloaded name)
  | WriteRejected written e =>
      modify (with_disk (fun fs => <[savePath := written]> fs)) ;;
      throw_error e
  | Stalled written =>
      modify (with_disk (fun fs => <[savePath := written]> fs)) ;;
      never
  | UrlRejected e | FetchRejected e => throw_error e
  | Unanswered => never
  end.

Definition api_uploadFile (filePath remotePath : string) : Task unit :=
  try_catch
    (let* present := get (fun d => bool_decide (is_Some (disk d !! filePath))) in
     if negb present then throw_error (mkError ("File not found: " ++ filePath) None)
     else
       send (PostUpload filePath remotePath) ;;
       settle (upload remote filePath remotePath) ;;
       log (ApiUploaded (path_basename lib filePath)))
    (fun error => log (ApiUploadFailed filePath (shown error)) ;; throw_error error).

Definition api_deleteFile (fileId : string) : Task unit :=
  try_catch
    (send (DeleteFile fileId) ;;
     settle (delete_reply remote fileId) ;;
     log ApiDeleted)
    (fun error => log (ApiDeleteFailed (shown error)) ;; throw_error error).

(** *** [sync.js] *)

(** The test of [downloadFileFromServer]: the file exists and has the size
    the server reports. *)
Definition same_size_on_disk (localPath : string) (m : FileMetadata) (d : Device) : bool :=
  match disk d !! localPath with
  | Some b => strict_equal (byteLength b) (file_size m)
  | None => false
  end.

Definition downloadFileFromServer (fileMetadata : FileMetadata) : Task unit :=
  try_catch
    (let localPath := path_join lib (WATCH_DIRECTORY config) (file_path fileMetadata) in
     let* unchanged := get (same_size_on_disk localPath fileMetadata) in
     if unchanged
     then log (FileUnchanged (filename fileMetadata))
     else
       log (Downloading (filename fileMetadata)) ;;
       api_downloadFile (id fileMetadata) localPath)
    (fun error => log (FailedToDownload (filename fileMetadata) (message error))).

Definition performSync : Task unit :=
  try_catch
    (log StartingSync ;;
     let* last := get lastSyncAt in
     let* syncData := api_initSync (DEVICE_ID config) last in
     (if (0 <? length (changedFiles syncData))%nat
      then
        log (FoundChanged (length (changedFiles syncData))) ;;
        for_of (changedFiles syncData) downloadFileFromServer
      else log NoChanges) ;;
     api_completeSync (session_id syncData) ;;
     modify (with_lastSyncAt (Some (serverTime syncData))) ;;
     log SyncCompleted)
    (fun error => log (SyncFailed (message error))).

(** *** [file-watcher.js] *)

(** [ignorePatterns], each as a test on a string. *)
Definition ignorePatterns : list (string -> bool) :=
  [ String.prefix ".";
    ends_with "~";
    ends_with ".tmp";
    ends_with ".log";
    contains "node_modules";
    contains ".git" ].

Definition shouldIgnoreFile (filePath : string) : bool :=
  let basename := path_basename lib filePath in
  List.existsb (fun pattern => pattern basename || pattern filePath) ignorePatterns.

(** [uploadQueue.add(relativePath)] on a [Set]. *)
Definition set_add (x : string) (q : list string) : list string :=
  if List.existsb (String.eqb x) q then q else (q ++ [x])%list.

Definition queueUpload (filePath : string) : Task unit :=
  let relativePath := path_relative lib (WATCH_DIRECTORY config) filePath in
  modify (fun d => with_uploadQueue (set_add relativePath (uploadQueue d)) d) ;;
  modify (fun d => with_timers (S (timers d)) d).

Definition handleFileChange (filePath eventType : string) : Task unit :=
  if shouldIgnoreFile filePath then ret tt
  else
    let relativePath := path_relative lib (WATCH_DIRECTORY config) filePath in
    log (FileEvent eventType relativePath) ;;
    if String.eqb eventType "add" || String.eqb eventType "change"
    then queueUpload filePath
    else ret tt.

Definition processUploadQueue : Task unit :=
  let* busy := get isProcessing in
  let* files := get uploadQueue in
  if busy || (length files =? 0)%nat then ret tt
  else
    modify (with_isProcessing true) ;;
    log (ProcessingQueue (length files)) ;;
    modify (with_uploadQueue []) ;;
    for_of files
      (fun relativePath =>
         try_catch
           (let fullPath := path_join lib (WATCH_DIRECTORY config) relativePath in
            let* present := get (fun d => bool_decide (is_Some (disk d !! fullPath))) in
            if negb present then ret tt
            else
              let remotePath := path_dirname lib relativePath in
              api_uploadFile fullPath
                (if String.eqb remotePath "." then "/" else remotePath))
           (fun error => log (FailedToUpload relativePath (message error)))) ;;
    modify (with_isProcessing false).

(** The events of the watcher, for paths the [ignored] option lets through. *)
Inductive WatchEvent : Type :=
| OnAdd (filePath : string)
| OnChange (filePath : string)
| OnUnlink (filePath : string)
| OnError
| OnReady.

(** The listeners [startWatcher] registers. *)
Definition on_event (ev : WatchEvent) : Task unit :=
  match ev with
  | OnAdd filePath => handleFileChange filePath "add"
  | OnChange filePath => handleFileChange filePath "change"
  | OnUnlink filePath =>
      let relativePath := path_relative lib (WATCH_DIRECTORY config) filePath in
      log (DeletedLocally relativePath)
  | OnError => log WatcherError
  | OnReady => log WatcherReady
  end.

End Modules.

Definition is_delete (r : Request) : bool :=
  match r with
  | DeleteFile _ => true
  | _ => false
  end.

Definition is_transfer (r : Request) : bool :=
  match r with
  | GetDownload _ => true
  | _ => false
  end.

End Client.

(** ** Statements about the client, and the data of the examples *)

Module ClientSpec.
Import Js Client.

(** The client asks for no transfer of the file. *)
Definition skipped (lib : NodeLib) (config : Config) (remote : Remote)
    (m : FileMetadata) (d : Device) : Prop :=
  sent (snd (downloadFileFromServer lib config remote m d)) = sent d.

(** The design document's tie-break rule: "comparisons are by contentHash,
    never by modifiedAt or size alone: two entries with equal hash are
    defined as equal regardless of metadata drift". *)
Definition decides_by_content_hash
    (lib : NodeLib) (config : Config) (remote : Remote) : Prop :=
  forall (d : Device) (m1 m2 : FileMetadata),
    file_path m1 = file_path m2 -> file_hash m1 = file_hash m2 ->
    (skipped lib config remote m1 d <-> skipped lib config remote m2 d).

(** What became of one file of a cycle whose visit settled. *)
Inductive FileResult : Type :=
| Skipped
| Fetched (name : string)
| Failed (api_logged : bool) (error : JsError).

(** The lines a cycle writes for one file: [api.js] writes the error of the
    server's body where there is one, [sync.js] the message of the error. *)
Definition report (m : FileMetadata) (r : FileResult) : list Line :=
  match r with
  | Skipped => [FileUnchanged (filename m)]
  | Fetched name => [Downloading (filename m); ApiDownloaded name]
  | Failed true e =>
      [Downloading (filename m); ApiDownloadFailed (shown e);
       FailedToDownload (filename m) (message e)]
  | Failed false e =>
      [Downloading (filename m); FailedToDownload (filename m) (message e)]
  end.

Definition reports (ms : list FileMetadata) (rs : list FileResult) : list Line :=
  List.concat (zip_with report ms rs).

(** The visit of the changed file [m] has taken the device from [d] to [d']
    with the result [r]: the file was skipped because its size on the disk
    is the size reported, and nothing was asked for; or it was asked for and
    the disk holds what the download wrote, if anything. *)
Definition visited (lib : NodeLib) (config : Config) (remote : Remote)
    (m : FileMetadata) (r : FileResult) (d d' : Device) : Prop :=
  let localPath := path_join lib (WATCH_DIRECTORY config) (file_path m) in
  console d' = (console d ++ report m r)%list
  /\ lastSyncAt d' = lastSyncAt d
  /\ match r with
     | Skipped =>
         same_size_on_disk localPath m d = true
         /\ sent d' = sent d /\ disk d' = disk d
     | Fetched name =>
         same_size_on_disk localPath m d = false
         /\ sent d' = (sent d ++ [GetDownload (id m)])%list
         /\ exists content,
              download remote (id m) = Written name content
              /\ disk d' = <[localPath := content]> (disk d)
     | Failed true e =>
         same_size_on_disk localPath m d = false
         /\ sent d' = (sent d ++ [GetDownload (id m)])%list
         /\ (download remote (id m) = UrlRejected e
             \/ download remote (id m) = FetchRejected e)
         /\ disk d' = disk d
     | Failed false e =>
         same_size_on_disk localPath m d = false
         /\ sent d' = (sent d ++ [GetDownload (id m)])%list
         /\ exists written,
              download remote (id m) = WriteRejected written e
              /\ disk d' = <[localPath := written]> (disk d)
     end.

(** The visits of the files of a list, one after the other. *)
Inductive visits (lib : NodeLib) (config : Config) (remote : Remote) :
    list FileMetadata -> list FileResult -> Device -> Device -> Prop :=
| visits_nil (d : Device) : visits lib config remote [] [] d d
| visits_cons (m : FileMetadata) (ms : list FileMetadata)
    (r : FileResult) (rs : list FileResult) (d d1 d2 : Device) :
    visited lib config remote m r d d1 ->
    visits lib config remote ms rs d1 d2 ->
    visits lib config remote (m :: ms) (r :: rs) d d2.

(** The device a visit of [m] leaves behind when the download is asked for
    and its promise never settles, with [fs] on the disk. *)
Definition left_waiting (m : FileMetadata) (fs : gmap string Buffer) (d : Device) : Device :=
  mkDevice fs (lastSyncAt d) (uploadQueue d) (isProcessing d) (timers d)
    (console d ++ [Downloading (filename m)]) (sent d ++ [GetDownload (id m)]).

(** What is on the disk when a download that never ends is left waiting. *)
Definition disk_left (localPath : string) (o : Download) (fs : gmap string Buffer)
    : gmap string Buffer :=
  match o with
  | Stalled written => <[localPath := written]> fs
  | _ => fs
  end.

(** A download that ends: its promise resolves or rejects. *)
Definition settles (o : Download) : Prop :=
  match o with
  | Unanswered | Stalled _ => False
  | _ => True
  end.

(** The device after the server has opened the session of a cycle with
    [data]: the request is sent and the number of changed files is on the
    console. *)
Definition opened (config : Config) (data : SyncData) (d : Device) : Device :=
  mkDevice (disk d) (lastSyncAt d) (uploadQueue d) (isProcessing d) (timers d)
    (console d
     ++ [StartingSync;
         if (0 <? length (changedFiles data))%nat
         then FoundChanged (length (changedFiles data))
         else NoChanges])
    (sent d ++ [PostSyncInit (DEVICE_ID config) (if_truthy (lastSyncAt d))]).

(** What the requests and the disk of a device may become when deletions
    are not propagated: no request to delete is added, no file is lost. *)
Definition nothing_deleted (d d' : Device) : Prop :=
  (exists new, sent d' = (sent d ++ new)%list
               /\ forallb (fun r => negb (is_delete r)) new = true)
  /\ dom (disk d) ⊆ dom (disk d').

(** A task keeps what is there: it asks for no deletion and loses no file. *)
Definition keeps {A} (m : Task A) : Prop :=
  forall d, nothing_deleted d (snd (m d)).

Definition example_config : Config :=
  {| WATCH_DIRECTORY := "/sync"; DEVICE_ID := "laptop-001"; SYNC_INTERVAL := 30000 |}.

Definition meta (fid name : string) (sz : JsValue) (hash : string) : FileMetadata :=
  {| id := fid; filename := name; file_path := name; file_size := sz;
     file_hash := hash; updated_at := "2025-07-27T12:00:00.000Z" |}.

(** The error of a request the server has answered 404, and the error of a
    request that did not reach the server. *)
Definition not_found : JsError :=
  mkError "Request failed with status code 404" (Some "File not found").

Definition network_error : JsError := mkError "Network Error" None.

(** A server that lists three changed files; the download of the second is
    refused. *)
Definition example_data : SyncData :=
  {| session_id := "s1";
     changedFiles := [ meta "f1" "a.txt" (JNumber 4) "sha256:bbbb";
                       meta "f2" "b.txt" (JNumber 3) "sha256:xyz";
                       meta "f3" "c.txt" (JNumber 2) "sha256:hi" ];
     serverTime := "2025-07-27T12:00:05.000Z" |}.

Definition example_remote : Remote :=
  {| sync_init := fun _ _ => Resolved example_data;
     sync_complete := fun _ => Resolved tt;
     download := fun fid =>
       if String.eqb fid "f2" then UrlRejected not_found
       else Written (fid ++ ".txt") (Buffer_from "hi");
     upload := fun _ _ => Resolved tt;
     delete_reply := fun _ => Resolved tt |}.

(** A device whose [a.txt] holds four bytes, [aaaa]. *)
Definition example_device : Device :=
  {| disk := {[ "/sync/a.txt" := Buffer_from "aaaa" ]};
     lastSyncAt := None; uploadQueue := []; isProcessing := false; timers := 0;
     console := []; sent := [] |}.

(** A server with nothing new to report. *)
Definition quiet_remote : Remote :=
  {| sync_init := fun _ _ =>
       Resolved {| session_id := "s2"; changedFiles := [];
                   serverTime := "2025-07-27T12:01:00.000Z" |};
     sync_complete := fun _ => Resolved tt;
     download := fun _ => UrlRejected not_found;
     upload := fun _ _ => Resolved tt;
     delete_reply := fun _ => Resolved tt |}.

(** Device X after its user has removed [c.txt], and device Z, which still
    holds its copy. *)
Definition device_X : Device :=
  {| disk := ∅; lastSyncAt := Some "2025-07-27T12:00:00.000Z"; uploadQueue := [];
     isProcessing := false; timers := 0; console := []; sent := [] |}.

Definition device_Z : Device :=
  {| disk := {[ "/sync/c.txt" := Buffer_from "h4" ]};
     lastSyncAt := Some "2025-07-27T12:00:00.000Z"; uploadQueue := [];
     isProcessing := false; timers := 0; console := []; sent := [] |}.

(** A server that cannot be reached. *)
Definition unreachable_remote : Remote :=
  mkRemote (fun _ _ => Rejected network_error) (fun _ => Resolved tt)
    (fun _ => UrlRejected network_error)
    (fun _ _ => Rejected network_error) (fun _ => Rejected network_error).

(** The upload requests for the queued paths that are on the disk, in the
    order of the queue. *)
Definition uploads_of (lib : NodeLib) (config : Config) (fs : gmap string Buffer)
    (files : list string) : list Request :=
  List.flat_map
    (fun relativePath =>
       let fullPath := path_join lib (WATCH_DIRECTORY config) relativePath in
       let remotePath := path_dirname lib relativePath in
       if bool_decide (is_Some (fs !! fullPath))
       then [PostUpload fullPath (if String.eqb remotePath "." then "/" else remotePath)]
       else [])
    files.

(** A server that refuses every upload. *)
Definition refusing_remote : Remote :=
  mkRemote (sync_init example_remote) (sync_complete example_remote)
    (download example_remote)
    (fun _ _ => Rejected (mkError "Request failed with status code 500"
                            (Some "Internal server error")))
    (delete_reply example_remote).

(** A device with two paths queued, of which the second is no longer on the
    disk. *)
Definition device_with_queue : Device :=
  mkDevice (disk example_device) (lastSyncAt example_device) ["a.txt"; "gone.txt"] false 2
    [] [].


(** The body of the loop of [processUploadQueue], for one queued path. *)
Definition upload_turn (lib : NodeLib) (config : Config) (remote : Remote)
    (relativePath : string) : Task unit :=
  try_catch
    (let fullPath := path_join lib (WATCH_DIRECTORY config) relativePath in
     let* present := get (fun d => bool_decide (is_Some (disk d !! fullPath))) in
     if negb present then ret tt
     else
       let remotePath := path_dirname lib relativePath in
       api_uploadFile lib remote fullPath
         (if String.eqb remotePath "." then "/" else remotePath))%async
    (fun error => log (FailedToUpload relativePath (message error))).

(** The server of the example, with the response stream of the second file
    failing after one byte. *)
Definition stalling_remote : Remote :=
  mkRemote (sync_init example_remote) (sync_complete example_remote)
    (fun fid => if String.eqb fid "f2" then Stalled (Buffer_from "h")
                else download example_remote fid)
    (upload example_remote) (delete_reply example_remote).

(** A server that refuses to open a session, with an error body. *)
Definition closed_remote : Remote :=
  mkRemote (fun _ _ => Rejected (mkError "Request failed with status code 401"
                                   (Some "Invalid token")))
    (sync_complete example_remote) (download example_remote)
    (upload example_remote) (delete_reply example_remote).

End ClientSpec.

(** ** Further statements about the routes, and the listing of files *)

Module ServerMore.
Import Js Server ServerSpec.
Local Open Scope async_scope.

(** No user has two active records with one hash. *)
Definition one_record_per_hash (w : World) : Prop :=
  NoDup (List.map (fun r => (user_id r, file_hash r))
           (List.filter is_active (files w))).

(** The identifiers of the table are distinct, as its primary key demands. *)
Definition unique_ids (w : World) : Prop := NoDup (List.map id (files w)).

(** The calls from the next one on succeed or fail as [f] says. *)
Definition with_outage (f : nat -> bool) (w : World) : World :=
  mkWorld (files w) (bucket w) (now w) (entropy w) (drawn w)
    (fun n => f (n - length (calls w))%nat) (calls w).

(** The collaborators answer the next [n] calls. *)
Definition calm (n : nat) (w : World) : Prop :=
  forall k, (k < n)%nat -> outage w (length (calls w) + k) = false.

(** The request of the examples, in a world where the [n]-th call from now
    fails and the others succeed. *)
Definition failing_at (n : nat) (w : World) : World :=
  with_outage (fun k => Nat.eqb k n) w.

(** The columns the duplicate check of an upload compares. *)
Definition owner_and_hash (r : FileRow) : string * string := (user_id r, file_hash r).

(** *** Requests that overlap *)

Section Overlap.

Variable lib : NodeLib.
Variable BUCKET_NAME : string.
Variable env : ProcessEnv.

(** The handler of [POST /upload] up to its first [await]: the [SELECT] of
    the duplicate check. *)
Definition upload_begin (uid : string) (f : MulterFile) : Handler (list FileRow) :=
  select_by_hash uid (calculateFileHash lib (buffer f)) "active".

(** The handler from the answer of that [SELECT] on. *)
Definition upload_finish (uid : string) (f : MulterFile)
    (filePath localUrl : option string) (existingFile : list FileRow) : Handler Response :=
  let fileHash := calculateFileHash lib (buffer f) in
  let fullPath :=
    backslashes_to_slashes
      (path_join lib (match filePath with Some fp => fp | None => "/" end)
         (originalname f)) in
  match existingFile with
  | fileRecord :: _ =>
      let* fileRecord :=
        (if local_url_differs localUrl fileRecord
         then
           match localUrl with
           | Some u =>
               update_local_url u (id fileRecord) ;;
               ret (set_local_url u (updated_at fileRecord) fileRecord)
           | None => ret fileRecord
           end
         else ret fileRecord) in
      let* s3Url := generateS3Url BUCKET_NAME env (minio_key fileRecord) in
      ret (Json 200
             (UploadBody "File already exists with identical content"
                {| j_id := id fileRecord;
                   j_filename := filename fileRecord;
                   j_filePath := file_path fileRecord;
                   j_fileSize := file_size fileRecord;
                   j_fileHash := file_hash fileRecord;
                   j_mimeType := mime_type fileRecord;
                   j_localUrl := local_url fileRecord;
                   j_s3Url := Some s3Url;
                   j_createdAt := created_at fileRecord |}))
  | [] =>
      let* minioKey := generateMinioKey uid (originalname f) in
      putObject minioKey (mkObject (buffer f) (mimetype f) fileHash) ;;
      let* s3Url := generateS3Url BUCKET_NAME env minioKey in
      let* fileRecord :=
        insert_file uid (originalname f) fullPath (size f) fileHash
          (mimetype f) minioKey localUrl (Some s3Url) "completed" in
      ret (Json 201
             (UploadBody "File uploaded successfully"
                {| j_id := id fileRecord;
                   j_filename := filename fileRecord;
                   j_filePath := file_path fileRecord;
                   j_fileSize := file_size fileRecord;
                   j_fileHash := file_hash fileRecord;
                   j_mimeType := mime_type fileRecord;
                   j_localUrl := local_url fileRecord;
                   j_s3Url := s3_url fileRecord;
                   j_createdAt := created_at fileRecord |}))
  end.

(** What the [try]/[catch] of a handler makes of its steps. *)
Definition answered (steps : Handler Response) : World -> Response * World :=
  fun w =>
    match try_catch steps (fun error => ret (Next error)) w with
    | (Resolved r, w') => (r, w')
    | (Rejected e, w') => (Next e, w')
    end.


End Overlap.

End ServerMore.


(** ** [Server/routes/files.js]: the listing of files *)

Module ServerList.
Import Js Server.
Local Open Scope Z_scope.

(** [req.query], as far as the route reads it; each value is a string or
    absent. *)
Record ListQuery := mkListQuery {
  q_path : option string;
  q_limit : option string;
  q_offset : option string
}.

(** The columns the route selects. *)
Record ListedFile := mkListed {
  l_id : string;
  l_filename : string;
  l_file_path : string;
  l_file_size : N;
  l_file_hash : string;
  l_mime_type : string;
  l_created_at : N;
  l_updated_at : N
}.

Definition listed (r : FileRow) : ListedFile :=
  {| l_id := id r; l_filename := filename r; l_file_path := file_path r;
     l_file_size := file_size r; l_file_hash := file_hash r;
     l_mime_type := mime_type r; l_created_at := created_at r;
     l_updated_at := updated_at r |}.

(** The answer of the route: the rows and [pagination], or an error handed
    to [next]. *)
Inductive ListResponse : Type :=
| ListJson (rows : list ListedFile) (limit offset : Z) (total : nat)
| ListNext (e : Error).

(** [ORDER BY created_at DESC]. *)
Definition newest_first (a b : FileRow) : Prop := (created_at b <= created_at a)%N.

#[export] Instance newest_first_dec : RelDecision newest_first.
Proof. intros a b. unfold newest_first. apply _. Defined.

(** The largest [bigint] of the database. *)
Definition max_bigint : Z := 9223372036854775807.

Section ListRoute.

(** [parseInt] on a string: the integer it returns, [None] when it returns
    [NaN]. *)
Variable parseInt : string -> option Z.
(** [value LIKE pattern] of the database. *)
Variable sql_like : string -> string -> bool.

(** [const { limit = 50 } = req.query; parseInt(limit)]. *)
Definition parsed (v : option string) (default : Z) : option Z :=
  match v with
  | Some s => parseInt s
  | None => Some default
  end.

(** The rows the [WHERE] clause keeps: those of the user that are active,
    and, when the route adds [AND file_path LIKE $3], whose path matches. *)
Definition selected (uid : string) (pattern : option string) (r : FileRow) : bool :=
  String.eqb (user_id r) uid && String.eqb (status r) "active"
  && match pattern with
     | Some p => sql_like (file_path r) p
     | None => true
     end.

(** The query of the route.  The database refuses a [LIMIT] or [OFFSET] that
    is not a number, is negative or is no [bigint]. *)
Definition select_page (uid : string) (pattern : option string)
    (limit offset : option Z) : Handler (list FileRow) :=
  external DbSelect (DbError "select")
    (fun w =>
       match limit, offset with
       | Some l, Some o =>
           if (l <? 0) || (o <? 0) || (max_bigint <? l) || (max_bigint <? o)
           then (Rejected (DbError "limit"), w)
           else
             (Resolved
                (take (Z.to_nat l)
                   (drop (Z.to_nat o)
                      (merge_sort newest_first
                         (List.filter (selected uid pattern) (files w))))), w)
       | _, _ => (Rejected (DbError "NaN"), w)
       end).

(** [router.get('/', authMiddleware, handler)]. *)
Definition get_list (uid : string) (q : ListQuery) : World -> ListResponse * World :=
  fun w =>
    let filePath := match q_path q with Some p => p | None => "/" end in
    let pattern := if String.eqb filePath "/" then None else Some (filePath ++ "%") in
    let limit := parsed (q_limit q) 50 in
    let offset := parsed (q_offset q) 0 in
    match select_page uid pattern limit offset w with
    | (Resolved rows, w') =>
        (ListJson (List.map listed rows)
           (match limit with Some l => l | None => 0 end)
           (match offset with Some o => o | None => 0 end)
           (length rows), w')
    | (Rejected e, w') => (ListNext e, w')
    end.

End ListRoute.

(** [parseInt] on decimal digits, for the examples: the digits up to the
    first other character. *)
Fixpoint decimal_digits (s : string) (acc : option Z) : option Z :=
  match s with
  | EmptyString => acc
  | String c rest =>
      let n := Z.of_nat (nat_of_ascii c) in
      if (48 <=? n) && (n <=? 57)
      then decimal_digits rest
             (Some (10 * match acc with Some a => a | None => 0 end + (n - 48)))
      else acc
  end.

Definition example_parseInt (s : string) : option Z := decimal_digits s None.

(** [LIKE] for the examples, on a pattern whose only wildcard is the final
    [%]. *)
Definition example_like (value pattern : string) : bool :=
  String.prefix (substring 0 (String.length pattern - 1) pattern) value.

Definition example_list (uid : string) (q : ListQuery) (w : World) : ListResponse * World :=
  get_list example_parseInt example_like uid q w.

(** The clock of a world set to [t]. *)
Definition at_time (t : N) (w : World) : World :=
  mkWorld (files w) (bucket w) t (entropy w) (drawn w) (outage w) (calls w).

(** [u1] uploads [a.txt] at time 1000 and [notes.txt] at time 2000, [u2]
    uploads [c.txt] at time 3000. *)
Definition world_of_three_files : World :=
  let w1 := ServerSpec.world_after_hello in
  let w2 := snd (ServerSpec.example_post
                   (ServerSpec.upload_of "u1" "notes.txt" "world" (Some "docs") None)
                   (at_time 2000 w1)) in
  snd (ServerSpec.example_post
         (ServerSpec.upload_of "u2" "c.txt" "other" (Some "docs") None)
         (at_time 3000 w2)).


End ServerList.


(** * Properties *)

(** ** The order on strings *)

Module StrOrdFacts.
Import StrOrd.

Lemma compare_lt_trans (a b c : string) :
  String.compare a b = Lt -> String.compare b c = Lt -> String.compare a c = Lt.
Proof.
  intros Hab Hbc.
  apply String_as_OT.cmp_lt. apply String_as_OT.cmp_lt in Hab, Hbc.
  exact (String_as_OT.lt_trans _ _ _ Hab Hbc).
Qed.

Lemma le_trans (a b c : string) : le a b -> le b c -> le a c.
Proof.
  unfold le, String.leb. intros Hab Hbc.
  destruct (String.compare a b) eqn:Eab; try discriminate.
  - apply String.compare_eq_iff in Eab. subst a. exact Hbc.
  - destruct (String.compare b c) eqn:Ebc; try discriminate.
    + apply String.compare_eq_iff in Ebc. subst c. now rewrite Eab.
    + now rewrite (compare_lt_trans _ _ _ Eab Ebc).
Qed.

Lemma le_total (a b : string) : le a b \/ le b a.
Proof. apply String.leb_total. Qed.

Lemma le_antisym (a b : string) : le a b -> le b a -> a = b.
Proof. apply String.leb_antisym. Qed.

End StrOrdFacts.

(** ** The hash tree: the root hash depends on the entry set only *)

Module HashTreeFacts.
Import HashTree.

#[local] Instance key_le_trans : Transitive key_le.
Proof. intros a b c. unfold key_le. apply StrOrdFacts.le_trans. Qed.

#[local] Instance key_le_total : Total key_le.
Proof. intros a b. unfold key_le. apply StrOrdFacts.le_total. Qed.

Lemma lookup_Some_elem (p : string) (t : Tree) (e : FileEntry) :
  lookup p t = Some e -> In e (entries t) /\ path e = p.
Proof.
  unfold lookup. intros H. apply List.find_some in H as [Hin Heq].
  split; [exact Hin | now apply String.eqb_eq].
Qed.

Lemma lookup_unique (t : Tree) (e : FileEntry) :
  unique_paths t -> In e (entries t) -> lookup (path e) t = Some e.
Proof.
  unfold unique_paths, lookup. induction (entries t) as [|x l IH]; simpl.
  - intros _ [].
  - rewrite NoDup_cons. intros [Hx Hnd] [-> | Hin].
    + now rewrite String.eqb_refl.
    + destruct (String.eqb_spec (path x) (path e)) as [Heq | _].
      * exfalso. apply Hx. rewrite Heq. apply list_elem_of_In, in_map, Hin.
      * now apply IH.
Qed.

Lemma put_paths_keep (e : FileEntry) (es : list FileEntry) :
  In (path e) (path <$> es) -> path <$> put e es = path <$> es.
Proof.
  induction es as [|x l IH]; simpl; [intros [] |].
  destruct (String.eqb_spec (path x) (path e)) as [Heq | Hne]; simpl.
  - intros _. now rewrite Heq.
  - intros [Hx | Hin]; [congruence |]. f_equal. now apply IH.
Qed.

Lemma put_paths_new (e : FileEntry) (es : list FileEntry) :
  ~ In (path e) (path <$> es) -> path <$> put e es = ((path <$> es) ++ [path e])%list.
Proof.
  induction es as [|x l IH]; simpl; [reflexivity |].
  intros Hnin.
  destruct (String.eqb_spec (path x) (path e)) as [Heq | Hne]; simpl.
  - exfalso. apply Hnin. now left.
  - f_equal. apply IH. intros Hin. apply Hnin. now right.
Qed.

Lemma put_unique (e : FileEntry) (es : list FileEntry) :
  NoDup (path <$> es) -> NoDup (path <$> put e es).
Proof.
  intros Hnd.
  destruct (in_dec String.string_dec (path e) (path <$> es)) as [Hin | Hnin].
  - now rewrite put_paths_keep.
  - rewrite put_paths_new by exact Hnin.
    apply NoDup_app. split; [exact Hnd |]. split.
    + intros x Hx Hx'. apply list_elem_of_In in Hx.
      apply list_elem_of_singleton in Hx'. subst. contradiction.
    + apply NoDup_singleton.
Qed.

Lemma upsert_unique (p h : string) (md : Metadata) (t : Tree) :
  unique_paths t -> unique_paths (upsert p h md t).
Proof. unfold unique_paths, upsert. simpl. apply put_unique. Qed.

(** Every tree a device builds by insertions has one entry per path. *)
Lemma build_unique (dev : string) (ops : list (string * string * Metadata)) :
  unique_paths (build dev ops).
Proof.
  unfold build.
  assert (Hgen : forall t, unique_paths t ->
            unique_paths (fold_left (fun t op => upsert op.1.1 op.1.2 op.2 t) ops t)).
  { induction ops as [|op ops IH]; simpl; [auto |].
    intros t Ht. apply IH. now apply upsert_unique. }
  apply Hgen. unfold unique_paths, empty. simpl. apply NoDup_nil_2.
Qed.

Lemma keys_unique (t : Tree) : unique_paths t -> NoDup (key <$> entries t).
Proof.
  unfold unique_paths. intros Hnd.
  apply (NoDup_fmap_1 fst). rewrite <- list_fmap_compose.
  exact Hnd.
Qed.

Lemma key_in_lookup (t : Tree) (p h : string) :
  unique_paths t ->
  (p, h) ∈ key <$> entries t <-> contentHash <$> lookup p t = Some h.
Proof.
  intros Hu. split.
  - intros Hin. apply list_elem_of_fmap in Hin as (e & Heq & He).
    inversion Heq; subst. apply list_elem_of_In in He.
    now rewrite (lookup_unique t e Hu He).
  - destruct (lookup p t) as [e|] eqn:El; simpl; [|discriminate].
    intros [= <-]. apply lookup_Some_elem in El as [Hin <-].
    apply list_elem_of_fmap. exists e. split; [reflexivity |].
    now apply list_elem_of_In.
Qed.

(** Same entry set, whatever the order of the entries: the leaves agree. *)
Lemma sorted_keys_same (t1 t2 : Tree) :
  unique_paths t1 -> unique_paths t2 -> same_entry_set t1 t2 ->
  sorted_keys t1 = sorted_keys t2.
Proof.
  intros H1 H2 Hsame.
  assert (Hperm : key <$> entries t1 ≡ₚ key <$> entries t2).
  { apply NoDup_Permutation; [now apply keys_unique .. |].
    intros [p h]. rewrite !key_in_lookup by assumption. now rewrite Hsame. }
  unfold sorted_keys.
  apply (Sorted_unique_strong key_le).
  - intros [p1 h1] [p2 h2] Hin1 Hin2 Hle Hge.
    assert (p1 = p2) by (apply StrOrdFacts.le_antisym; assumption). subst p2.
    rewrite (merge_sort_Permutation key_le) in Hin1, Hin2.
    rewrite <- Hperm in Hin2.
    apply key_in_lookup in Hin1, Hin2; try assumption. congruence.
  - apply Sorted_merge_sort, _.
  - apply Sorted_merge_sort, _.
  - now rewrite !(merge_sort_Permutation key_le).
Qed.

Lemma rootHash_same_entries (digest : string -> string) (t1 t2 : Tree) :
  unique_paths t1 -> unique_paths t2 -> same_entry_set t1 t2 ->
  rootHash digest t1 = rootHash digest t2.
Proof.
  intros H1 H2 Hs. unfold rootHash. now rewrite (sorted_keys_same t1 t2).
Qed.

(** C1.  Two trees built by insertions, on any devices and in any order,
    that end with the same entry set by (path, contentHash) have the same
    root hash, for every digest function. *)
Theorem rootHash_insertion_order_independent
    (digest : string -> string) (dev1 dev2 : string)
    (ops1 ops2 : list (string * string * Metadata)) :
  same_entry_set (build dev1 ops1) (build dev2 ops2) ->
  rootHash digest (build dev1 ops1) = rootHash digest (build dev2 ops2).
Proof.
  intros Hsame. apply rootHash_same_entries; auto using build_unique.
Qed.

Example orders_differ :
  path <$> entries (build "X" ops_X) = ["a.txt"; "b.txt"]
  /\ path <$> entries (build "Y" ops_Y) = ["b.txt"; "a.txt"]
  /\ sorted_keys (build "Y" ops_Y) = [("a.txt", "h1"); ("b.txt", "h3")].
Proof. repeat split; vm_compute; reflexivity. Qed.

(** The theorem at the two example devices, with the identity as digest. *)
Lemma rootHash_insertion_order_independent_witness :
  rootHash (fun s => s) (build "X" ops_X) = rootHash (fun s => s) (build "Y" ops_Y).
Proof.
  apply rootHash_insertion_order_independent.
  intros p. unfold lookup.
  let eX := eval vm_compute in (entries (build "X" ops_X)) in
  change (entries (build "X" ops_X)) with eX.
  let eY := eval vm_compute in (entries (build "Y" ops_Y)) in
  change (entries (build "Y" ops_Y)) with eY.
  cbn -[String.eqb].
  destruct (String.eqb "a.txt" p) eqn:Ea, (String.eqb "b.txt" p) eqn:Eb;
    try reflexivity.
  apply String.eqb_eq in Ea, Eb. congruence.
Defined.

(** *** Insertion order as a permutation *)

Lemma lookup_put (p : string) (e : FileEntry) (es : list FileEntry) :
  List.find (fun x => String.eqb (path x) p) (put e es)
  = if String.eqb (path e) p then Some e
    else List.find (fun x => String.eqb (path x) p) es.
Proof.
  induction es as [|x r IH]; cbn; [reflexivity |].
  destruct (String.eqb_spec (path x) (path e)) as [Hxe | Hxe]; cbn.
  - rewrite Hxe. now destruct (String.eqb (path e) p).
  - rewrite IH.
    destruct (String.eqb_spec (path x) p) as [Hxp | Hxp];
      destruct (String.eqb_spec (path e) p) as [Hep | Hep]; congruence.
Qed.

Lemma find_app {A} (f : A -> bool) (l1 l2 : list A) :
  List.find f (l1 ++ l2)
  = match List.find f l1 with Some x => Some x | None => List.find f l2 end.
Proof.
  induction l1 as [|x l1 IH]; cbn; [reflexivity |]. now destruct (f x).
Qed.

(** The hash the last insertion at [p] has left, if there was one. *)
Lemma lookup_build_from (p : string) (ops : list (string * string * Metadata)) (t : Tree) :
  contentHash <$> lookup p (fold_left (fun t op => upsert op.1.1 op.1.2 op.2 t) ops t)
  = match List.find (fun op => String.eqb op.1.1 p) (rev ops) with
    | Some op => Some op.1.2
    | None => contentHash <$> lookup p t
    end.
Proof.
  revert t. induction ops as [|op ops IH]; intros t; cbn; [reflexivity |].
  rewrite IH, find_app. destruct (List.find _ (rev ops)); [reflexivity |].
  unfold lookup, upsert. cbn. rewrite lookup_put. cbn.
  now destruct (String.eqb op.1.1 p).
Qed.

Lemma find_unique_key {A} (k : A -> string) (p : string) (l1 l2 : list A) :
  NoDup (k <$> l1) -> l1 ≡ₚ l2 ->
  List.find (fun x => String.eqb (k x) p) l1 = List.find (fun x => String.eqb (k x) p) l2.
Proof.
  intros Hnd Hperm.
  destruct (List.find _ l2) as [y|] eqn:E2.
  - apply find_some in E2 as [Hy Hky]. apply String.eqb_eq in Hky.
    assert (Hy1 : In y l1).
    { apply list_elem_of_In. rewrite Hperm. now apply list_elem_of_In. }
    clear Hperm Hy. induction l1 as [|x l1 IH]; [destruct Hy1 |].
    cbn in *. apply NoDup_cons in Hnd as [Hx Hnd].
    destruct Hy1 as [-> | Hin].
    + apply String.eqb_eq in Hky. now rewrite Hky.
    + destruct (String.eqb_spec (k x) p) as [Hkx | _]; [| now apply IH].
      exfalso. apply Hx. rewrite Hkx, <- Hky.
      apply list_elem_of_fmap. exists y. split; [reflexivity |].
      now apply list_elem_of_In.
  - destruct (List.find _ l1) as [x|] eqn:E1; [| reflexivity].
    apply find_some in E1 as [Hx Hkx].
    assert (Hx2 : In x l2).
    { apply list_elem_of_In. rewrite <- Hperm. now apply list_elem_of_In. }
    now rewrite (find_none _ _ E2 x Hx2) in Hkx.
Qed.

(** The determinism property of the design document: for insertions at
    distinct paths, the root hash is invariant under permutation of the
    insertion order. *)
Lemma rootHash_permutation_invariant
    (digest : string -> string) (dev1 dev2 : string)
    (ops1 ops2 : list (string * string * Metadata)) :
  NoDup ((fun op => op.1.1) <$> ops1) -> ops1 ≡ₚ ops2 ->
  rootHash digest (build dev1 ops1) = rootHash digest (build dev2 ops2).
Proof.
  intros Hnd Hperm. apply rootHash_same_entries; auto using build_unique.
  intros p. unfold build. rewrite !lookup_build_from. cbn.
  assert (Hrev : forall l : list (string * string * Metadata), rev l = reverse l)
    by (intros l; unfold reverse; apply rev_alt).
  rewrite !Hrev.
  rewrite (find_unique_key (fun op => op.1.1) p (reverse ops1) (reverse ops2)).
  - reflexivity.
  - rewrite fmap_reverse, reverse_Permutation. exact Hnd.
  - now rewrite !reverse_Permutation.
Qed.

(** *** Removal in the tree of the design document *)

Lemma lookup_filter_out (p : string) (es : list FileEntry) :
  List.find (fun e => String.eqb (path e) p)
    (List.filter (fun e => negb (String.eqb (path e) p)) es) = None.
Proof.
  induction es as [|x r IH]; cbn; [reflexivity |].
  destruct (String.eqb (path x) p) eqn:E; cbn; [exact IH |]. now rewrite E.
Qed.

(** In the tree the design document describes, removal is silent on an
    absent path and idempotent. *)
Lemma remove_idempotent (p : string) (t : Tree) :
  (lookup p t = None -> remove p t = t)
  /\ remove p (remove p t) = remove p t.
Proof.
  split.
  - intros H. unfold remove. now rewrite H.
  - destruct (lookup p t) as [e|] eqn:E.
    + assert (Hr : remove p t
                   = mkTree (deviceId t)
                       (List.filter (fun e => negb (String.eqb (path e) p)) (entries t))
                       (version t + 1))
        by (unfold remove; now rewrite E).
      rewrite Hr. unfold remove, lookup. cbn. now rewrite lookup_filter_out.
    + assert (Hr : remove p t = t) by (unfold remove; now rewrite E).
      now rewrite !Hr.
Qed.

(** *** The recombination ends with one hash *)

Lemma level_length (digest : string -> string) (n : nat) :
  forall hs, (length hs <= n)%nat ->
    (length (level digest hs) <= length hs)%nat
    /\ (2 <= length hs -> length (level digest hs) < length hs)%nat.
Proof.
  induction n as [|n IH]; intros hs Hn.
  - destruct hs; cbn in *; lia.
  - destruct hs as [|a [|b rest]]; cbn in *; try lia.
    destruct (IH rest ltac:(lia)) as [Hle _]. lia.
Qed.

Lemma level_short (digest : string -> string) (hs : list string) :
  (length hs <= 1)%nat -> level digest hs = hs.
Proof. destruct hs as [|a [|b rest]]; cbn; [reflexivity .. | lia]. Qed.

Lemma climb_length (digest : string -> string) (n : nat) :
  forall hs, (length hs <= S n)%nat -> (length (climb digest n hs) <= 1)%nat.
Proof.
  induction n as [|n IH]; intros hs Hn; cbn; [exact Hn |].
  apply IH.
  destruct (le_lt_dec (length hs) 1) as [Hs | Hl].
  - rewrite level_short by exact Hs. lia.
  - destruct (level_length digest (length hs) hs (le_n _)) as [_ Hlt].
    specialize (Hlt ltac:(lia)). lia.
Qed.

(** The rounds [merkleRoot] allows are enough: what is left is the one root,
    or nothing for the empty tree. *)
Lemma merkleRoot_total (digest : string -> string) (leaves : list string) :
  (length (climb digest (length leaves) leaves) <= 1)%nat.
Proof. apply climb_length. lia. Qed.

End HashTreeFacts.

(** ** Promises *)

Module JsFacts.
Import Js.

(** [try { ... } catch (e) { return f e }] never rejects. *)
Lemma try_catch_ret_resolves {S E A} (m : Async S E A) (f : E -> A) (s : S) :
  exists a, fst (try_catch m (fun e => ret (f e)) s) = Resolved a.
Proof.
  unfold try_catch, ret. destruct (m s) as [[a | e] s']; cbn; eauto.
Qed.

End JsFacts.

(** ** The routes of the server *)

Module ServerFacts.
Import Js Server ServerSpec.

(** Unfolding of the routes down to the calls they make. *)
Ltac unfold_routes :=
  unfold post_upload, post_upload_v1, get_download, delete_file, upload_handler,
    upload_handler_v1, upload_single, generateS3Url, generateMinioKey,
    presignedGetObject, putObject, removeObject, select_by_hash, select_by_id,
    select_by_path, update_local_url, update_status,
    update_where_id, insert_file, external, draw, try_catch, bind, ret, modify,
    get, throw in *.

(** Case analysis on whether the collaborator fails at the next call. *)
Ltac next_call :=
  match goal with
  | |- context [outage ?w ?n] => destruct (outage w n) eqn:?; cbn [fst snd]
  end.

Lemma map_key_set_local_url (u fileId : string) (t : N) (rows : list FileRow) :
  minio_key <$> List.map (fun r => if String.eqb (id r) fileId
                                then set_local_url u t r else r) rows
  = minio_key <$> rows.
Proof.
  induction rows as [|r rows IH]; [reflexivity |].
  cbn [List.map fmap list_fmap]. f_equal.
  - now destruct (String.eqb (id r) fileId).
  - exact IH.
Qed.

(** Closing a branch: the calls made extend the old ones, the keys of the
    table are those it had. *)
Ltac settle :=
  cbn; repeat split; try easy;
  try (eexists; split; [rewrite <- ?app_assoc; reflexivity | reflexivity]);
  try apply map_key_set_local_url; auto.

(** C3.  When the user already has an active record whose hash is that of
    the uploaded content, [POST /upload] puts nothing into the bucket and
    adds no record, and its answer, unless a call failed, is the existing
    record with a URL for that record's own storage key. *)
Theorem upload_same_content_reuses_key
    (lib : NodeLib) (BUCKET_NAME : string) (env : ProcessEnv)
    (req : UploadRequest) (part : FilePart) (w : World) (r0 : FileRow) :
  req_part req = Some part ->
  In r0 (files w) ->
  user_id r0 = req_user_id req ->
  file_hash r0 = sha256_hex lib (part_content part) ->
  status r0 = "active" ->
  let out := post_upload lib BUCKET_NAME env req w in
  bucket (snd out) = bucket w
  /\ (exists cs, calls (snd out) = (calls w ++ cs)%list
                 /\ forallb (fun c => negb (is_put c)) cs = true)
  /\ minio_key <$> files (snd out) = minio_key <$> files w
  /\ (is_error (fst out) = false ->
      exists r, In r (files w)
                /\ user_id r = req_user_id req
                /\ file_hash r = sha256_hex lib (part_content part)
                /\ status r = "active"
                /\ (j_id <$> response_file (fst out)) = Some (id r)
                /\ response_key (fst out) = Some (minio_key r)).
Proof.
  intros Hpart Hin Huid Hhash Hact out. subst out.
  unfold post_upload, upload_single. rewrite Hpart.
  destruct (fileSize_limit <? byteLength (part_content part)).
  { cbn. repeat split; try easy. exists []. now rewrite app_nil_r. }
  set (matching := List.filter (fun r => String.eqb (user_id r) (req_user_id req)
       && String.eqb (file_hash r) (sha256_hex lib (part_content part))
       && String.eqb (status r) "active") (files w)).
  assert (Hr0 : In r0 matching).
  { apply filter_In. split; [exact Hin |].
    rewrite Huid, Hhash, Hact, !String.eqb_refl. reflexivity. }
  unfold_routes. cbn [buffer originalname mimetype size calculateFileHash].
  unfold calculateFileHash. cbn [buffer].
  next_call.
  { cbn. repeat split; try easy. now exists [DbSelect]. }
  cbn [files with_calls]. fold matching.
  destruct matching as [|fr rest] eqn:Em; [destruct Hr0 |].
  assert (Hfr : In fr (files w) /\ user_id fr = req_user_id req
                /\ file_hash fr = sha256_hex lib (part_content part)
                /\ status fr = "active").
  { assert (Hm : In fr (fr :: rest)) by now left.
    rewrite <- Em in Hm. apply filter_In in Hm as [Hfin Hb].
    apply andb_prop in Hb as [Hb Hs]. apply andb_prop in Hb as [Hu Hh].
    apply String.eqb_eq in Hu, Hh, Hs. auto. }
  destruct Hfr as (Hfin & Hfu & Hfh & Hfs).
  assert (Hans : exists r, In r (files w)
                /\ user_id r = req_user_id req
                /\ file_hash r = sha256_hex lib (part_content part)
                /\ status r = "active"
                /\ Some (id fr) = Some (id r)
                /\ Some (minio_key fr) = Some (minio_key r)).
  { exists fr. repeat split; auto. }
  destruct (local_url_differs (body_localUrl req) fr) eqn:Ed.
  - destruct (body_localUrl req) as [u|] eqn:El; [| discriminate Ed].
    cbn. next_call; [solve [settle] |].
    cbn. next_call; settle.
  - cbn. next_call; settle.
Qed.

(** The world the first example upload leaves: one object, one record. *)
Example world_after_hello_files :
  List.map (fun r => (id r, user_id r, file_path r, minio_key r, status r))
    (files world_after_hello)
  = [("uuid-1", "u1", "docs/a.txt", "users/u1/files/uuid-0/a.txt", "active")].
Proof. vm_compute. reflexivity. Qed.

Example world_after_hello_answer :
  fst (example_post hello_request (fresh_world 1000))
  = Json 201
      (UploadBody "File uploaded successfully"
         {| j_id := "uuid-1"; j_filename := "a.txt"; j_filePath := "docs/a.txt";
            j_fileSize := 5; j_fileHash := "sha256:hello";
            j_mimeType := "text/plain";
            j_localUrl := Some "/home/x/sync/docs/a.txt";
            j_s3Url := Some (PresignedUrl "filesync-bucket"
                               "users/u1/files/uuid-0/a.txt" 3600 1000);
            j_createdAt := 1000 |}).
Proof. vm_compute. reflexivity. Qed.

Example world_after_hello_record : files world_after_hello = [hello_record].
Proof. vm_compute. reflexivity. Qed.

(** The theorem at the second example upload: the same content from another
    device, after the first upload. *)
Lemma upload_same_content_reuses_key_witness :
  let out := example_post hello_again_request world_after_hello in
  bucket (snd out) = bucket world_after_hello
  /\ minio_key <$> files (snd out) = minio_key <$> files world_after_hello
  /\ response_key (fst out) = Some (minio_key hello_record).
Proof.
  intros out.
  destruct (upload_same_content_reuses_key example_lib example_bucket
              example_env hello_again_request
              {| part_filename := "copy.txt"; part_mimetype := "text/plain";
                 part_content := Buffer_from "hello" |}
              world_after_hello hello_record)
    as (Hbucket & _ & Hkeys & _).
  - reflexivity.
  - rewrite world_after_hello_record. now left.
  - reflexivity.
  - vm_compute. reflexivity.
  - reflexivity.
  - split; [exact Hbucket |]. split; [exact Hkeys |]. vm_compute. reflexivity.
Defined.

(** The handler catches whatever it awaits: it always resolves. *)
Lemma upload_handler_resolves
    (lib : NodeLib) (BUCKET_NAME : string) (env : ProcessEnv)
    (uid : string) (file : option MulterFile) (dir lurl : option string)
    (w : World) :
  exists r, fst (upload_handler lib BUCKET_NAME env uid file dir lurl w) = Resolved r.
Proof. unfold upload_handler. apply JsFacts.try_catch_ret_resolves. Qed.

(** The handler of the upload never hands a multer error to [next]. *)
Lemma upload_handler_not_multer
    (lib : NodeLib) (BUCKET_NAME : string) (env : ProcessEnv)
    (uid : string) (file : option MulterFile) (dir lurl : option string)
    (w : World) (code : string) :
  fst (upload_handler lib BUCKET_NAME env uid file dir lurl w)
  <> Resolved (Next (MulterError code)).
Proof.
  unfold_routes. destruct file as [f|]; [| cbn; congruence].
  next_call; [cbn; congruence |].
  cbn [files with_calls].
  match goal with |- context [List.filter ?p ?l] => destruct (List.filter p l) as [|fr rest] end.
  - cbn. next_call; [cbn; congruence |]. cbn.
    next_call; cbn; (next_call; [cbn; congruence |]); cbn;
      match goal with |- context [existsb ?p ?l] => destruct (existsb p l) end;
      cbn; congruence.
  - destruct (local_url_differs lurl fr).
    + destruct lurl as [u|]; cbn.
      * next_call; [cbn; congruence |]. cbn. next_call; cbn; congruence.
      * next_call; cbn; congruence.
    + cbn. next_call; cbn; congruence.
Qed.

(** C10.  A part of more than 100 * 1024 * 1024 bytes is answered with
    multer's [LIMIT_FILE_SIZE] error and leaves the world as it was: nothing
    is put into the bucket, no record is inserted, no call is made.  A part
    of that size or less is never answered with a multer error. *)
Theorem upload_size_limit
    (lib : NodeLib) (BUCKET_NAME : string) (env : ProcessEnv)
    (req : UploadRequest) (part : FilePart) (w : World) :
  req_part req = Some part ->
  fileSize_limit = 100 * 1024 * 1024
  /\ (fileSize_limit < byteLength (part_content part) ->
      post_upload lib BUCKET_NAME env req w
      = (Next (MulterError "LIMIT_FILE_SIZE"), w))
  /\ (byteLength (part_content part) <= fileSize_limit ->
      forall code,
        fst (post_upload lib BUCKET_NAME env req w) <> Next (MulterError code)).
Proof.
  intros Hpart. split; [reflexivity |].
  unfold post_upload, upload_single. rewrite Hpart. split.
  - intros Hbig. apply N.ltb_lt in Hbig. now rewrite Hbig.
  - intros Hsmall code.
    assert (Hs : (fileSize_limit <? byteLength (part_content part)) = false)
      by now apply N.ltb_ge.
    rewrite Hs.
    set (file := Some _).
    pose proof (upload_handler_not_multer lib BUCKET_NAME env (req_user_id req)
                  file (body_filePath req) (body_localUrl req) w code) as Hno.
    destruct (upload_handler_resolves lib BUCKET_NAME env (req_user_id req)
                file (body_filePath req) (body_localUrl req) w) as [r Hr].
    destruct (upload_handler lib BUCKET_NAME env (req_user_id req) file
                (body_filePath req) (body_localUrl req) w) as [[r' | e'] w'];
      cbn in *; congruence.
Qed.

(** The theorem at a part of one byte more than the limit, and at a part of
    five bytes. *)
Lemma upload_size_limit_witness :
  example_post oversized_request (fresh_world 0)
  = (Next (MulterError "LIMIT_FILE_SIZE"), fresh_world 0)
  /\ forall code,
       fst (example_post hello_request (fresh_world 0)) <> Next (MulterError code).
Proof.
  split.
  - apply (upload_size_limit example_lib example_bucket example_env
             oversized_request _ (fresh_world 0) eq_refl).
    reflexivity.
  - apply (upload_size_limit example_lib example_bucket example_env
             hello_request _ (fresh_world 0) eq_refl).
    cbn. discriminate.
Defined.

(** The first example upload, at time 1000: the record it inserts holds the
    presigned URL, which expires at 4600, and the answer carries that stored
    URL. *)
Example upload_persists_expiring_url :
  let out := example_post hello_request (fresh_world 1000) in
  exists (r : FileRow) (u : Url),
    files (snd out) = [r]
    /\ s3_url r = Some u
    /\ u = PresignedUrl "filesync-bucket" (minio_key r) (60 * 60) 1000
    /\ url_expires_at u = Some 4600
    /\ (j_s3Url <$> response_file (fst out)) = Some (Some u)
    /\ ~ no_expiring_url_stored (snd out).
Proof.
  intros out. exists hello_record. eexists.
  split; [vm_compute; reflexivity |].
  split; [reflexivity |].
  split; [reflexivity |].
  split; [reflexivity |].
  split; [vm_compute; reflexivity |].
  intros Hno.
  specialize (Hno hello_record _ ltac:(vm_compute; left; reflexivity) eq_refl).
  discriminate Hno.
Qed.


(** *** Deleting *)

Lemma select_absent (uid fileId : string) (w : World) :
  absent uid fileId w ->
  List.filter (fun r => String.eqb (id r) fileId && String.eqb (user_id r) uid
                        && String.eqb (status r) "active") (files w) = [].
Proof.
  intros Habs.
  destruct (List.filter _ (files w)) as [|r rest] eqn:Ef; [reflexivity |].
  assert (Hin : In r (r :: rest)) by now left.
  rewrite <- Ef in Hin. apply filter_In in Hin as [Hin Hb].
  apply andb_prop in Hb as [Hb Hs]. apply andb_prop in Hb as [Hi Hu].
  apply String.eqb_eq in Hi, Hu, Hs. destruct (Habs r Hin). auto.
Qed.

Lemma select_first (uid fileId : string) (w : World) (r : FileRow) (rest : list FileRow) :
  List.filter (fun r => String.eqb (id r) fileId && String.eqb (user_id r) uid
                        && String.eqb (status r) "active") (files w) = r :: rest ->
  In r (files w) /\ id r = fileId /\ user_id r = uid /\ status r = "active".
Proof.
  intros Ef. assert (Hin : In r (r :: rest)) by now left.
  rewrite <- Ef in Hin. apply filter_In in Hin as [Hin Hb].
  apply andb_prop in Hb as [Hb Hs]. apply andb_prop in Hb as [Hi Hu].
  apply String.eqb_eq in Hi, Hu, Hs. auto.
Qed.

(** Deleting what is not there: an error, and nothing changes. *)
Lemma delete_absent (uid fileId : string) (w : World) :
  absent uid fileId w ->
  let out := delete_file uid fileId w in
  is_error (fst out) = true
  /\ files (snd out) = files w /\ bucket (snd out) = bucket w
  /\ (outage w (length (calls w)) = false ->
      fst out = Json 404 (ErrorBody "File not found")).
Proof.
  intros Habs. unfold_routes. next_call; [cbn; intuition congruence |].
  cbn [files with_calls]. rewrite (select_absent _ _ _ Habs). cbn. auto.
Qed.

(** After an answer without error the record is no longer active. *)
Lemma delete_done (uid fileId : string) (w : World) :
  let out := delete_file uid fileId w in
  is_error (fst out) = false ->
  (forall r, In r (files (snd out)) -> id r = fileId -> status r = "deleted")
  /\ absent uid fileId (snd out).
Proof.
  unfold_routes. next_call; [cbn; discriminate |].
  cbn [files with_calls].
  match goal with |- context [List.filter ?q ?l] => destruct (List.filter q l) as [|fr rest] end;
    [cbn; discriminate |].
  cbn. next_call; [cbn; discriminate |]. cbn. next_call; [cbn; discriminate |].
  cbn. intros _.
  assert (Hall : forall r,
    In r (List.map (fun r0 => if String.eqb (id r0) fileId
                              then set_status "deleted" (now w) r0 else r0) (files w)) ->
    id r = fileId -> status r = "deleted").
  { intros r Hin Hid. apply in_map_iff in Hin as (r0 & <- & _).
    destruct (String.eqb_spec (id r0) fileId) as [_ | Hne]; [reflexivity |].
    contradiction. }
  split; [exact Hall |].
  intros r Hin (Hid & _ & Hact). rewrite (Hall r Hin Hid) in Hact. discriminate.
Qed.

(** The table after the upload by [alice]. *)
Lemma world_of_alice_files : files world_of_alice = [record_of_alice].
Proof. vm_compute. reflexivity. Qed.

(** Deleting what is there: when the database and MinIO answer, the object
    of the record found is removed, every record with the identifier is
    marked deleted at the time of the request, and the answer is 200. *)
Lemma delete_present (uid fileId : string) (w : World) (fr : FileRow) (rest : list FileRow) :
  List.filter (fun r => String.eqb (id r) fileId && String.eqb (user_id r) uid
                        && String.eqb (status r) "active") (files w) = fr :: rest ->
  (forall k, (k < 3)%nat -> outage w (length (calls w) + k) = false) ->
  let out := delete_file uid fileId w in
  fst out = Json 200 (MessageBody "File deleted successfully")
  /\ files (snd out)
     = List.map (fun r => if String.eqb (id r) fileId
                          then set_status "deleted" (now w) r else r) (files w)
  /\ bucket (snd out) = delete (minio_key fr) (bucket w).
Proof.
  intros Hsel Hcalm.
  assert (H0 := Hcalm 0%nat ltac:(lia)).
  assert (H1 := Hcalm 1%nat ltac:(lia)).
  assert (H2 := Hcalm 2%nat ltac:(lia)).
  rewrite Nat.add_0_r in H0.
  unfold_routes. rewrite H0. cbn [files with_calls]. rewrite Hsel. cbn.
  rewrite !length_app. cbn [length]. rewrite H1. cbn.
  rewrite !length_app. cbn [length]. rewrite <- Nat.add_assoc. cbn [Nat.add].
  rewrite H2. cbn. auto.
Qed.

(** C6 (amended).  [DELETE /:fileId] marks the user's active record deleted:
    when the user has an active record with the identifier and the database
    and MinIO answer, the object of that record is removed from the bucket,
    every record with the identifier gets the status [deleted] and the time
    of the request, and the answer is 200.  On an identifier with no active
    record of the user the route answers with an error (404 "File not found"
    when the database answers; an identifier that is no UUID is refused by
    the database, and the error goes to [next]) and changes neither the table
    nor the bucket.  After an answer without error the record is no longer
    active, so deleting again is answered with an error and leaves table and
    bucket as the first deletion left them. *)
Theorem delete_absent_is_error_and_repeat_is_noop (uid fileId : string) (w : World) :
  let out := delete_file uid fileId w in
  (forall fr rest,
     List.filter (fun r => String.eqb (id r) fileId && String.eqb (user_id r) uid
                           && String.eqb (status r) "active") (files w) = fr :: rest ->
     (forall k, (k < 3)%nat -> outage w (length (calls w) + k) = false) ->
     fst out = Json 200 (MessageBody "File deleted successfully")
     /\ files (snd out)
        = List.map (fun r => if String.eqb (id r) fileId
                             then set_status "deleted" (now w) r else r) (files w)
     /\ bucket (snd out) = delete (minio_key fr) (bucket w))
  /\ (absent uid fileId w ->
     is_error (fst out) = true
     /\ files (snd out) = files w /\ bucket (snd out) = bucket w
     /\ (outage w (length (calls w)) = false ->
         fst out = Json 404 (ErrorBody "File not found")))
  /\ (is_error (fst out) = false ->
     absent uid fileId (snd out)
     /\ let again := delete_file uid fileId (snd out) in
        is_error (fst again) = true
        /\ files (snd again) = files (snd out)
        /\ bucket (snd again) = bucket (snd out)).
Proof.
  intros out. split; [| split].
  - intros fr rest Hsel Hcalm. now apply (delete_present uid fileId w fr rest).
  - intros Habs. now apply delete_absent.
  - intros Hok. destruct (delete_done uid fileId w Hok) as [_ Habs].
    split; [exact Habs |].
    destruct (delete_absent uid fileId (snd out) Habs) as (He & Hf & Hb & _).
    auto.
Qed.

(** The theorem at the record of [alice]: the first deletion is answered
    200 and marks the record, the deletion of an identifier that was never
    there is answered 404, and the second deletion of the record is an error
    that changes nothing. *)
Lemma delete_absent_is_error_and_repeat_is_noop_witness :
  let first := delete_file alice (uuid_of 1) world_of_alice in
  (fst first = Json 200 (MessageBody "File deleted successfully")
   /\ files (snd first) = [set_status "deleted" 1000 record_of_alice]
   /\ bucket (snd first) = ∅)
  /\ fst (delete_file alice (uuid_of 7) world_of_alice)
     = Json 404 (ErrorBody "File not found")
  /\ (is_error (fst (delete_file alice (uuid_of 1) (snd first))) = true
      /\ files (snd (delete_file alice (uuid_of 1) (snd first))) = files (snd first)).
Proof.
  intros first. subst first.
  destruct (delete_absent_is_error_and_repeat_is_noop alice (uuid_of 1) world_of_alice)
    as (Hthere & _ & Hagain).
  destruct (delete_absent_is_error_and_repeat_is_noop alice (uuid_of 7) world_of_alice)
    as (_ & Habsent & _).
  split; [| split].
  - destruct (Hthere record_of_alice []) as (Ha & Hf & Hb).
    + vm_compute. reflexivity.
    + intros k Hk. reflexivity.
    + split; [exact Ha |]. split.
      * rewrite Hf, world_of_alice_files. reflexivity.
      * rewrite Hb. vm_compute. reflexivity.
  - apply Habsent.
    + intros r Hin (Hid & _). rewrite world_of_alice_files in Hin.
      destruct Hin as [<- | []]. discriminate Hid.
    + reflexivity.
  - destruct Hagain as (_ & He & Hf & _).
    + vm_compute. reflexivity.
    + split; [exact He | exact Hf].
Defined.

(** C6, as stated, fails: deleting an identifier that is absent is answered
    with an error. *)
Lemma delete_absent_not_silent :
  ~ delete_silent_when_absent alice (uuid_of 7) (uuid_world 0).
Proof.
  intros H.
  assert (Habs : absent alice (uuid_of 7) (uuid_world 0)) by (intros r []).
  specialize (H Habs). vm_compute in H. discriminate H.
Qed.

Example delete_absent_answer :
  fst (delete_file alice (uuid_of 7) (uuid_world 0))
  = Json 404 (ErrorBody "File not found").
Proof. reflexivity. Qed.

(** A second deletion of the same record is answered 404. *)
Example delete_twice_answer :
  fst (delete_file alice (uuid_of 1) world_of_alice)
  = Json 200 (MessageBody "File deleted successfully")
  /\ fst (delete_file alice (uuid_of 1)
            (snd (delete_file alice (uuid_of 1) world_of_alice)))
     = Json 404 (ErrorBody "File not found").
Proof. split; vm_compute; reflexivity. Qed.

(** C8 (amended).  [DELETE /:fileId] answers without error only after it has
    removed from the bucket the object under the key of the record it
    deletes, whether or not other records have the same hash; an object under
    a key that no active record of the user with this identifier has stays
    as it was. *)
Theorem delete_removes_own_object_only (uid fileId : string) (w : World) :
  let out := delete_file uid fileId w in
  (is_error (fst out) = false ->
     exists r, In r (files w) /\ id r = fileId /\ user_id r = uid
               /\ status r = "active"
               /\ bucket (snd out) = delete (minio_key r) (bucket w))
  /\ (forall k,
        (forall r, In r (files w) -> id r = fileId -> user_id r = uid ->
                   status r = "active" -> minio_key r <> k) ->
        bucket (snd out) !! k = bucket w !! k).
Proof.
  unfold_routes. next_call; [cbn; split; [discriminate | reflexivity] |].
  cbn [files with_calls].
  destruct (List.filter _ (files w)) as [|fr rest] eqn:Ef;
    [cbn; split; [discriminate | reflexivity] |].
  apply select_first in Ef as (Hin & Hid & Hu & Hs).
  cbn. next_call; [cbn; split; [discriminate | reflexivity] |].
  cbn. next_call; cbn.
  - split; [discriminate |]. intros k Hk.
    apply lookup_delete_ne. now apply Hk.
  - split.
    + intros _. exists fr. auto.
    + intros k Hk. apply lookup_delete_ne. now apply Hk.
Qed.

(** The theorem at the deletion of the first example upload. *)
Lemma delete_removes_own_object_only_witness :
  bucket world_after_hello_deleted
  = delete "users/u1/files/uuid-0/a.txt" (bucket world_after_hello)
  /\ bucket world_after_hello_deleted !! "users/u2/files/uuid-2/b.txt"
     = bucket world_after_hello !! "users/u2/files/uuid-2/b.txt".
Proof.
  destruct (delete_removes_own_object_only "u1" "uuid-1" world_after_hello)
    as [Hown Hother].
  split.
  - destruct (Hown eq_refl) as (r & Hin & _ & _ & _ & Hb).
    rewrite world_after_hello_record in Hin. destruct Hin as [<- | []].
    exact Hb.
  - apply Hother. intros r Hin _ _ _.
    rewrite world_after_hello_record in Hin. destruct Hin as [<- | []].
    discriminate.
Defined.

(** The world in which two users have uploaded the same content: two
    records with one hash, each with an object of its own. *)
Example world_with_two_owners_files :
  List.map (fun r => (id r, user_id r, file_hash r, minio_key r, status r))
    (files world_with_two_owners)
  = [("uuid-1", "u1", "sha256:hello", "users/u1/files/uuid-0/a.txt", "active");
     ("uuid-3", "u2", "sha256:hello", "users/u2/files/uuid-2/b.txt", "active")].
Proof. vm_compute. reflexivity. Qed.

(** C8, as stated, fails: [u1]'s deletion removes the object of its record
    although [u2]'s record still has that content hash. *)
Lemma delete_removes_object_while_hash_referenced :
  ~ object_kept_while_referenced "u1" "uuid-1" world_with_two_owners.
Proof.
  intros H.
  specialize (H hello_record ltac:(vm_compute; left; reflexivity)
                eq_refl eq_refl eq_refl).
  cbv zeta in H.
  assert (Href : exists r',
            In r' (files (snd (delete_file "u1" "uuid-1" world_with_two_owners)))
            /\ status r' = "active" /\ file_hash r' = file_hash hello_record).
  { eexists. split; [vm_compute; right; left; reflexivity |]. split; reflexivity. }
  specialize (H Href). vm_compute in H. discriminate H.
Qed.

(** *** Uploading the same content again *)

Lemma filter_map_invariant {A} (p : A -> bool) (g : A -> A) (l : list A) :
  (forall x, p (g x) = p x) ->
  List.filter p (List.map g l) = List.map g (List.filter p l).
Proof.
  intros Hp. induction l as [|x l IH]; [reflexivity |].
  cbn. rewrite Hp. destruct (p x); cbn; now rewrite IH.
Qed.

Lemma url_key_generateS3Url
    (BUCKET_NAME : string) (env : ProcessEnv) (key : string) (w : World) :
  exists u, fst (generateS3Url BUCKET_NAME env key w) = Resolved u /\ url_key u = key
            /\ files (snd (generateS3Url BUCKET_NAME env key w)) = files w.
Proof.
  unfold_routes. next_call; cbn; eauto.
Qed.

(** An upload answered without error leaves an active record with the hash
    of the content, the answer's URL is for that record's key, and the key is
    the one of the record the duplicate check found, if it found one. *)
Lemma upload_answer_key
    (lib : NodeLib) (BUCKET_NAME : string) (env : ProcessEnv)
    (req : UploadRequest) (part : FilePart) (w : World) :
  req_part req = Some part ->
  let uid := req_user_id req in
  let hash := sha256_hex lib (part_content part) in
  let out := post_upload lib BUCKET_NAME env req w in
  is_error (fst out) = false ->
  exists r', first_match uid hash (snd out) = Some r'
             /\ response_key (fst out) = Some (minio_key r')
             /\ (forall r, first_match uid hash w = Some r ->
                           minio_key r' = minio_key r).
Proof.
  intros Hpart uid hash. unfold post_upload, upload_single, first_match.
  rewrite Hpart.
  destruct (fileSize_limit <? byteLength (part_content part)); [discriminate |].
  unfold_routes. unfold calculateFileHash. cbn [buffer originalname mimetype size].
  fold uid hash.
  next_call; [cbn; discriminate |].
  cbn [files with_calls].
  set (p := fun r => String.eqb (user_id r) uid && String.eqb (file_hash r) hash
                     && String.eqb (status r) "active").
  destruct (List.filter p (files w)) as [|fr rest] eqn:Ef.
  - cbn. next_call; [cbn; discriminate |]. cbn.
    next_call; cbn; (next_call; [cbn; discriminate |]); cbn;
      match goal with |- context [existsb ?q ?l] => destruct (existsb q l) end;
      cbn; try discriminate; intros _;
      rewrite List.filter_app, Ef; unfold p; cbn;
      rewrite !String.eqb_refl; cbn; eexists; repeat split; discriminate.
  - destruct (local_url_differs (body_localUrl req) fr) eqn:Ed.
    + destruct (body_localUrl req) as [u|]; [| discriminate Ed].
      cbn. next_call; [cbn; discriminate |]. cbn.
      assert (Hf : List.filter p
                (List.map (fun r => if String.eqb (id r) (id fr)
                                    then set_local_url u (now w) r else r) (files w))
              = List.map (fun r => if String.eqb (id r) (id fr)
                                   then set_local_url u (now w) r else r)
                  (fr :: rest)).
      { rewrite <- Ef. apply filter_map_invariant.
        intros x. now destruct (String.eqb (id x) (id fr)). }
      next_call; cbn; intros _; rewrite Hf; cbn; rewrite String.eqb_refl;
        eexists; repeat split; intros r [= <-]; reflexivity.
    + cbn. next_call; cbn; intros _; rewrite Ef; cbn;
        eexists; repeat split; intros r [= <-]; reflexivity.
Qed.

(** C7 (amended).  An upload answered without error leaves an active record
    of the user with the hash of the content, and is answered with that
    record's storage key.  As long as that record is the user's active record
    for the hash, every further upload of content with this hash by this
    user, from whatever device and under whatever name and path, is answered
    with the same key. *)
Theorem reupload_while_active_same_key
    (lib : NodeLib) (BUCKET_NAME : string) (env : ProcessEnv)
    (req1 req2 : UploadRequest) (p1 p2 : FilePart) (w : World) :
  req_part req1 = Some p1 -> req_part req2 = Some p2 ->
  req_user_id req1 = req_user_id req2 ->
  sha256_hex lib (part_content p1) = sha256_hex lib (part_content p2) ->
  let uid := req_user_id req1 in
  let hash := sha256_hex lib (part_content p1) in
  let first := post_upload lib BUCKET_NAME env req1 w in
  is_error (fst first) = false ->
  exists r1,
    first_match uid hash (snd first) = Some r1
    /\ response_key (fst first) = Some (minio_key r1)
    /\ forall (later : World) (r2 : FileRow),
         first_match uid hash later = Some r2 -> minio_key r2 = minio_key r1 ->
         let second := post_upload lib BUCKET_NAME env req2 later in
         is_error (fst second) = false ->
         response_key (fst second) = Some (minio_key r1).
Proof.
  intros H1 H2 Hu Hh uid hash first Hok1.
  destruct (upload_answer_key lib BUCKET_NAME env req1 p1 w H1 Hok1)
    as (r1 & Hm1 & Hk1 & _).
  exists r1. split; [exact Hm1 |]. split; [exact Hk1 |].
  intros later r2 Hm2 Hkey second Hok2.
  destruct (upload_answer_key lib BUCKET_NAME env req2 p2 later H2 Hok2)
    as (r3 & _ & Hk3 & Hsame).
  fold second in Hk3. rewrite Hk3. f_equal.
  rewrite <- Hkey. apply Hsame.
  rewrite <- Hu, <- Hh. exact Hm2.
Qed.

(** Two uploads in a row of content with one hash by one user are answered
    with one and the same key. *)
Lemma reupload_in_a_row_same_key
    (lib : NodeLib) (BUCKET_NAME : string) (env : ProcessEnv)
    (req1 req2 : UploadRequest) (p1 p2 : FilePart) (w : World) :
  req_part req1 = Some p1 -> req_part req2 = Some p2 ->
  req_user_id req1 = req_user_id req2 ->
  sha256_hex lib (part_content p1) = sha256_hex lib (part_content p2) ->
  let first := post_upload lib BUCKET_NAME env req1 w in
  let second := post_upload lib BUCKET_NAME env req2 (snd first) in
  is_error (fst first) = false -> is_error (fst second) = false ->
  exists k, response_key (fst first) = Some k /\ response_key (fst second) = Some k.
Proof.
  intros H1 H2 Hu Hh first second Hok1 Hok2.
  destruct (upload_answer_key lib BUCKET_NAME env req1 p1 w H1 Hok1)
    as (r1 & Hm1 & Hk1 & _).
  destruct (upload_answer_key lib BUCKET_NAME env req2 p2 (snd first) H2 Hok2)
    as (r2 & _ & Hk2 & Hsame).
  exists (minio_key r1). split; [exact Hk1 |].
  fold second in Hk2. rewrite Hk2. f_equal. apply Hsame.
  rewrite <- Hu, <- Hh. exact Hm1.
Qed.

(** The theorem at the two example uploads: the second, from another device,
    comes while the record of the first is active. *)
Lemma reupload_while_active_same_key_witness :
  response_key (fst (example_post hello_request (fresh_world 1000)))
  = Some "users/u1/files/uuid-0/a.txt"
  /\ response_key (fst (example_post hello_again_request world_after_hello))
     = Some "users/u1/files/uuid-0/a.txt".
Proof.
  destruct (reupload_while_active_same_key example_lib example_bucket example_env
              hello_request hello_again_request _ _ (fresh_world 1000)
              eq_refl eq_refl eq_refl eq_refl eq_refl)
    as (r1 & Hm & Hk & Hlater).
  assert (Hr1 : r1 = hello_record).
  { vm_compute in Hm. now injection Hm as <-. }
  subst r1. split; [exact Hk |].
  apply (Hlater world_after_hello hello_record); reflexivity.
Defined.

(** After its record has been deleted, the same content uploaded again by
    the same user under the same name gets another key. *)
Example reupload_after_delete_keys :
  response_key (fst (example_post hello_request (fresh_world 1000)))
  = Some "users/u1/files/uuid-0/a.txt"
  /\ response_key (fst (example_post hello_request world_after_hello_deleted))
     = Some "users/u1/files/uuid-2/a.txt".
Proof. split; vm_compute; reflexivity. Qed.

(** C7, as stated, fails: the key holds a random identifier drawn for each
    stored object, not the content hash. *)
Lemma key_not_stable_across_uploads :
  ~ key_stable_across_uploads example_lib example_bucket example_env.
Proof.
  intros H.
  specialize (H hello_request hello_request _ _ (fresh_world 1000)
                world_after_hello_deleted _ _ eq_refl eq_refl eq_refl eq_refl
                (proj1 reupload_after_delete_keys)
                (proj2 reupload_after_delete_keys)).
  discriminate H.
Qed.

(** *** URLs on demand *)

(** [GET /:fileId/download] signs a URL at the time of the request and
    stores nothing: table and bucket are as they were. *)
Lemma download_persists_nothing
    (BUCKET_NAME : string) (uid fileId : string) (w : World) :
  let out := get_download BUCKET_NAME uid fileId w in
  files (snd out) = files w /\ bucket (snd out) = bucket w
  /\ forall f u, fst out = Json 200 (DownloadBody f u) ->
       u = PresignedUrl BUCKET_NAME (url_key u) (24 * 60 * 60) (now w).
Proof.
  unfold_routes. next_call; [cbn; repeat split; discriminate |].
  cbn [files with_calls].
  destruct (List.filter _ (files w)) as [|fr rest]; cbn;
    [repeat split; discriminate |].
  next_call; cbn; repeat split; try discriminate.
  intros f u [= _ <-]. reflexivity.
Qed.

(** *** One record, two devices *)

(** A second device of [u1] uploads the content the first has uploaded: it
    is answered with the first device's record.  The first device deletes
    that record: the object is gone, and the second device's request for
    the file is answered 404. *)
Example shared_record_deleted_for_both :
  let w1 := world_after_hello in
  let second := example_post hello_again_request w1 in
  let w3 := snd (delete_file "u1" "uuid-1" (snd second)) in
  (j_id <$> response_file (fst second)) = Some "uuid-1"
  /\ response_key (fst second) = Some "users/u1/files/uuid-0/a.txt"
  /\ bucket w3 !! "users/u1/files/uuid-0/a.txt" = None
  /\ fst (get_download example_bucket "u1" "uuid-1" w3)
     = Json 404 (ErrorBody "File not found").
Proof. vm_compute. repeat split; reflexivity. Qed.

(** *** The storage key, and the earlier version of the upload *)

(** The key is made of the user, a random identifier and the file name; the
    content has no part in it. *)
Lemma generateMinioKey_shape (userId fname : string) (w : World) :
  generateMinioKey userId fname w
  = (Resolved ("users/" ++ userId ++ "/files/" ++ entropy w (drawn w) ++ "/" ++ fname),
     with_drawn (S (drawn w)) w).
Proof. reflexivity. Qed.

(** In the earlier version of the route the same content under another name
    is stored a second time; in the current one it is not. *)
Example earlier_version_stores_twice :
  let w1 := snd (post_upload_v1 example_lib hello_request (fresh_world 1000)) in
  let old := post_upload_v1 example_lib hello_again_request w1 in
  let new := example_post hello_again_request w1 in
  List.filter is_put (calls (snd old))
  = [PutObject "users/u1/files/uuid-0/a.txt"; PutObject "users/u1/files/uuid-2/copy.txt"]
  /\ List.filter is_put (calls (snd new)) = [PutObject "users/u1/files/uuid-0/a.txt"].
Proof. vm_compute. split; reflexivity. Qed.

(** *** Only [DELETE /:fileId] deletes *)

(** An upload leaves every record with the status and the key it had. *)
Lemma upload_keeps_records
    (lib : NodeLib) (BUCKET_NAME : string) (env : ProcessEnv)
    (req : UploadRequest) (w : World) (r : FileRow) :
  In r (files w) ->
  exists r', In r' (files (snd (post_upload lib BUCKET_NAME env req w)))
             /\ id r' = id r /\ status r' = status r /\ minio_key r' = minio_key r.
Proof.
  intros Hin.
  assert (Hsame : forall w', files w' = files w ->
            exists r', In r' (files w') /\ id r' = id r /\ status r' = status r
                       /\ minio_key r' = minio_key r).
  { intros w' Hw. exists r. rewrite Hw. auto. }
  assert (Hupd : forall u fileId t,
            exists r', In r' (List.map (fun x => if String.eqb (id x) fileId
                                               then set_local_url u t x else x) (files w))
                       /\ id r' = id r /\ status r' = status r
                       /\ minio_key r' = minio_key r).
  { intros u fileId t.
    exists (if String.eqb (id r) fileId then set_local_url u t r else r).
    split; [apply in_map_iff; exists r; auto |].
    destruct (String.eqb (id r) fileId); auto. }
  unfold post_upload, upload_single.
  destruct (req_part req) as [p|].
  - destruct (fileSize_limit <? byteLength (part_content p)); [now apply Hsame |].
    unfold_routes. next_call; [now apply Hsame |].
    cbn [files with_calls].
    match goal with |- context [List.filter ?q ?l] => destruct (List.filter q l) as [|fr rest] end.
    + cbn. next_call; [now apply Hsame |]. cbn.
      next_call; cbn; (next_call; [now apply Hsame |]); cbn;
        match goal with |- context [existsb ?q ?l] => destruct (existsb q l) end;
        cbn; try (now apply Hsame);
        (exists r; split; [apply in_or_app; now left | auto]).
    + destruct (local_url_differs (body_localUrl req) fr).
      * destruct (body_localUrl req) as [u|]; cbn.
        -- next_call; [now apply Hsame |]. cbn. next_call; cbn; apply Hupd.
        -- next_call; cbn; now apply Hsame.
      * cbn. next_call; cbn; now apply Hsame.
  - unfold_routes. cbn. now apply Hsame.
Qed.

(** A request for a download changes no record. *)
Lemma download_keeps_records (BUCKET_NAME uid fileId : string) (w : World) :
  files (snd (get_download BUCKET_NAME uid fileId w)) = files w.
Proof.
  unfold_routes. next_call; [reflexivity |].
  cbn [files with_calls].
  destruct (List.filter _ (files w)) as [|fr rest]; cbn; [reflexivity |].
  next_call; reflexivity.
Qed.

(** *** The URL an upload stores *)






End ServerFacts.

(** ** The sync client *)

Module ClientFacts.
Import Js Client ClientSpec.

Ltac unfold_tasks :=
  unfold performSync, downloadFileFromServer, api_downloadFile, api_initSync,
    api_completeSync, api_uploadFile, api_deleteFile, on_event, handleFileChange,
    queueUpload, same_size_on_disk, log, send, settle, try_catch, throw_error,
    never, Js.try_catch, bind, ret, throw, modify, get in *.

Lemma app_one_neq {A} (l : list A) (x : A) : (l ++ [x])%list <> l.
Proof.
  intros H. apply (f_equal (@length A)) in H. rewrite length_app in H.
  cbn in H. lia.
Qed.

(** *** One file *)

(** C2 (amended).  The client skips the transfer of a changed file exactly
    when a file exists at its local path whose size is the number the server
    reports as [file_size]; it then writes the line "File unchanged" and
    leaves the disk alone.  Neither [file_hash] nor [updated_at] is looked
    at. *)
Theorem skipped_iff_same_size
    (lib : NodeLib) (config : Config) (remote : Remote)
    (m : FileMetadata) (d : Device) :
  let localPath := path_join lib (WATCH_DIRECTORY config) (file_path m) in
  let d' := snd (downloadFileFromServer lib config remote m d) in
  (skipped lib config remote m d <->
     exists b, disk d !! localPath = Some b /\ file_size m = JNumber (byteLength b))
  /\ (skipped lib config remote m d ->
      disk d' = disk d /\ console d' = (console d ++ [FileUnchanged (filename m)])%list).
Proof.
  unfold skipped. unfold_tasks.
  destruct (disk d !! path_join lib (WATCH_DIRECTORY config) (file_path m))
    as [b|] eqn:Eb.
  - destruct (file_size m) as [n | s | ] eqn:Es; cbn.
    + destruct (N.eqb_spec (byteLength b) n) as [Heq | Hne]; cbn.
      * split; [| auto]. split; [intros _; exists b; now rewrite Heq | reflexivity].
      * destruct (download remote (id m)); cbn;
          (split; [split; [intros H; now apply app_one_neq in H
                          | intros (b' & [= <-] & [= Hn]); congruence]
                  | intros H; now apply app_one_neq in H]).
    + destruct (download remote (id m)); cbn;
        (split; [split; [intros H; now apply app_one_neq in H
                        | intros (b' & _ & [=])]
                | intros H; now apply app_one_neq in H]).
    + destruct (download remote (id m)); cbn;
        (split; [split; [intros H; now apply app_one_neq in H
                        | intros (b' & _ & [=])]
                | intros H; now apply app_one_neq in H]).
  - cbn. destruct (download remote (id m)); cbn;
      (split; [split; [intros H; now apply app_one_neq in H
                      | intros (b' & [=] & _)]
              | intros H; now apply app_one_neq in H]).
Qed.

(** The theorem at the example device: the reported size 4 is the size on
    disk, the reported size 9 is not. *)
Lemma skipped_iff_same_size_witness :
  skipped example_lib example_config example_remote
    (meta "f1" "a.txt" (JNumber 4) "sha256:bbbb") example_device
  /\ ~ skipped example_lib example_config example_remote
         (meta "f1" "a.txt" (JNumber 9) "sha256:bbbb") example_device.
Proof.
  split.
  - apply (proj2 (proj1 (skipped_iff_same_size example_lib example_config
                           example_remote _ _))).
    exists (Buffer_from "aaaa"). split; reflexivity.
  - intros H.
    destruct (proj1 (proj1 (skipped_iff_same_size example_lib example_config
                              example_remote _ _)) H) as (b & Hb & Hs).
    vm_compute in Hb.
    inversion Hb; subst b. discriminate Hs.
Defined.

(** The file on the device holds [aaaa]; the server's file of the same size
    has another hash: it is taken as unchanged. *)
Example same_size_other_hash_skipped :
  sha256_hex example_lib (Buffer_from "aaaa") = "sha256:aaaa"
  /\ downloadFileFromServer example_lib example_config example_remote
       (meta "f1" "a.txt" (JNumber 4) "sha256:bbbb") example_device
     = (Resolved tt,
        mkDevice (disk example_device) None [] false 0 [FileUnchanged "a.txt"] []).
Proof. split; reflexivity. Qed.

(** C2, as stated, fails: of two entries for one path with one content
    hash, the one whose size is that of the local file is skipped and the
    other is transferred. *)
Lemma size_decides_not_content_hash :
  ~ decides_by_content_hash example_lib example_config example_remote.
Proof.
  intros H.
  specialize (H example_device (meta "f1" "a.txt" (JNumber 4) "sha256:aaaa")
                (meta "f1" "a.txt" (JNumber 9) "sha256:aaaa") eq_refl eq_refl).
  destruct H as [H _].
  assert (Hskip : skipped example_lib example_config example_remote
                    (meta "f1" "a.txt" (JNumber 4) "sha256:aaaa") example_device)
    by reflexivity.
  specialize (H Hskip). unfold skipped in H. vm_compute in H. discriminate H.
Qed.

(** *** One visit *)

(** What a visit does, outcome by outcome. *)
Lemma visit_eq (lib : NodeLib) (config : Config) (remote : Remote)
    (m : FileMetadata) (d : Device) :
  let localPath := path_join lib (WATCH_DIRECTORY config) (file_path m) in
  let asked (fs : gmap string Buffer) (lines : list Line) :=
    mkDevice fs (lastSyncAt d) (uploadQueue d) (isProcessing d) (timers d)
      (console d ++ Downloading (filename m) :: lines)
      (sent d ++ [GetDownload (id m)]) in
  downloadFileFromServer lib config remote m d
  = if same_size_on_disk localPath m d
    then (Resolved tt,
          mkDevice (disk d) (lastSyncAt d) (uploadQueue d) (isProcessing d) (timers d)
            (console d ++ [FileUnchanged (filename m)]) (sent d))
    else
      match download remote (id m) with
      | UrlRejected e | FetchRejected e =>
          (Resolved tt,
           asked (disk d)
             [ApiDownloadFailed (shown e); FailedToDownload (filename m) (message e)])
      | Unanswered => (pending, asked (disk d) [])
      | WriteRejected written e =>
          (Resolved tt,
           asked (<[localPath := written]> (disk d))
             [FailedToDownload (filename m) (message e)])
      | Stalled written => (pending, asked (<[localPath := written]> (disk d)) [])
      | Written name content =>
          (Resolved tt, asked (<[localPath := content]> (disk d)) [ApiDownloaded name])
      end.
Proof.
  cbv zeta. unfold downloadFileFromServer, api_downloadFile.
  unfold log, send, try_catch, throw_error, never, Js.try_catch, bind, ret, throw,
    modify, get, pending.
  destruct (same_size_on_disk _ m d); [reflexivity |].
  destruct (download remote (id m)); cbn; rewrite <- ?app_assoc; reflexivity.
Qed.

(** A visit whose file is skipped, or whose download ends, resolves. *)
Lemma visit_done (lib : NodeLib) (config : Config) (remote : Remote)
    (m : FileMetadata) (d : Device) :
  same_size_on_disk (path_join lib (WATCH_DIRECTORY config) (file_path m)) m d = true
  \/ settles (download remote (id m)) ->
  exists r,
    fst (downloadFileFromServer lib config remote m d) = Resolved tt
    /\ visited lib config remote m r d (snd (downloadFileFromServer lib config remote m d)).
Proof.
  intros Hends. rewrite visit_eq. cbv zeta. unfold visited.
  destruct (same_size_on_disk _ m d) eqn:Esize.
  { exists Skipped. cbn [fst snd console lastSyncAt sent disk report].
    repeat split; reflexivity. }
  destruct Hends as [Hs | Hs]; [discriminate Hs |].
  destruct (download remote (id m)) as [e | e | | written e | written | name content]
    eqn:Ed; cbn in Hs; try contradiction.
  - exists (Failed true e). cbn [fst snd console lastSyncAt sent disk report].
    repeat split; auto.
  - exists (Failed true e). cbn [fst snd console lastSyncAt sent disk report].
    repeat split; auto.
  - exists (Failed false e). cbn [fst snd console lastSyncAt sent disk report].
    repeat split; eauto.
  - exists (Fetched name). cbn [fst snd console lastSyncAt sent disk report].
    repeat split; eauto.
Qed.

(** A visit whose download is asked for and does not end never settles. *)
Lemma visit_hangs (lib : NodeLib) (config : Config) (remote : Remote)
    (m : FileMetadata) (d : Device) :
  let localPath := path_join lib (WATCH_DIRECTORY config) (file_path m) in
  same_size_on_disk localPath m d = false ->
  ~ settles (download remote (id m)) ->
  downloadFileFromServer lib config remote m d
  = (pending, left_waiting m (disk_left localPath (download remote (id m)) (disk d)) d).
Proof.
  intros localPath Hsize Hnot. rewrite visit_eq. cbv zeta. fold localPath.
  rewrite Hsize.
  destruct (download remote (id m)); cbn in Hnot; try (now destruct Hnot);
    reflexivity.
Qed.

(** A visit resolves or never settles: it does not reject. *)
Lemma visit_never_throws (lib : NodeLib) (config : Config) (remote : Remote)
    (m : FileMetadata) (d : Device) :
  fst (downloadFileFromServer lib config remote m d) = Resolved tt
  \/ fst (downloadFileFromServer lib config remote m d) = pending.
Proof.
  rewrite visit_eq. cbv zeta.
  destruct (same_size_on_disk _ m d); [now left |].
  destruct (download remote (id m)); cbn; auto.
Qed.

(** *** The visits of a cycle *)

Lemma for_of_next {S E A} (x : A) (xs : list A) (f : A -> Async S E unit) (s s1 : S) :
  f x s = (Resolved tt, s1) -> for_of (x :: xs) f s = for_of xs f s1.
Proof.
  intros H. cbn [for_of]. unfold bind. now rewrite H.
Qed.

Lemma for_of_stop {S E A} (x : A) (xs : list A) (f : A -> Async S E unit)
    (s s1 : S) (e : E) :
  f x s = (Rejected e, s1) -> for_of (x :: xs) f s = (Rejected e, s1).
Proof.
  intros H. cbn [for_of]. unfold bind. now rewrite H.
Qed.

Lemma for_of_app_resolved {S E A} (xs ys : list A) (f : A -> Async S E unit) (s s1 : S) :
  for_of xs f s = (Resolved tt, s1) -> for_of (xs ++ ys) f s = for_of ys f s1.
Proof.
  revert s. induction xs as [| x xs IH]; intros s H.
  - cbn in H. injection H as <-. reflexivity.
  - cbn [app]. destruct (f x s) as [[[] | e] s0] eqn:Ef.
    + rewrite (for_of_next x xs f s s0 Ef) in H.
      rewrite (for_of_next x (xs ++ ys) f s s0 Ef). now apply IH.
    + rewrite (for_of_stop x xs f s s0 e Ef) in H. discriminate H.
Qed.

Lemma visits_console (lib : NodeLib) (config : Config) (remote : Remote)
    (ms : list FileMetadata) (rs : list FileResult) (d d1 : Device) :
  visits lib config remote ms rs d d1 ->
  console d1 = (console d ++ reports ms rs)%list /\ lastSyncAt d1 = lastSyncAt d.
Proof.
  induction 1 as [d | m ms r rs d d1 d2 (Hc & Hl & _) _ (IHc & IHl)].
  - unfold reports. cbn. now rewrite app_nil_r.
  - split; [| congruence].
    rewrite IHc, Hc. unfold reports. cbn. now rewrite <- app_assoc.
Qed.

(** When every download of the list ends, every file is visited. *)
Lemma visits_done (lib : NodeLib) (config : Config) (remote : Remote)
    (ms : list FileMetadata) (d : Device) :
  Forall (fun m => settles (download remote (id m))) ms ->
  exists rs,
    fst (for_of ms (downloadFileFromServer lib config remote) d) = Resolved tt
    /\ visits lib config remote ms rs d
         (snd (for_of ms (downloadFileFromServer lib config remote) d)).
Proof.
  intros Hall. revert d. induction Hall as [| m ms Hm _ IH]; intros d.
  - exists []. split; [reflexivity | constructor].
  - destruct (visit_done lib config remote m d (or_intror Hm)) as (r & Hres & Hv).
    destruct (downloadFileFromServer lib config remote m d) as [[[] | e] d1] eqn:E;
      cbn [fst snd] in Hres, Hv; [| discriminate Hres].
    rewrite (for_of_next _ _ _ _ _ E).
    destruct (IH d1) as (rs & Hres' & Hvs).
    exists (r :: rs). split; [exact Hres' |]. econstructor; eassumption.
Qed.

(** The visits of a list resolve or never settle; they leave [lastSyncAt]
    alone, and ask for files of the list only, in its order. *)
Lemma visits_requests (lib : NodeLib) (config : Config) (remote : Remote)
    (ms : list FileMetadata) (d : Device) :
  let out := for_of ms (downloadFileFromServer lib config remote) d in
  (fst out = Resolved tt \/ fst out = pending)
  /\ lastSyncAt (snd out) = lastSyncAt d
  /\ exists gets,
       sent (snd out) = (sent d ++ gets)%list
       /\ sublist gets (List.map (fun m => GetDownload (id m)) ms).
Proof.
  revert d. induction ms as [| m ms IH]; intros d.
  - cbn. split; [now left |]. split; [reflexivity |].
    exists []. rewrite app_nil_r. split; [reflexivity | constructor].
  - assert (Hone : lastSyncAt (snd (downloadFileFromServer lib config remote m d))
                   = lastSyncAt d
                   /\ (sent (snd (downloadFileFromServer lib config remote m d)) = sent d
                       \/ sent (snd (downloadFileFromServer lib config remote m d))
                          = (sent d ++ [GetDownload (id m)])%list)).
    { rewrite visit_eq. cbv zeta.
      destruct (same_size_on_disk _ m d); [cbn; auto |].
      destruct (download remote (id m)); cbn; auto. }
    destruct Hone as (Hl & Hs).
    cbv zeta. cbn [List.map].
    destruct (downloadFileFromServer lib config remote m d) as [[[] | e] d1] eqn:E;
      cbn [fst snd] in Hl, Hs.
    + rewrite (for_of_next _ _ _ _ _ E).
      specialize (IH d1). cbv zeta in IH. destruct IH as (Ir & Il & gets & Is & Isub).
      split; [exact Ir |]. split; [congruence |].
      destruct Hs as [Hs | Hs]; rewrite Is, Hs.
      * exists gets. split; [reflexivity |]. now apply sublist_cons.
      * exists (GetDownload (id m) :: gets). rewrite <- app_assoc.
        split; [reflexivity |]. now apply sublist_skip.
    + rewrite (for_of_stop _ _ _ _ _ _ E). cbn [fst snd].
      destruct (visit_never_throws lib config remote m d) as [Hv | Hv];
        rewrite E in Hv; cbn in Hv; [discriminate Hv |].
      split; [now right |]. split; [exact Hl |].
      destruct Hs as [Hs | Hs]; rewrite Hs.
      * exists []. rewrite app_nil_r. split; [reflexivity | apply sublist_nil_l].
      * exists [GetDownload (id m)]. split; [reflexivity |].
        apply sublist_skip, sublist_nil_l.
Qed.

(** *** A cycle *)

(** A cycle whose session the server refuses to open. *)
Lemma performSync_not_opened (lib : NodeLib) (config : Config) (remote : Remote)
    (d : Device) (e : JsError) :
  sync_init remote (DEVICE_ID config) (if_truthy (lastSyncAt d)) = Rejected e ->
  performSync lib config remote d
  = (Resolved tt,
     mkDevice (disk d) (lastSyncAt d) (uploadQueue d) (isProcessing d) (timers d)
       (console d ++ [StartingSync; ApiSyncInitFailed (shown e); SyncFailed (message e)])
       (sent d ++ [PostSyncInit (DEVICE_ID config) (if_truthy (lastSyncAt d))])).
Proof.
  intros Hinit.
  unfold performSync, api_initSync, api_completeSync, log, send, settle,
    try_catch, throw_error, never, Js.try_catch, bind, ret, throw, modify, get.
  cbn -[Nat.ltb]. rewrite Hinit. cbn. rewrite <- !app_assoc. reflexivity.
Qed.

(** A cycle whose session the server opens: the files are visited; when the
    visits resolve, the session is completed and, if the server accepts
    that, [lastSyncAt] is set; when a visit never settles, nothing more
    happens. *)
Lemma performSync_opened (lib : NodeLib) (config : Config) (remote : Remote)
    (d : Device) (data : SyncData) :
  sync_init remote (DEVICE_ID config) (if_truthy (lastSyncAt d)) = Resolved data ->
  performSync lib config remote d
  = match for_of (changedFiles data) (downloadFileFromServer lib config remote)
            (opened config data d) with
    | (Resolved _, d1) =>
        (Resolved tt,
         match sync_complete remote (session_id data) with
         | Resolved _ =>
             mkDevice (disk d1) (Some (serverTime data)) (uploadQueue d1)
               (isProcessing d1) (timers d1) (console d1 ++ [SyncCompleted])
               (sent d1 ++ [PostSyncComplete (session_id data)])
         | Rejected e =>
             mkDevice (disk d1) (lastSyncAt d1) (uploadQueue d1)
               (isProcessing d1) (timers d1)
               (console d1 ++ [ApiSyncCompleteFailed (shown e); SyncFailed (message e)])
               (sent d1 ++ [PostSyncComplete (session_id data)])
         end)
    | (Rejected (Throws e), d1) =>
        (Resolved tt,
         mkDevice (disk d1) (lastSyncAt d1) (uploadQueue d1) (isProcessing d1)
           (timers d1) (console d1 ++ [SyncFailed (message e)]) (sent d1))
    | (Rejected NeverSettles, d1) => (pending, d1)
    end.
Proof.
  intros Hinit.
  assert (Hd0 : forall line,
            line = (if (0 <? length (changedFiles data))%nat
                    then FoundChanged (length (changedFiles data)) else NoChanges) ->
            mkDevice (disk d) (lastSyncAt d) (uploadQueue d) (isProcessing d) (timers d)
              ((console d ++ [StartingSync]) ++ [line])
              (sent d ++ [PostSyncInit (DEVICE_ID config) (if_truthy (lastSyncAt d))])
            = opened config data d).
  { intros line ->. unfold opened. now rewrite <- app_assoc. }
  unfold performSync, api_initSync, api_completeSync, log, send, settle,
    try_catch, throw_error, never, Js.try_catch, bind, ret, throw, modify, get.
  cbn -[Nat.ltb]. rewrite Hinit.
  destruct (0 <? length (changedFiles data))%nat eqn:En.
  - cbn [disk lastSyncAt uploadQueue isProcessing timers console sent].
    rewrite (Hd0 _ eq_refl).
    destruct (for_of (changedFiles data) (downloadFileFromServer lib config remote)
                (opened config data d)) as [[[] | [e |]] d1]; cbn.
    + destruct (sync_complete remote (session_id data)) as [[] | e1]; cbn;
        rewrite <- ?app_assoc; reflexivity.
    + reflexivity.
    + reflexivity.
  - destruct (changedFiles data) as [| m ms] eqn:Ems; [| discriminate En].
    rewrite <- (Hd0 NoChanges eq_refl). cbn [for_of ret]. cbn.
    destruct (sync_complete remote (session_id data)) as [[] | e1]; cbn;
      rewrite <- ?app_assoc; reflexivity.
Qed.

(** C9, on the code.  A download whose response stream fails after it has
    started stops the cycle for good.  When the server opens the session,
    the files before [m] in its list have been visited, [m] is not taken as
    unchanged, and the response stream of [m] fails after the bytes
    [written], then the cycle never settles: the file holds those bytes, the
    last line on the console is the "Downloading" of [m], no failure is
    reported for [m], no file after [m] is asked for, the session is never
    completed and [lastSyncAt] keeps its value. *)
Theorem performSync_hangs_on_a_stalled_download
    (lib : NodeLib) (config : Config) (remote : Remote) (d : Device)
    (data : SyncData) (before after : list FileMetadata) (m : FileMetadata)
    (d1 : Device) (written : Buffer) :
  sync_init remote (DEVICE_ID config) (if_truthy (lastSyncAt d)) = Resolved data ->
  changedFiles data = (before ++ m :: after)%list ->
  for_of before (downloadFileFromServer lib config remote) (opened config data d)
  = (Resolved tt, d1) ->
  let localPath := path_join lib (WATCH_DIRECTORY config) (file_path m) in
  same_size_on_disk localPath m d1 = false ->
  download remote (id m) = Stalled written ->
  let out := performSync lib config remote d in
  out = (pending, left_waiting m (<[localPath := written]> (disk d1)) d1)
  /\ lastSyncAt (snd out) = lastSyncAt d
  /\ exists gets,
       sent (snd out)
       = (sent d
          ++ PostSyncInit (DEVICE_ID config) (if_truthy (lastSyncAt d))
             :: gets ++ [GetDownload (id m)])%list
       /\ sublist gets (List.map (fun m => GetDownload (id m)) before).
Proof.
  intros Hinit Hfiles Hbefore localPath Hsize Hstalled out.
  assert (Hvisit : downloadFileFromServer lib config remote m d1
                   = (pending, left_waiting m (<[localPath := written]> (disk d1)) d1)).
  { rewrite (visit_hangs lib config remote m d1 Hsize);
      rewrite Hstalled; [reflexivity | cbn; auto]. }
  assert (Hout : out = (pending, left_waiting m (<[localPath := written]> (disk d1)) d1)).
  { subst out. rewrite (performSync_opened lib config remote d data Hinit), Hfiles.
    rewrite (for_of_app_resolved _ _ _ _ _ Hbefore).
    rewrite (for_of_stop _ _ _ _ _ _ Hvisit). reflexivity. }
  pose proof (visits_requests lib config remote before (opened config data d)) as Hreq.
  cbv zeta in Hreq. rewrite Hbefore in Hreq. cbn [fst snd] in Hreq.
  destruct Hreq as (_ & Hlast & gets & Hsent & Hsub).
  rewrite Hout. cbn [snd left_waiting lastSyncAt sent].
  split; [reflexivity |]. split; [exact Hlast |].
  exists gets. split; [| exact Hsub].
  rewrite Hsent. cbn [opened sent]. now rewrite <- !app_assoc.
Qed.

(** The theorem at the example device in front of the server whose second
    download stalls: the first file is skipped, the second is asked for, and
    that is the end of the cycle. *)
Lemma performSync_hangs_on_a_stalled_download_witness :
  let out := performSync example_lib example_config stalling_remote example_device in
  fst out = pending
  /\ lastSyncAt (snd out) = None
  /\ disk (snd out) !! "/sync/b.txt" = Some (Buffer_from "h")
  /\ console (snd out)
     = [StartingSync; FoundChanged 3; FileUnchanged "a.txt"; Downloading "b.txt"]
  /\ sent (snd out) = [PostSyncInit "laptop-001" None; GetDownload "f2"].
Proof.
  intros out.
  destruct (performSync_hangs_on_a_stalled_download example_lib example_config
              stalling_remote example_device example_data
              [meta "f1" "a.txt" (JNumber 4) "sha256:bbbb"]
              [meta "f3" "c.txt" (JNumber 2) "sha256:hi"]
              (meta "f2" "b.txt" (JNumber 3) "sha256:xyz")
              (mkDevice (disk example_device) None [] false 0
                 [StartingSync; FoundChanged 3; FileUnchanged "a.txt"]
                 [PostSyncInit "laptop-001" None])
              (Buffer_from "h") eq_refl eq_refl eq_refl eq_refl eq_refl)
    as (Hout & Hlast & _).
  fold out in Hout, Hlast. rewrite Hout in *. cbn [fst snd] in *.
  split; [reflexivity |]. split; [exact Hlast |].
  split; [apply lookup_insert_eq |]. split; reflexivity.
Defined.

(** The example cycle: the first file is unchanged, the download of the
    second is refused, the third is written; the cycle completes.  [api.js]
    writes the error of the server's body, [sync.js] the message of the
    error. *)
Example example_cycle_console :
  console (snd (performSync example_lib example_config example_remote example_device))
  = [ StartingSync; FoundChanged 3;
      FileUnchanged "a.txt";
      Downloading "b.txt";
      ApiDownloadFailed "File not found";
      FailedToDownload "b.txt" "Request failed with status code 404";
      Downloading "c.txt"; ApiDownloaded "f3.txt";
      SyncCompleted ].
Proof. vm_compute. reflexivity. Qed.

(** *** Deletions *)

Lemma nothing_deleted_refl (d : Device) : nothing_deleted d d.
Proof.
  split; [| reflexivity]. exists []. now rewrite app_nil_r.
Qed.

Lemma nothing_deleted_trans (d1 d2 d3 : Device) :
  nothing_deleted d1 d2 -> nothing_deleted d2 d3 -> nothing_deleted d1 d3.
Proof.
  intros [(n1 & H1 & F1) D1] [(n2 & H2 & F2) D2]. split.
  - exists (n1 ++ n2)%list. rewrite H2, H1, <- app_assoc. split; [reflexivity |].
    rewrite forallb_app, F1, F2. reflexivity.
  - etransitivity; eassumption.
Qed.

Lemma keeps_ret {A} (a : A) : keeps (ret a).
Proof. intros d. apply nothing_deleted_refl. Qed.

Lemma keeps_throw {A} (e : Failure) : keeps (@throw Device Failure A e).
Proof. intros d. apply nothing_deleted_refl. Qed.

Lemma keeps_throw_error {A} (e : JsError) : keeps (@throw_error A e).
Proof. apply keeps_throw. Qed.

Lemma keeps_never {A} : keeps (@never A).
Proof. apply keeps_throw. Qed.

Lemma keeps_get {A} (f : Device -> A) : keeps (get f).
Proof. intros d. apply nothing_deleted_refl. Qed.

Lemma keeps_settle {A} (r : Settled JsError A) : keeps (settle r).
Proof. intros d. apply nothing_deleted_refl. Qed.

Lemma keeps_send (r : Request) : is_delete r = false -> keeps (send r).
Proof.
  intros Hr d. split; [| reflexivity]. exists [r]. cbn. now rewrite Hr.
Qed.

Lemma keeps_write (p : string) (b : Buffer) :
  keeps (modify (with_disk (fun fs => <[p := b]> fs))).
Proof.
  intros d. split.
  - exists []. cbn. now rewrite app_nil_r.
  - cbn. rewrite dom_insert_L. set_solver.
Qed.

Lemma keeps_modify (f : Device -> Device) :
  (forall d, sent (f d) = sent d /\ disk (f d) = disk d) -> keeps (modify f).
Proof.
  intros Hf d. destruct (Hf d) as [Hs Hd]. split.
  - exists []. cbn. now rewrite app_nil_r.
  - cbn. now rewrite Hd.
Qed.

Lemma keeps_log (l : Line) : keeps (log l).
Proof. apply keeps_modify. intros d. split; reflexivity. Qed.

Lemma keeps_bind {A B} (m : Task A) (k : A -> Task B) :
  keeps m -> (forall a, keeps (k a)) -> keeps (bind m k).
Proof.
  intros Hm Hk d. unfold bind. specialize (Hm d).
  destruct (m d) as [[a | e] d1]; cbn in *; [| exact Hm].
  eapply nothing_deleted_trans; [exact Hm | apply Hk].
Qed.

Lemma keeps_try_catch {A} (m : Task A) (h : JsError -> Task A) :
  keeps m -> (forall e, keeps (h e)) -> keeps (try_catch m h).
Proof.
  intros Hm Hh d. unfold try_catch, Js.try_catch. specialize (Hm d).
  destruct (m d) as [[a | [e |]] d1]; cbn in *; [exact Hm | | exact Hm].
  eapply nothing_deleted_trans; [exact Hm | apply Hh].
Qed.

Lemma keeps_for_of {A} (xs : list A) (f : A -> Task unit) :
  (forall x, keeps (f x)) -> keeps (for_of xs f).
Proof.
  intros Hf. induction xs as [|x xs IH]; cbn.
  - apply keeps_ret.
  - apply keeps_bind; [apply Hf | intros _; exact IH].
Qed.

Create HintDb keeps discriminated.
#[local] Hint Resolve keeps_ret keeps_throw keeps_throw_error keeps_never keeps_get
  keeps_settle keeps_log keeps_write keeps_bind keeps_try_catch keeps_for_of : keeps.

Lemma keeps_api_downloadFile (remote : Remote) (fileId savePath : string) :
  keeps (api_downloadFile remote fileId savePath).
Proof.
  unfold api_downloadFile.
  apply keeps_bind.
  - apply keeps_try_catch; [| auto with keeps].
    apply keeps_bind; [now apply keeps_send |].
    intros _. destruct (download remote fileId); auto with keeps.
  - intros [e | e | | written e | written | name content]; auto with keeps.
Qed.

Lemma keeps_downloadFileFromServer
    (lib : NodeLib) (config : Config) (remote : Remote) (m : FileMetadata) :
  keeps (downloadFileFromServer lib config remote m).
Proof.
  unfold downloadFileFromServer.
  apply keeps_try_catch; [| auto with keeps].
  apply keeps_bind; [auto with keeps |].
  intros [|]; [auto with keeps |].
  apply keeps_bind; [auto with keeps |].
  intros _. apply keeps_api_downloadFile.
Qed.

Lemma keeps_performSync (lib : NodeLib) (config : Config) (remote : Remote) :
  keeps (performSync lib config remote).
Proof.
  unfold performSync, api_initSync, api_completeSync.
  apply keeps_try_catch; [| auto with keeps].
  apply keeps_bind; [auto with keeps |]. intros _.
  apply keeps_bind; [auto with keeps |]. intros last.
  apply keeps_bind.
  { apply keeps_try_catch; [| auto with keeps].
    apply keeps_bind; [now apply keeps_send | auto with keeps]. }
  intros data.
  apply keeps_bind.
  { destruct (0 <? length (changedFiles data))%nat; [| auto with keeps].
    apply keeps_bind; [auto with keeps |]. intros _.
    apply keeps_for_of. apply keeps_downloadFileFromServer. }
  intros _.
  apply keeps_bind.
  { apply keeps_try_catch; [| auto with keeps].
    apply keeps_bind; [now apply keeps_send | auto with keeps]. }
  intros _.
  apply keeps_bind; [| auto with keeps].
  apply keeps_modify. intros d. split; reflexivity.
Qed.

Lemma keeps_processUploadQueue (lib : NodeLib) (config : Config) (remote : Remote) :
  keeps (processUploadQueue lib config remote).
Proof.
  unfold processUploadQueue, api_uploadFile.
  apply keeps_bind; [auto with keeps |]. intros busy.
  apply keeps_bind; [auto with keeps |]. intros files.
  destruct (busy || (length files =? 0)%nat); [auto with keeps |].
  apply keeps_bind; [apply keeps_modify; intros d; split; reflexivity |]. intros _.
  apply keeps_bind; [auto with keeps |]. intros _.
  apply keeps_bind; [apply keeps_modify; intros d; split; reflexivity |]. intros _.
  apply keeps_bind; [| intros _; apply keeps_modify; intros d; split; reflexivity].
  apply keeps_for_of. intros rel.
  apply keeps_try_catch; [| auto with keeps].
  apply keeps_bind; [auto with keeps |]. intros present.
  destruct (negb present); [auto with keeps |].
  apply keeps_try_catch; [| auto with keeps].
  apply keeps_bind; [auto with keeps |]. intros present'.
  destruct (negb present'); [auto with keeps |].
  apply keeps_bind; [now apply keeps_send |]. intros _.
  auto with keeps.
Qed.

(** C4, on the code.  The listener for [unlink] writes one line to the
    console and does nothing else: no request is sent, nothing is queued, no
    timer is set.  A sync cycle and a run of the upload queue send no request
    to delete, whatever the server answers, and every file on the disk before
    is on the disk after.  So a removal on one device reaches neither the
    server nor another device. *)
Theorem deletion_is_not_propagated
    (lib : NodeLib) (config : Config) (remote : Remote) (d : Device) :
  (forall filePath,
     on_event lib config (OnUnlink filePath) d
     = (Resolved tt,
        mkDevice (disk d) (lastSyncAt d) (uploadQueue d) (isProcessing d) (timers d)
          (console d ++ [DeletedLocally
                           (path_relative lib (WATCH_DIRECTORY config) filePath)])
          (sent d)))
  /\ nothing_deleted d (snd (performSync lib config remote d))
  /\ nothing_deleted d (snd (processUploadQueue lib config remote d)).
Proof.
  split; [reflexivity |]. split.
  - apply keeps_performSync.
  - apply keeps_processUploadQueue.
Qed.

(** Device X, whose user has removed [c.txt], hears of the removal and runs a
    cycle: it has asked the server to open and to close a session, nothing
    more.  Device Z then runs its cycle and still holds [c.txt]. *)
Example removal_on_X_reaches_nobody :
  let X1 := snd (on_event example_lib example_config (OnUnlink "/sync/c.txt") device_X) in
  let X2 := snd (performSync example_lib example_config quiet_remote X1) in
  let Z1 := snd (performSync example_lib example_config quiet_remote device_Z) in
  console X1 = [DeletedLocally "c.txt"]
  /\ sent X2 = [PostSyncInit "laptop-001" (Some "2025-07-27T12:00:00.000Z");
                PostSyncComplete "s2"]
  /\ Z1.(disk) !! "/sync/c.txt" = Some (Buffer_from "h4").
Proof. vm_compute. repeat split; reflexivity. Qed.

(** The sibling events do reach the server: a file added is queued, and the
    run of the queue uploads it. *)
Example addition_on_Z_is_uploaded :
  let Z1 := snd (on_event example_lib example_config (OnAdd "/sync/c.txt") device_Z) in
  let Z2 := snd (processUploadQueue example_lib example_config quiet_remote Z1) in
  uploadQueue Z1 = ["c.txt"] /\ timers Z1 = 1%nat
  /\ sent Z2 = [PostUpload "/sync/c.txt" "/"].
Proof. vm_compute. repeat split; reflexivity. Qed.

(** The hash and the time of modification the server reports have no part
    in what the client does with a file. *)
Lemma file_hash_is_ignored
    (lib : NodeLib) (config : Config) (remote : Remote)
    (m : FileMetadata) (hash time : string) (d : Device) :
  downloadFileFromServer lib config remote
    (mkMetadata (id m) (filename m) (file_path m) (file_size m) hash time) d
  = downloadFileFromServer lib config remote m d.
Proof. reflexivity. Qed.


(** *** Sizes that are not numbers *)

(** A [file_size] that reaches the client as a string (as a [BIGINT] column
    does through the database driver) or as [null] is never strictly equal
    to the size on disk: the file is transferred again. *)
Lemma non_number_size_never_skipped
    (lib : NodeLib) (config : Config) (remote : Remote)
    (m : FileMetadata) (d : Device) :
  (forall n, file_size m <> JNumber n) -> ~ skipped lib config remote m d.
Proof.
  intros Hn Hs. unfold skipped in Hs. unfold_tasks.
  assert (Hneq : forall b, strict_equal (byteLength b) (file_size m) = false).
  { intros b. destruct (file_size m) as [n | |] eqn:Es; try reflexivity.
    now destruct (Hn n). }
  destruct (disk d !! path_join lib (WATCH_DIRECTORY config) (file_path m)) as [b|];
    [rewrite Hneq in Hs |];
    destruct (download remote (id m)); cbn in Hs;
    now apply app_one_neq in Hs.
Qed.

(** *** What the watcher ignores *)

Example ignored_paths :
  shouldIgnoreFile example_lib "/sync/.hidden" = true
  /\ shouldIgnoreFile example_lib "/sync/notes.txt~" = true
  /\ shouldIgnoreFile example_lib "/sync/a.tmp" = true
  /\ shouldIgnoreFile example_lib "/sync/server.log" = true
  /\ shouldIgnoreFile example_lib "/sync/node_modules/x.js" = true
  /\ shouldIgnoreFile example_lib "/sync/.git/config" = true
  /\ shouldIgnoreFile example_lib "/sync/docs/notes.txt" = false.
Proof. vm_compute. repeat split; reflexivity. Qed.

End ClientFacts.

(** ** The routes of the server: round trips, failures, isolation *)

Module ServerExtra.
Import Js Server ServerSpec ServerMore.
Import ServerFacts.

(** The position of a call, counted from the calls already made. *)
Ltac count_calls :=
  rewrite ?length_app; cbn [length]; rewrite <- ?Nat.add_assoc; cbn [Nat.add].

Lemma calm_0 (n : nat) (w : World) :
  calm (S n) w -> outage w (length (calls w)) = false.
Proof. intros H. specialize (H 0%nat ltac:(lia)). now rewrite Nat.add_0_r in H. Qed.

Lemma calm_1 (n : nat) (w : World) (c : Call) :
  calm (S (S n)) w -> outage w (length (calls w ++ [c])) = false.
Proof.
  intros H. specialize (H 1%nat ltac:(lia)).
  now rewrite length_app.
Qed.

Lemma calm_2 (n : nat) (w : World) (c1 c2 : Call) :
  calm (S (S (S n))) w -> outage w (length ((calls w ++ [c1]) ++ [c2])) = false.
Proof.
  intros H. specialize (H 2%nat ltac:(lia)).
  rewrite !length_app. cbn. now rewrite <- Nat.add_assoc.
Qed.

Lemma calm_3 (n : nat) (w : World) (c1 c2 c3 : Call) :
  calm (S (S (S (S n)))) w ->
  outage w (length (((calls w ++ [c1]) ++ [c2]) ++ [c3])) = false.
Proof.
  intros H. specialize (H 3%nat ltac:(lia)).
  rewrite !length_app. cbn. now rewrite <- !Nat.add_assoc.
Qed.

(** The record an upload answered 201 has inserted, and the object it has
    put into the bucket. *)
Lemma upload_created_record
    (lib : NodeLib) (BUCKET_NAME : string) (env : ProcessEnv)
    (req : UploadRequest) (part : FilePart) (w : World) (msg : string) (f : FileJson) :
  req_part req = Some part ->
  fst (post_upload lib BUCKET_NAME env req w) = Json 201 (UploadBody msg f) ->
  let w' := snd (post_upload lib BUCKET_NAME env req w) in
  exists r,
    files w' = (files w ++ [r])%list
    /\ now w' = now w
    /\ id r = j_id f /\ user_id r = req_user_id req
    /\ filename r = part_filename part
    /\ file_size r = byteLength (part_content part)
    /\ file_hash r = sha256_hex lib (part_content part)
    /\ mime_type r = part_mimetype part
    /\ status r = "active"
    /\ (url_key <$> j_s3Url f) = Some (minio_key r)
    /\ bucket w' = <[minio_key r :=
                      mkObject (part_content part) (part_mimetype part)
                        (sha256_hex lib (part_content part))]> (bucket w)
    /\ (forall r0, In r0 (files w) -> id r0 <> id r).
Proof.
  intros Hpart. unfold post_upload, upload_single. rewrite Hpart.
  destruct (fileSize_limit <? byteLength (part_content part)); [discriminate |].
  unfold_routes. unfold calculateFileHash. cbn [buffer originalname mimetype size].
  next_call; [cbn; discriminate |].
  cbn [files with_calls].
  match goal with |- context [List.filter ?q ?l] => destruct (List.filter q l) as [|fr rest] end.
  - cbn. next_call; [cbn; discriminate |]. cbn.
    next_call; cbn; (next_call; [cbn; discriminate |]); cbn;
      match goal with |- context [existsb ?q ?l] => destruct (existsb q l) eqn:Ex end;
      cbn; try discriminate; intros [= <- <-]; eexists;
      (split; [reflexivity |]); cbn; repeat split; try reflexivity;
      intros r0 Hin Heq;
      (assert (Ht : existsb (fun r1 => String.eqb (id r1) (entropy w (S (drawn w))))
                      (files w) = true)
         by (apply existsb_exists; exists r0; split;
             [exact Hin | now apply String.eqb_eq]));
      congruence.
  - destruct (local_url_differs (body_localUrl req) fr).
    + destruct (body_localUrl req) as [u|]; cbn.
      * next_call; [cbn; discriminate |]. cbn. next_call; cbn; discriminate.
      * next_call; cbn; discriminate.
    + cbn. next_call; cbn; discriminate.
Qed.

(** A download of a record that the selection finds, when the database and
    MinIO answer. *)
Lemma download_found (BUCKET_NAME uid fileId : string) (w : World)
    (r : FileRow) (rest : list FileRow) :
  List.filter (fun r => String.eqb (id r) fileId && String.eqb (user_id r) uid
                        && String.eqb (status r) "active") (files w) = r :: rest ->
  calm 2 w ->
  fst (get_download BUCKET_NAME uid fileId w)
  = Json 200
      (DownloadBody
         {| d_id := id r; d_filename := filename r; d_filePath := file_path r;
            d_fileSize := file_size r; d_mimeType := mime_type r |}
         (PresignedUrl BUCKET_NAME (minio_key r) (24 * 60 * 60) (now w))).
Proof.
  intros Hsel Hcalm. unfold_routes.
  rewrite (calm_0 _ _ Hcalm). cbn [files with_calls]. rewrite Hsel. cbn.
  rewrite (calm_1 _ _ _ Hcalm). reflexivity.
Qed.

Lemma filter_none {A} (p : A -> bool) (l : list A) :
  (forall x, In x l -> p x = false) -> List.filter p l = [].
Proof.
  induction l as [|x l IH]; cbn; [reflexivity |].
  intros H. rewrite (H x (or_introl eq_refl)). apply IH. intros y Hy. apply H. now right.
Qed.

(** X1.  An upload answered 201 has appended one active record of the user
    with the name, size, type and hash of the part, under an identifier no
    other record has, and the bucket holds the bytes of the part under the
    key of that record; the URL of the answer is for that key.  A download of
    the answered identifier by the same user, when the database and MinIO
    answer, is answered 200 with a URL for the same key, signed for 24
    hours. *)
Theorem upload_then_download_round_trip
    (lib : NodeLib) (BUCKET_NAME : string) (env : ProcessEnv)
    (req : UploadRequest) (part : FilePart) (w : World) (msg : string) (f : FileJson) :
  req_part req = Some part ->
  fst (post_upload lib BUCKET_NAME env req w) = Json 201 (UploadBody msg f) ->
  let w' := snd (post_upload lib BUCKET_NAME env req w) in
  exists r,
    files w' = (files w ++ [r])%list
    /\ id r = j_id f /\ user_id r = req_user_id req
    /\ filename r = part_filename part
    /\ file_size r = byteLength (part_content part)
    /\ file_hash r = sha256_hex lib (part_content part)
    /\ status r = "active"
    /\ (url_key <$> j_s3Url f) = Some (minio_key r)
    /\ bucket w' !! minio_key r
       = Some (mkObject (part_content part) (part_mimetype part)
                 (sha256_hex lib (part_content part)))
    /\ (calm 2 w' ->
        fst (get_download BUCKET_NAME (req_user_id req) (j_id f) w')
        = Json 200
            (DownloadBody
               {| d_id := j_id f; d_filename := part_filename part;
                  d_filePath := file_path r;
                  d_fileSize := byteLength (part_content part);
                  d_mimeType := part_mimetype part |}
               (PresignedUrl BUCKET_NAME (minio_key r) (24 * 60 * 60) (now w)))).
Proof.
  intros Hpart H201 w'.
  destruct (upload_created_record lib BUCKET_NAME env req part w msg f Hpart H201)
    as (r & Hfiles & Hnow & Hid & Hu & Hn & Hs & Hh & Hm & Hst & Hk & Hb & Hfresh).
  fold w' in Hfiles, Hnow, Hb.
  exists r. repeat (split; [assumption |]).
  split; [rewrite Hb; apply lookup_insert_eq |].
  intros Hcalm.
  assert (Hsel : List.filter
            (fun r0 => String.eqb (id r0) (j_id f)
                       && String.eqb (user_id r0) (req_user_id req)
                       && String.eqb (status r0) "active") (files w') = [r]).
  { rewrite Hfiles, List.filter_app, filter_none.
    - cbn. now rewrite Hid, Hu, Hst, !String.eqb_refl.
    - intros x Hx. destruct (String.eqb_spec (id x) (j_id f)) as [Hx' | _];
        [| reflexivity].
      destruct (Hfresh x Hx). congruence. }
  rewrite (download_found BUCKET_NAME _ _ w' r [] Hsel Hcalm).
  now rewrite Hid, Hn, Hs, Hm, Hnow.
Qed.

(** The theorem at the first example upload. *)
Lemma upload_then_download_round_trip_witness :
  bucket world_after_hello !! "users/u1/files/uuid-0/a.txt"
  = Some (mkObject (Buffer_from "hello") "text/plain" "sha256:hello")
  /\ fst (get_download example_bucket "u1" "uuid-1" world_after_hello)
     = Json 200
         (DownloadBody
            {| d_id := "uuid-1"; d_filename := "a.txt"; d_filePath := "docs/a.txt";
               d_fileSize := 5; d_mimeType := "text/plain" |}
            (PresignedUrl "filesync-bucket" "users/u1/files/uuid-0/a.txt"
               (24 * 60 * 60) 1000)).
Proof.
  destruct (upload_then_download_round_trip example_lib example_bucket example_env
              hello_request _ (fresh_world 1000) _ _ eq_refl
              world_after_hello_answer)
    as (r & Hfiles & _ & _ & _ & _ & _ & _ & _ & Hb & Hd).
  assert (Hr : r = hello_record).
  { change (files world_after_hello = ([] ++ [r])%list) in Hfiles.
    rewrite world_after_hello_record in Hfiles. now injection Hfiles as <-. }
  subst r. split; [exact Hb |].
  apply Hd. intros k _. reflexivity.
Defined.

(** *** Calls that fail half way *)

Lemma first_match_None (uid hash : string) (w : World) :
  first_match uid hash w = None ->
  List.filter (fun r => String.eqb (user_id r) uid && String.eqb (file_hash r) hash
                        && String.eqb (status r) "active") (files w) = [].
Proof.
  unfold first_match. now destruct (List.filter _ (files w)).
Qed.

(** X2.  An upload of content the user has no active record of: when the
    call to [putObject] fails, the error goes to [next] and neither the
    bucket nor the table has changed; when the object is stored and the
    [INSERT] fails, the error goes to [next], the table is as it was, and the
    object stays in the bucket under the new key, with no record for it. *)
Theorem upload_failures_half_way
    (lib : NodeLib) (BUCKET_NAME : string) (env : ProcessEnv)
    (req : UploadRequest) (part : FilePart) (w : World) :
  req_part req = Some part ->
  byteLength (part_content part) <= fileSize_limit ->
  first_match (req_user_id req) (sha256_hex lib (part_content part)) w = None ->
  calm 1 w ->
  let out := post_upload lib BUCKET_NAME env req w in
  let key := "users/" ++ req_user_id req ++ "/files/" ++ entropy w (drawn w)
             ++ "/" ++ part_filename part in
  (outage w (length (calls w) + 1) = true ->
     fst out = Next (MinioError "putObject")
     /\ files (snd out) = files w /\ bucket (snd out) = bucket w)
  /\ (outage w (length (calls w) + 1) = false ->
      outage w (length (calls w) + 3) = true ->
        fst out = Next (DbError "insert")
        /\ files (snd out) = files w
        /\ bucket (snd out)
           = <[key := mkObject (part_content part) (part_mimetype part)
                        (sha256_hex lib (part_content part))]> (bucket w)).
Proof.
  intros Hpart Hsmall Hnone Hcalm.
  apply first_match_None in Hnone.
  unfold post_upload, upload_single. rewrite Hpart.
  assert (Hs : (fileSize_limit <? byteLength (part_content part)) = false)
    by now apply N.ltb_ge.
  rewrite Hs.
  unfold_routes. unfold calculateFileHash. cbn [buffer originalname mimetype size].
  rewrite (calm_0 _ _ Hcalm). cbn [files with_calls]. rewrite Hnone. cbn.
  count_calls.
  split.
  - intros Hput. rewrite Hput. cbn. auto.
  - intros Hput Hins. rewrite Hput. cbn. count_calls.
    destruct (outage w (length (calls w) + 2)); cbn; count_calls;
      rewrite Hins; cbn; auto.
Qed.

(** The theorem at the first example upload, with [putObject] failing, and
    with the [INSERT] failing. *)
Lemma upload_failures_half_way_witness :
  bucket (snd (example_post hello_request (failing_at 1 (fresh_world 1000)))) = ∅
  /\ files (snd (example_post hello_request (failing_at 3 (fresh_world 1000)))) = []
  /\ bucket (snd (example_post hello_request (failing_at 3 (fresh_world 1000))))
       !! "users/u1/files/uuid-0/a.txt"
     = Some (mkObject (Buffer_from "hello") "text/plain" "sha256:hello").
Proof.
  split; [| split].
  - apply (upload_failures_half_way example_lib example_bucket example_env
             hello_request _ (failing_at 1 (fresh_world 1000)) eq_refl).
    + cbn. discriminate.
    + reflexivity.
    + intros k Hk. assert (k = 0)%nat as -> by lia. reflexivity.
    + reflexivity.
  - apply (upload_failures_half_way example_lib example_bucket example_env
             hello_request _ (failing_at 3 (fresh_world 1000)) eq_refl).
    + cbn. discriminate.
    + reflexivity.
    + intros k Hk. assert (k = 0)%nat as -> by lia. reflexivity.
    + reflexivity.
    + reflexivity.
  - destruct (upload_failures_half_way example_lib example_bucket example_env
                hello_request _ (failing_at 3 (fresh_world 1000)) eq_refl)
      as [_ Hins].
    + cbn. discriminate.
    + reflexivity.
    + intros k Hk. assert (k = 0)%nat as -> by lia. reflexivity.
    + destruct (Hins eq_refl eq_refl) as (_ & _ & Hb).
      unfold example_post. rewrite Hb. apply lookup_insert_eq.
Defined.

(** X3.  A deletion of an active record of the user: when the call to
    [removeObject] fails, nothing has changed; when the object is removed and
    the [UPDATE] fails, the error goes to [next], the object is gone and the
    record is still in the table as it was, active.  Deleting again, with
    the database and MinIO answering, is then answered 200. *)
Theorem delete_failures_half_way (uid fileId : string) (w : World)
    (r : FileRow) (rest : list FileRow) :
  List.filter (fun r => String.eqb (id r) fileId && String.eqb (user_id r) uid
                        && String.eqb (status r) "active") (files w) = r :: rest ->
  calm 1 w ->
  let out := delete_file uid fileId w in
  (outage w (length (calls w) + 1) = true ->
     fst out = Next (MinioError "removeObject")
     /\ files (snd out) = files w /\ bucket (snd out) = bucket w)
  /\ (outage w (length (calls w) + 1) = false ->
      outage w (length (calls w) + 2) = true ->
        fst out = Next (DbError "update")
        /\ files (snd out) = files w
        /\ bucket (snd out) = delete (minio_key r) (bucket w)
        /\ (calm 3 (snd out) ->
            fst (delete_file uid fileId (snd out))
            = Json 200 (MessageBody "File deleted successfully"))).
Proof.
  intros Hsel Hcalm. unfold_routes.
  rewrite (calm_0 _ _ Hcalm). cbn [files with_calls]. rewrite Hsel. cbn.
  count_calls.
  split.
  - intros Hrm. rewrite Hrm. cbn. auto.
  - intros Hrm Hup. rewrite Hrm. cbn. count_calls. rewrite Hup. cbn.
    repeat split.
    intros Hcalm'.
    assert (H0 := Hcalm' 0%nat ltac:(lia)).
    assert (H1 := Hcalm' 1%nat ltac:(lia)).
    assert (H2 := Hcalm' 2%nat ltac:(lia)).
    cbn in H0, H1, H2.
    rewrite ?length_app in H0, H1, H2. cbn [length] in H0, H1, H2.
    rewrite <- ?Nat.add_assoc in H0, H1, H2. cbn [Nat.add] in H0, H1, H2.
    count_calls. rewrite H0. cbn. rewrite Hsel. cbn.
    count_calls. rewrite H1. cbn. count_calls. rewrite H2. reflexivity.
Qed.

(** The theorem at the deletion of the first example upload, with the
    [UPDATE] failing. *)
Lemma delete_failures_half_way_witness :
  let out := delete_file "u1" "uuid-1" (failing_at 2 world_after_hello) in
  fst out = Next (DbError "update")
  /\ files (snd out) = [hello_record]
  /\ bucket (snd out) !! "users/u1/files/uuid-0/a.txt" = None.
Proof.
  destruct (delete_failures_half_way "u1" "uuid-1" (failing_at 2 world_after_hello)
              hello_record [])
    as [_ Hup].
  - vm_compute. reflexivity.
  - intros k Hk. assert (k = 0)%nat as -> by lia. reflexivity.
  - destruct (Hup eq_refl eq_refl) as (Ha & Hf & Hb & _).
    split; [exact Ha |]. split.
    + rewrite Hf. apply world_after_hello_record.
    + rewrite Hb. apply lookup_delete_eq.
Defined.

(** *** Records of other users, and records deleted *)

Lemma download_absent (BUCKET_NAME uid fileId : string) (w : World) :
  absent uid fileId w ->
  let out := get_download BUCKET_NAME uid fileId w in
  is_error (fst out) = true
  /\ files (snd out) = files w /\ bucket (snd out) = bucket w
  /\ calls (snd out) = (calls w ++ [DbSelect])%list
  /\ (outage w (length (calls w)) = false ->
      fst out = Json 404 (ErrorBody "File not found")).
Proof.
  intros Habs. unfold_routes. next_call; [cbn; intuition congruence |].
  cbn [files with_calls]. rewrite (select_absent _ _ _ Habs). cbn. auto.
Qed.

Lemma delete_absent_calls (uid fileId : string) (w : World) :
  absent uid fileId w ->
  calls (snd (delete_file uid fileId w)) = (calls w ++ [DbSelect])%list.
Proof.
  intros Habs. unfold_routes. next_call; [reflexivity |].
  cbn [files with_calls]. rewrite (select_absent _ _ _ Habs). reflexivity.
Qed.

(** X4.  A user who asks to download or to delete by the identifier of a
    record that is not theirs is answered with an error, 404 "File not
    found" when the database answers, as if the record did not exist: table
    and bucket stay as they were, and beyond the one [SELECT] no call is
    made: no URL is signed, no object is removed. *)
Theorem records_of_others_are_out_of_reach
    (BUCKET_NAME uid fileId : string) (w : World) :
  (forall r, In r (files w) -> id r = fileId -> user_id r <> uid) ->
  let down := get_download BUCKET_NAME uid fileId w in
  let del := delete_file uid fileId w in
  (is_error (fst down) = true /\ is_error (fst del) = true)
  /\ (files (snd down) = files w /\ files (snd del) = files w)
  /\ (bucket (snd down) = bucket w /\ bucket (snd del) = bucket w)
  /\ (calls (snd down) = (calls w ++ [DbSelect])%list
      /\ calls (snd del) = (calls w ++ [DbSelect])%list)
  /\ (outage w (length (calls w)) = false ->
      fst down = Json 404 (ErrorBody "File not found")
      /\ fst del = Json 404 (ErrorBody "File not found")).
Proof.
  intros Hother down del.
  assert (Habs : absent uid fileId w).
  { intros r Hin (Hid & Hu & _). exact (Hother r Hin Hid Hu). }
  destruct (download_absent BUCKET_NAME uid fileId w Habs) as (He & Hf & Hb & Hc & H404).
  destruct (delete_absent uid fileId w Habs) as (He' & Hf' & Hb' & H404').
  pose proof (delete_absent_calls uid fileId w Habs) as Hc'.
  repeat split; auto.
Qed.

(** The theorem at the record of [u1], asked for by [u2]. *)
Lemma records_of_others_are_out_of_reach_witness :
  fst (get_download example_bucket "u2" "uuid-1" world_after_hello)
  = Json 404 (ErrorBody "File not found")
  /\ fst (delete_file "u2" "uuid-1" world_after_hello)
     = Json 404 (ErrorBody "File not found")
  /\ bucket (snd (delete_file "u2" "uuid-1" world_after_hello))
     = bucket world_after_hello.
Proof.
  destruct (records_of_others_are_out_of_reach example_bucket "u2" "uuid-1"
              world_after_hello)
    as (_ & _ & (_ & Hb) & _ & H404).
  - intros r Hin _. rewrite world_after_hello_record in Hin.
    destruct Hin as [<- | []]. discriminate.
  - destruct (H404 eq_refl) as [Hd Hx]. auto.
Defined.

(** X5.  After a deletion answered without error, a download of the same
    identifier by the same user is answered with an error, 404 "File not
    found" when the database answers, and signs no URL. *)
Theorem deleted_record_is_not_downloadable
    (BUCKET_NAME uid fileId : string) (w : World) :
  is_error (fst (delete_file uid fileId w)) = false ->
  let w' := snd (delete_file uid fileId w) in
  let down := get_download BUCKET_NAME uid fileId w' in
  is_error (fst down) = true
  /\ calls (snd down) = (calls w' ++ [DbSelect])%list
  /\ (outage w' (length (calls w')) = false ->
      fst down = Json 404 (ErrorBody "File not found")).
Proof.
  intros Hok w' down.
  destruct (delete_done uid fileId w Hok) as [_ Habs].
  destruct (download_absent BUCKET_NAME uid fileId w' Habs) as (He & _ & _ & Hc & H404).
  auto.
Qed.

(** The theorem at the first example upload, deleted. *)
Lemma deleted_record_is_not_downloadable_witness :
  fst (get_download example_bucket "u1" "uuid-1" world_after_hello_deleted)
  = Json 404 (ErrorBody "File not found").
Proof.
  apply (deleted_record_is_not_downloadable example_bucket "u1" "uuid-1"
           world_after_hello); reflexivity.
Defined.

(** *** One record per content *)

Lemma active_keys_local_url (u fileId : string) (t : N) (rows : list FileRow) :
  List.map owner_and_hash
    (List.filter is_active
       (List.map (fun r => if String.eqb (id r) fileId
                           then set_local_url u t r else r) rows))
  = List.map owner_and_hash (List.filter is_active rows).
Proof.
  rewrite filter_map_invariant
    by (intros x; now destruct (String.eqb (id x) fileId)).
  rewrite List.map_map. apply List.map_ext.
  intros x. now destruct (String.eqb (id x) fileId).
Qed.

Lemma active_keys_deleted_in (fileId : string) (t : N) (rows : list FileRow)
    (k : string * string) :
  In k (List.map owner_and_hash
          (List.filter is_active
             (List.map (fun r => if String.eqb (id r) fileId
                                 then set_status "deleted" t r else r) rows))) ->
  In k (List.map owner_and_hash (List.filter is_active rows)).
Proof.
  induction rows as [|x rows IH]; cbn; [auto |].
  destruct (String.eqb (id x) fileId); cbn.
  - intros H. destruct (is_active x); cbn; auto.
  - destruct (is_active x); cbn; [| exact IH].
    intros [H | H]; auto.
Qed.

Lemma active_keys_deleted (fileId : string) (t : N) (rows : list FileRow) :
  NoDup (List.map owner_and_hash (List.filter is_active rows)) ->
  NoDup (List.map owner_and_hash
           (List.filter is_active
              (List.map (fun r => if String.eqb (id r) fileId
                                  then set_status "deleted" t r else r) rows))).
Proof.
  induction rows as [|x rows IH]; cbn; [auto |].
  destruct (String.eqb (id x) fileId); cbn.
  - destruct (is_active x); cbn; [| exact IH].
    intros H. apply NoDup_cons in H as [_ H]. now apply IH.
  - destruct (is_active x); cbn; [| exact IH].
    intros H. apply NoDup_cons in H as [Hx H]. apply NoDup_cons. split.
    + intros Hin. apply Hx. apply list_elem_of_In.
      apply (active_keys_deleted_in fileId t). now apply list_elem_of_In.
    + now apply IH.
Qed.

Lemma active_keys_new (rows : list FileRow) (row : FileRow) :
  status row = "active" ->
  List.filter (fun r => String.eqb (user_id r) (user_id row)
                        && String.eqb (file_hash r) (file_hash row)
                        && String.eqb (status r) "active") rows = [] ->
  NoDup (List.map owner_and_hash (List.filter is_active rows)) ->
  NoDup (List.map owner_and_hash (List.filter is_active (rows ++ [row]))).
Proof.
  intros Hact Hnone Hnd.
  rewrite List.filter_app, List.map_app. cbn. unfold is_active at 2.
  rewrite Hact. cbn.
  apply NoDup_app. split; [exact Hnd |]. split; [| apply NoDup_singleton].
  intros k Hk Hk'. apply list_elem_of_singleton in Hk'. subst k.
  apply list_elem_of_In, in_map_iff in Hk as (r & Hr & Hin).
  apply filter_In in Hin as [Hin Hra].
  assert (Hm : In r (List.filter (fun r => String.eqb (user_id r) (user_id row)
                        && String.eqb (file_hash r) (file_hash row)
                        && String.eqb (status r) "active") rows)).
  { apply filter_In. split; [exact Hin |].
    injection Hr as Hu Hh. rewrite Hu, Hh, !String.eqb_refl. exact Hra. }
  rewrite Hnone in Hm. destruct Hm.
Qed.

(** Served one at a time, the routes keep the uploads of a user apart by
    content: if no user has two active records with one hash, then after an
    upload, a download or a deletion that no other request overlaps, however
    its calls go, no user has. *)
Lemma routes_in_turn_keep_one_record_per_hash
    (lib : NodeLib) (BUCKET_NAME : string) (env : ProcessEnv) (w : World) :
  one_record_per_hash w ->
  (forall req, one_record_per_hash (snd (post_upload lib BUCKET_NAME env req w)))
  /\ (forall uid fileId,
        one_record_per_hash (snd (get_download BUCKET_NAME uid fileId w)))
  /\ (forall uid fileId, one_record_per_hash (snd (delete_file uid fileId w))).
Proof.
  unfold one_record_per_hash. fold owner_and_hash. intros Hw.
  split; [| split].
  - intros req. unfold post_upload, upload_single.
    destruct (req_part req) as [p|]; [| unfold_routes; exact Hw].
    destruct (fileSize_limit <? byteLength (part_content p)); [exact Hw |].
    unfold_routes. unfold calculateFileHash. cbn [buffer originalname mimetype size].
    next_call; [exact Hw |].
    cbn [files with_calls].
    match goal with
    | |- context [match List.filter ?q (files w) with _ => _ end] =>
        destruct (List.filter q (files w)) as [|fr rest] eqn:Ef
    end.
    + cbn. next_call; [exact Hw |]. cbn.
      next_call; cbn; (next_call; [exact Hw |]); cbn;
        match goal with |- context [existsb ?q ?l] => destruct (existsb q l) end;
        cbn; try exact Hw;
        (apply active_keys_new; [reflexivity | exact Ef | exact Hw]).
    + destruct (local_url_differs (body_localUrl req) fr).
      * destruct (body_localUrl req) as [u|]; cbn.
        -- next_call; [exact Hw |]. cbn.
           next_call; cbn; rewrite active_keys_local_url; exact Hw.
        -- next_call; exact Hw.
      * cbn. next_call; exact Hw.
  - intros uid fileId. rewrite download_keeps_records. exact Hw.
  - intros uid fileId. unfold_routes. next_call; [exact Hw |].
    cbn [files with_calls].
    match goal with
    | |- context [match List.filter ?q (files w) with _ => _ end] =>
        destruct (List.filter q (files w)) as [|fr rest]
    end; cbn; [exact Hw |].
    next_call; [exact Hw |]. cbn. next_call; cbn; [exact Hw |].
    now apply active_keys_deleted.
Qed.

(** *** Two uploads at once *)

(** The two parts are the handler. *)
Lemma upload_handler_in_two_parts
    (lib : NodeLib) (BUCKET_NAME : string) (env : ProcessEnv)
    (uid : string) (f : MulterFile) (filePath localUrl : option string) (w : World) :
  match upload_handler lib BUCKET_NAME env uid (Some f) filePath localUrl w with
  | (Resolved r, w') => (r, w')
  | (Rejected e, w') => (Next e, w')
  end
  = answered (bind (upload_begin lib uid f)
                (upload_finish lib BUCKET_NAME env uid f filePath localUrl)) w.
Proof. reflexivity. Qed.




(** *** Content the user does not have yet *)

(** X7.  The duplicate check is per user.  When the user has no active
    record with the hash of the part, whoever else has one, and the database
    and MinIO answer, the upload makes four calls, [SELECT], [putObject],
    [presignedGetObject] and [INSERT], and is answered 201 with the new
    record, whose identifier and key hold the next two random identifiers. *)
Theorem upload_of_content_new_to_the_user
    (lib : NodeLib) (BUCKET_NAME : string) (env : ProcessEnv)
    (req : UploadRequest) (part : FilePart) (w : World) :
  req_part req = Some part ->
  byteLength (part_content part) <= fileSize_limit ->
  first_match (req_user_id req) (sha256_hex lib (part_content part)) w = None ->
  calm 4 w ->
  (forall r, In r (files w) -> id r <> entropy w (S (drawn w))) ->
  let out := post_upload lib BUCKET_NAME env req w in
  let key := "users/" ++ req_user_id req ++ "/files/" ++ entropy w (drawn w)
             ++ "/" ++ part_filename part in
  calls (snd out)
  = (calls w ++ [DbSelect; PutObject key; PresignedGetObject key (60 * 60); DbInsert])%list
  /\ drawn (snd out) = S (S (drawn w))
  /\ fst out
     = Json 201
         (UploadBody "File uploaded successfully"
            {| j_id := entropy w (S (drawn w));
               j_filename := part_filename part;
               j_filePath :=
                 backslashes_to_slashes
                   (path_join lib
                      (match body_filePath req with Some fp => fp | None => "/" end)
                      (part_filename part));
               j_fileSize := byteLength (part_content part);
               j_fileHash := sha256_hex lib (part_content part);
               j_mimeType := part_mimetype part;
               j_localUrl := body_localUrl req;
               j_s3Url := Some (PresignedUrl BUCKET_NAME key (60 * 60) (now w));
               j_createdAt := now w |}).
Proof.
  intros Hpart Hsmall Hnone Hcalm Hfresh.
  apply first_match_None in Hnone.
  unfold post_upload, upload_single. rewrite Hpart.
  assert (Hs : (fileSize_limit <? byteLength (part_content part)) = false)
    by now apply N.ltb_ge.
  rewrite Hs.
  unfold_routes. unfold calculateFileHash. cbn [buffer originalname mimetype size].
  rewrite (calm_0 _ _ Hcalm). cbn [files with_calls]. rewrite Hnone. cbn.
  rewrite (calm_1 _ _ _ Hcalm). cbn.
  rewrite (calm_2 _ _ _ _ Hcalm). cbn.
  rewrite (calm_3 _ _ _ _ _ Hcalm). cbn.
  assert (Hex : existsb (fun r => String.eqb (id r) (entropy w (S (drawn w))))
                  (files w) = false).
  { destruct (existsb _ (files w)) eqn:Ex; [| reflexivity].
    apply existsb_exists in Ex as (r & Hin & Heq).
    apply String.eqb_eq in Heq. destruct (Hfresh r Hin Heq). }
  rewrite Hex. cbn. rewrite <- !app_assoc. auto.
Qed.

(** The theorem at the upload by [u2] of the content [u1] has uploaded. *)
Lemma upload_of_content_new_to_the_user_witness :
  List.filter is_put
    (calls (snd (example_post (upload_of "u2" "b.txt" "hello" None None)
                   world_after_hello)))
  = [PutObject "users/u1/files/uuid-0/a.txt"; PutObject "users/u2/files/uuid-2/b.txt"].
Proof.
  destruct (upload_of_content_new_to_the_user example_lib example_bucket
              example_env (upload_of "u2" "b.txt" "hello" None None) _
              world_after_hello eq_refl)
    as (Hcalls & _).
  - cbn. discriminate.
  - reflexivity.
  - intros k _. reflexivity.
  - intros r Hin. rewrite world_after_hello_record in Hin.
    destruct Hin as [<- | []]. discriminate.
  - unfold example_post. rewrite Hcalls. reflexivity.
Defined.

(** X8.  An upload of content the user has an active record of writes to
    the table only when the form has a non-empty [localUrl] other than the
    one stored: then, when the database answers, the [local_url] of the
    record found becomes the one sent and its [updated_at] the time of the
    request, every other column and every record with another identifier
    stays, and the answer reports the new [localUrl]. *)
Theorem duplicate_upload_updates_local_url
    (lib : NodeLib) (BUCKET_NAME : string) (env : ProcessEnv)
    (req : UploadRequest) (part : FilePart) (w : World)
    (fr : FileRow) (rest : list FileRow) :
  req_part req = Some part ->
  byteLength (part_content part) <= fileSize_limit ->
  List.filter (fun r => String.eqb (user_id r) (req_user_id req)
                        && String.eqb (file_hash r) (sha256_hex lib (part_content part))
                        && String.eqb (status r) "active") (files w) = fr :: rest ->
  let out := post_upload lib BUCKET_NAME env req w in
  (local_url_differs (body_localUrl req) fr = false -> files (snd out) = files w)
  /\ (forall u, body_localUrl req = Some u -> u <> "" -> local_url fr <> Some u ->
        calm 2 w ->
        files (snd out)
        = List.map (fun r => if String.eqb (id r) (id fr)
                             then set_local_url u (now w) r else r) (files w)
        /\ (j_localUrl <$> response_file (fst out)) = Some (Some u)).
Proof.
  intros Hpart Hsmall Hsel.
  unfold post_upload, upload_single. rewrite Hpart.
  assert (Hs : (fileSize_limit <? byteLength (part_content part)) = false)
    by now apply N.ltb_ge.
  rewrite Hs.
  unfold_routes. unfold calculateFileHash. cbn [buffer originalname mimetype size].
  split.
  - intros Hsame. next_call; [reflexivity |].
    cbn [files with_calls]. rewrite Hsel, Hsame. cbn. next_call; reflexivity.
  - intros u Hu Hne Hold Hcalm.
    assert (Hd : local_url_differs (Some u) fr = true).
    { unfold local_url_differs. destruct u as [|c u]; [congruence |].
      destruct (local_url fr) as [v|]; [| reflexivity].
      destruct (String.eqb_spec v (String c u)); [congruence | reflexivity]. }
    rewrite (calm_0 _ _ Hcalm). cbn [files with_calls]. rewrite Hsel, Hu, Hd. cbn.
    rewrite (calm_1 _ _ _ Hcalm). cbn. next_call; cbn; auto.
Qed.

(** The theorem at the second example upload, from the other device. *)
Lemma duplicate_upload_updates_local_url_witness :
  List.map local_url
    (files (snd (example_post hello_again_request world_after_hello)))
  = [Some "/home/y/sync/other/copy.txt"].
Proof.
  destruct (duplicate_upload_updates_local_url example_lib example_bucket
              example_env hello_again_request _ world_after_hello hello_record []
              eq_refl)
    as [_ Hup].
  - cbn. discriminate.
  - vm_compute. reflexivity.
  - destruct (Hup "/home/y/sync/other/copy.txt" eq_refl) as [Hf _].
    + discriminate.
    + discriminate.
    + intros k _. reflexivity.
    + unfold example_post. rewrite Hf, world_after_hello_record. reflexivity.
Defined.

(** *** The earlier version of the upload *)

(** X9.  In the earlier version of the route the duplicate check is by
    path.  An upload to a path at which the user has an active record is
    answered with an error, 409 "File already exists at this path" when the
    database answers, and stores nothing.  An upload to a free path, when
    database and MinIO answer, puts the part into the bucket under a new key
    and is answered 201, whether or not its content is already stored. *)
Theorem earlier_upload_checks_path_only
    (lib : NodeLib) (req : UploadRequest) (part : FilePart) (w : World) :
  req_part req = Some part ->
  byteLength (part_content part) <= fileSize_limit ->
  let fullPath :=
    backslashes_to_slashes
      (path_join lib (match body_filePath req with Some fp => fp | None => "/" end)
         (part_filename part)) in
  let taken :=
    List.filter (fun r => String.eqb (user_id r) (req_user_id req)
                          && String.eqb (file_path r) fullPath
                          && String.eqb (status r) "active") (files w) in
  let key := "users/" ++ req_user_id req ++ "/files/" ++ entropy w (drawn w)
             ++ "/" ++ part_filename part in
  let out := post_upload_v1 lib req w in
  (taken <> [] ->
     is_error (fst out) = true
     /\ files (snd out) = files w /\ bucket (snd out) = bucket w
     /\ calls (snd out) = (calls w ++ [DbSelect])%list
     /\ (outage w (length (calls w)) = false ->
         fst out = Json 409 (ErrorBody "File already exists at this path")))
  /\ (taken = [] -> calm 3 w ->
      (forall r, In r (files w) -> id r <> entropy w (S (drawn w))) ->
        calls (snd out) = (calls w ++ [DbSelect; PutObject key; DbInsert])%list
        /\ bucket (snd out)
           = <[key := mkObject (part_content part) (part_mimetype part)
                        (sha256_hex lib (part_content part))]> (bucket w)
        /\ (exists r, files (snd out) = (files w ++ [r])%list
                      /\ file_path r = fullPath /\ minio_key r = key
                      /\ s3_url r = None /\ local_url r = None)
        /\ is_error (fst out) = false).
Proof.
  intros Hpart Hsmall fullPath taken key.
  unfold post_upload_v1, upload_single. rewrite Hpart.
  assert (Hs : (fileSize_limit <? byteLength (part_content part)) = false)
    by now apply N.ltb_ge.
  rewrite Hs.
  unfold_routes. unfold calculateFileHash. cbn [buffer originalname mimetype size].
  fold fullPath. split.
  - intros Htaken. next_call; [cbn; intuition congruence |].
    cbn [files with_calls]. fold taken.
    destruct taken as [|r rest]; [congruence |]. cbn. auto.
  - intros Hfree Hcalm Hfresh.
    rewrite (calm_0 _ _ Hcalm). cbn [files with_calls]. fold taken.
    rewrite Hfree. cbn.
    rewrite (calm_1 _ _ _ Hcalm). cbn.
    rewrite (calm_2 _ _ _ _ Hcalm). cbn.
    assert (Hex : existsb (fun r => String.eqb (id r) (entropy w (S (drawn w))))
                    (files w) = false).
    { destruct (existsb _ (files w)) eqn:Ex; [| reflexivity].
      apply existsb_exists in Ex as (r & Hin & Heq).
      apply String.eqb_eq in Heq. destruct (Hfresh r Hin Heq). }
    rewrite Hex. cbn. rewrite <- !app_assoc.
    repeat split. eexists. split; [reflexivity |]. auto.
Qed.

(** The theorem at the first example upload sent twice, and at the same
    content sent under another name. *)
Lemma earlier_upload_checks_path_only_witness :
  let w1 := snd (post_upload_v1 example_lib hello_request (fresh_world 1000)) in
  fst (post_upload_v1 example_lib hello_request w1)
  = Json 409 (ErrorBody "File already exists at this path")
  /\ is_error (fst (post_upload_v1 example_lib hello_again_request w1)) = false.
Proof.
  intros w1. split.
  - destruct (earlier_upload_checks_path_only example_lib hello_request _ w1 eq_refl)
      as [Htaken _]; [cbn; discriminate |].
    destruct Htaken as (_ & _ & _ & _ & H409); [vm_compute; discriminate |].
    now apply H409.
  - destruct (earlier_upload_checks_path_only example_lib hello_again_request _ w1
                eq_refl)
      as [_ Hfree]; [cbn; discriminate |].
    apply Hfree.
    + vm_compute. reflexivity.
    + intros k _. reflexivity.
    + intros r Hin. vm_compute in Hin. destruct Hin as [<- | []]. discriminate.
Defined.

(** *** What uploads and downloads leave alone *)

(** The lemma on uploads at the record of the first example upload, with the
    same content arriving from the other device. *)
Lemma upload_keeps_records_witness :
  exists r', In r' (files (snd (example_post hello_again_request world_after_hello)))
             /\ id r' = "uuid-1" /\ status r' = "active"
             /\ minio_key r' = "users/u1/files/uuid-0/a.txt".
Proof.
  apply (upload_keeps_records example_lib example_bucket example_env
           hello_again_request world_after_hello hello_record).
  rewrite world_after_hello_record. now left.
Defined.

(** The lemma on downloads at the record of the first example upload. *)
Lemma download_persists_nothing_witness :
  files (snd (get_download example_bucket "u1" "uuid-1" world_after_hello))
  = files world_after_hello
  /\ bucket (snd (get_download example_bucket "u1" "uuid-1" world_after_hello))
     = bucket world_after_hello.
Proof.
  destruct (download_persists_nothing example_bucket "u1" "uuid-1" world_after_hello)
    as (Hf & Hb & _).
  split; [exact Hf | exact Hb].
Defined.

End ServerExtra.

(** ** The listing of files *)

Module ServerListFacts.
Import Js Server ServerList.

#[local] Instance newest_first_trans : Transitive newest_first.
Proof. intros a b c. unfold newest_first. lia. Qed.

#[local] Instance newest_first_total : Total newest_first.
Proof. intros a b. unfold newest_first. lia. Qed.

Lemma StronglySorted_sublist {A} (R : relation A) (l1 l2 : list A) :
  l1 `sublist_of` l2 -> StronglySorted R l2 -> StronglySorted R l1.
Proof.
  induction 1 as [| x l1 l2 Hsub IH | x l1 l2 Hsub IH]; intros Hs.
  - constructor.
  - apply StronglySorted_inv in Hs as [Hs Hall]. constructor; [now apply IH |].
    apply Forall_forall. intros y Hy. rewrite Forall_forall in Hall. apply Hall.
    now apply (elem_of_sublist _ _ _ Hy Hsub).
  - apply StronglySorted_inv in Hs as [Hs _]. now apply IH.
Qed.

Lemma StronglySorted_map {A B} (f : A -> B) (R : relation A) (Q : relation B)
    (l : list A) :
  (forall a b, R a b -> Q (f a) (f b)) ->
  StronglySorted R l -> StronglySorted Q (List.map f l).
Proof.
  intros HRQ. induction 1 as [| x l Hs IH Hall]; cbn; constructor; [exact IH |].
  apply Forall_forall. intros y Hy.
  apply list_elem_of_In, in_map_iff in Hy as (a & <- & Ha).
  apply HRQ. rewrite Forall_forall in Hall. apply Hall. now apply list_elem_of_In.
Qed.

(** What the query answers when the database accepts it. *)
Lemma get_list_rows
    (parseInt : string -> option Z) (sql_like : string -> string -> bool)
    (uid : string) (q : ListQuery) (w : World)
    (rows : list ListedFile) (l o : Z) (t : nat) :
  fst (get_list parseInt sql_like uid q w) = ListJson rows l o t ->
  let filePath := match q_path q with Some p => p | None => "/" end in
  let pattern := if String.eqb filePath "/" then None else Some (filePath ++ "%") in
  parsed parseInt (q_limit q) 50 = Some l
  /\ parsed parseInt (q_offset q) 0 = Some o
  /\ (0 <= l)%Z /\ (0 <= o)%Z
  /\ t = length rows
  /\ rows = List.map listed
              (take (Z.to_nat l)
                 (drop (Z.to_nat o)
                    (merge_sort newest_first
                       (List.filter (selected sql_like uid pattern) (files w)))))
  /\ files (snd (get_list parseInt sql_like uid q w)) = files w
  /\ bucket (snd (get_list parseInt sql_like uid q w)) = bucket w.
Proof.
  unfold get_list, select_page, external.
  destruct (outage w (length (calls w))); [discriminate |].
  destruct (parsed parseInt (q_limit q) 50) as [l'|]; [| discriminate].
  destruct (parsed parseInt (q_offset q) 0) as [o'|]; [| discriminate].
  destruct ((l' <? 0)%Z || (o' <? 0)%Z || (max_bigint <? l')%Z || (max_bigint <? o')%Z)
    eqn:Eb; [discriminate |].
  cbn. intros [= <- <- <- <-].
  apply orb_false_elim in Eb as [Eb _]. apply orb_false_elim in Eb as [Eb _].
  apply orb_false_elim in Eb as [El Eo].
  apply Z.ltb_ge in El, Eo.
  rewrite length_map. repeat split; auto.
Qed.

(** X10.  The files a user is listed are active records of that user, and,
    when a path other than [/] is asked for, their paths match the pattern
    of that path followed by [%]; the route changes neither the table nor the
    bucket. *)
Theorem listing_shows_own_active_files_only
    (parseInt : string -> option Z) (sql_like : string -> string -> bool)
    (uid : string) (q : ListQuery) (w : World)
    (rows : list ListedFile) (l o : Z) (t : nat) :
  fst (get_list parseInt sql_like uid q w) = ListJson rows l o t ->
  files (snd (get_list parseInt sql_like uid q w)) = files w
  /\ bucket (snd (get_list parseInt sql_like uid q w)) = bucket w
  /\ forall f, In f rows ->
       exists r, In r (files w) /\ f = listed r
                 /\ user_id r = uid /\ status r = "active"
                 /\ (forall p, q_path q = Some p -> p <> "/" ->
                       sql_like (file_path r) (p ++ "%") = true).
Proof.
  intros H.
  destruct (get_list_rows parseInt sql_like uid q w rows l o t H)
    as (_ & _ & _ & _ & _ & Hrows & Hf & Hb).
  split; [exact Hf |]. split; [exact Hb |].
  intros f Hin. rewrite Hrows in Hin.
  apply in_map_iff in Hin as (r & <- & Hr).
  apply list_elem_of_In in Hr.
  apply (fun H => elem_of_sublist _ _ _ H (sublist_take _ _)) in Hr.
  apply (fun H => elem_of_sublist _ _ _ H (sublist_drop _ _)) in Hr.
  rewrite (merge_sort_Permutation newest_first) in Hr.
  apply list_elem_of_In, filter_In in Hr as [Hr Hsel].
  unfold selected in Hsel.
  apply andb_prop in Hsel as [Hsel Hlike]. apply andb_prop in Hsel as [Hu Hs].
  apply String.eqb_eq in Hu, Hs.
  exists r. repeat split; auto.
  intros p Hp Hne. rewrite Hp in Hlike.
  destruct (String.eqb_spec p "/") as [Heq | _]; [congruence | exact Hlike].
Qed.

(** The theorem at the world of three files: [u1] is listed its two files
    and not the file of [u2]. *)
Lemma listing_shows_own_active_files_only_witness :
  fst (example_list "u1" (mkListQuery None None None) world_of_three_files)
  = ListJson
      [ mkListed "uuid-3" "notes.txt" "docs/notes.txt" 5 "sha256:world"
          "text/plain" 2000 2000;
        mkListed "uuid-1" "a.txt" "docs/a.txt" 5 "sha256:hello"
          "text/plain" 1000 1000 ] 50 0 2
  /\ forall f, In f [ mkListed "uuid-3" "notes.txt" "docs/notes.txt" 5 "sha256:world"
                        "text/plain" 2000 2000;
                      mkListed "uuid-1" "a.txt" "docs/a.txt" 5 "sha256:hello"
                        "text/plain" 1000 1000 ] ->
       exists r, In r (files world_of_three_files) /\ f = listed r
                 /\ user_id r = "u1" /\ status r = "active".
Proof.
  split; [vm_compute; reflexivity |].
  assert (H : fst (get_list example_parseInt example_like "u1"
                     (mkListQuery None None None) world_of_three_files)
              = ListJson
                  [ mkListed "uuid-3" "notes.txt" "docs/notes.txt" 5 "sha256:world"
                      "text/plain" 2000 2000;
                    mkListed "uuid-1" "a.txt" "docs/a.txt" 5 "sha256:hello"
                      "text/plain" 1000 1000 ] 50 0 2)
    by (vm_compute; reflexivity).
  intros f Hin.
  pose proof (listing_shows_own_active_files_only example_parseInt example_like "u1"
                (mkListQuery None None None) world_of_three_files
                [ mkListed "uuid-3" "notes.txt" "docs/notes.txt" 5 "sha256:world"
                    "text/plain" 2000 2000;
                  mkListed "uuid-1" "a.txt" "docs/a.txt" 5 "sha256:hello"
                    "text/plain" 1000 1000 ] 50 0 2 H) as Hown.
  destruct Hown as (_ & _ & Hall).
  destruct (Hall f Hin) as (r & Hr & Hf & Hu & Hs & _).
  exists r. exact (conj Hr (conj Hf (conj Hu Hs))).
Defined.

(** X11.  The listing is a page: the rows are the user's matching files
    from the newest on, without the first [offset] of them and at most
    [limit] of what is left, and [pagination.total] is the number of rows of
    the page, not the number of files the user has. *)
Theorem listing_is_a_page
    (parseInt : string -> option Z) (sql_like : string -> string -> bool)
    (uid : string) (q : ListQuery) (w : World)
    (rows : list ListedFile) (l o : Z) (t : nat) :
  fst (get_list parseInt sql_like uid q w) = ListJson rows l o t ->
  let filePath := match q_path q with Some p => p | None => "/" end in
  let pattern := if String.eqb filePath "/" then None else Some (filePath ++ "%") in
  let matching := List.filter (selected sql_like uid pattern) (files w) in
  parsed parseInt (q_limit q) 50 = Some l
  /\ parsed parseInt (q_offset q) 0 = Some o
  /\ t = length rows
  /\ length rows = Nat.min (Z.to_nat l) (length matching - Z.to_nat o)
  /\ StronglySorted (fun a b => (l_created_at b <= l_created_at a)%N) rows.
Proof.
  intros H filePath pattern matching.
  destruct (get_list_rows parseInt sql_like uid q w rows l o t H)
    as (Hl & Ho & _ & _ & Ht & Hrows & _).
  fold filePath pattern matching in Hrows.
  split; [exact Hl |]. split; [exact Ho |]. split; [exact Ht |]. split.
  - rewrite Hrows, length_map, length_take, length_drop.
    now rewrite (Permutation_length (merge_sort_Permutation newest_first matching)).
  - rewrite Hrows. apply (StronglySorted_map listed newest_first); [auto |].
    apply (StronglySorted_sublist _ _ (merge_sort newest_first matching)).
    + etransitivity; [apply sublist_take | apply sublist_drop].
    + apply StronglySorted_merge_sort; apply _.
Qed.

(** The theorem at the world of three files, with [limit=1]: [u1] has two
    files, the page has the newer one, and [total] is 1. *)
Lemma listing_is_a_page_witness :
  fst (example_list "u1" (mkListQuery None (Some "1") None) world_of_three_files)
  = ListJson
      [ mkListed "uuid-3" "notes.txt" "docs/notes.txt" 5 "sha256:world"
          "text/plain" 2000 2000 ] 1 0 1
  /\ 1%nat = length [ mkListed "uuid-3" "notes.txt" "docs/notes.txt" 5 "sha256:world"
                       "text/plain" 2000 2000 ].
Proof.
  split; [vm_compute; reflexivity |].
  assert (H : fst (get_list example_parseInt example_like "u1"
                     (mkListQuery None (Some "1") None) world_of_three_files)
              = ListJson
                  [ mkListed "uuid-3" "notes.txt" "docs/notes.txt" 5 "sha256:world"
                      "text/plain" 2000 2000 ] 1 0 1)
    by (vm_compute; reflexivity).
  destruct (listing_is_a_page example_parseInt example_like "u1"
              (mkListQuery None (Some "1") None) world_of_three_files
              [ mkListed "uuid-3" "notes.txt" "docs/notes.txt" 5 "sha256:world"
                  "text/plain" 2000 2000 ] 1 0 1 H) as (_ & _ & Ht & _).
  exact Ht.
Defined.

End ServerListFacts.

(** ** The sync client: cycles, visits, the upload queue *)

Module ClientExtra.
Import Js Client ClientSpec.
Import ClientFacts.

(** *** Visits of one file *)

Lemma skipped_test (lib : NodeLib) (config : Config) (remote : Remote)
    (m : FileMetadata) (d : Device) :
  skipped lib config remote m d
  <-> same_size_on_disk (path_join lib (WATCH_DIRECTORY config) (file_path m)) m d = true.
Proof.
  unfold skipped. unfold_tasks.
  destruct (match disk d !! path_join lib (WATCH_DIRECTORY config) (file_path m) with
            | Some b => strict_equal (byteLength b) (file_size m)
            | None => false
            end); cbn.
  - split; reflexivity.
  - destruct (download remote (id m)); cbn;
      (split; [intros H; now apply app_one_neq in H | discriminate]).
Qed.

(** X12.  After a visit that has written the file, the next visit of the
    same entry skips the transfer exactly when the size the server reports is
    the number of bytes written; when the server reports another size, or a
    size that is no number, the file is transferred again at every visit. *)
Theorem revisit_after_download
    (lib : NodeLib) (config : Config) (remote : Remote)
    (m : FileMetadata) (d : Device) (name : string) (content : Buffer) :
  download remote (id m) = Written name content ->
  ~ skipped lib config remote m d ->
  let d' := snd (downloadFileFromServer lib config remote m d) in
  disk d' !! path_join lib (WATCH_DIRECTORY config) (file_path m) = Some content
  /\ (skipped lib config remote m d' <-> file_size m = JNumber (byteLength content)).
Proof.
  intros Hdl Hnot d'.
  assert (Htest : same_size_on_disk
                    (path_join lib (WATCH_DIRECTORY config) (file_path m)) m d = false).
  { destruct (same_size_on_disk _ m d) eqn:E; [| reflexivity].
    destruct Hnot. now apply skipped_test. }
  assert (Hdisk : disk d'
                  = <[path_join lib (WATCH_DIRECTORY config) (file_path m) := content]>
                      (disk d)).
  { subst d'. unfold same_size_on_disk in Htest. unfold_tasks.
    rewrite Htest, Hdl. reflexivity. }
  split; [rewrite Hdisk; apply lookup_insert_eq |].
  rewrite skipped_test. unfold same_size_on_disk.
  rewrite Hdisk, lookup_insert_eq.
  destruct (file_size m) as [n | s |]; cbn.
  - rewrite N.eqb_eq. split; [now intros -> | now intros [= ->]].
  - split; discriminate.
  - split; discriminate.
Qed.

(** The theorem at the third file of the example server, whose reported
    size is the size of what is written. *)
Lemma revisit_after_download_witness :
  let m := meta "f3" "c.txt" (JNumber 2) "sha256:hi" in
  skipped example_lib example_config example_remote m
    (snd (downloadFileFromServer example_lib example_config example_remote m
            example_device)).
Proof.
  intros m.
  apply (revisit_after_download example_lib example_config example_remote m
           example_device "f3.txt" (Buffer_from "hi") eq_refl).
  - intros H. unfold skipped in H. vm_compute in H. discriminate H.
  - reflexivity.
Defined.

(** X13.  A visit touches no file but its own: every other path of the disk
    holds after the visit what it held before; and when the server refuses
    the URL or the transfer fails before the write, the whole disk is as it
    was. *)
Theorem visit_touches_own_path_only
    (lib : NodeLib) (config : Config) (remote : Remote)
    (m : FileMetadata) (d : Device) :
  let d' := snd (downloadFileFromServer lib config remote m d) in
  (forall p, p <> path_join lib (WATCH_DIRECTORY config) (file_path m) ->
             disk d' !! p = disk d !! p)
  /\ (forall e, download remote (id m) = UrlRejected e
                \/ download remote (id m) = FetchRejected e ->
                disk d' = disk d).
Proof.
  unfold_tasks.
  destruct (match disk d !! path_join lib (WATCH_DIRECTORY config) (file_path m) with
            | Some b => strict_equal (byteLength b) (file_size m)
            | None => false
            end); cbn; [auto |].
  destruct (download remote (id m)); cbn; split; auto;
    try (intros p Hp; now apply lookup_insert_ne);
    intros e0 [H | H]; discriminate H.
Qed.

(** The theorem at the example device, whose [a.txt] stays when [c.txt] is
    written. *)
Lemma visit_touches_own_path_only_witness :
  disk (snd (downloadFileFromServer example_lib example_config example_remote
               (meta "f3" "c.txt" (JNumber 2) "sha256:hi") example_device))
    !! "/sync/a.txt"
  = disk example_device !! "/sync/a.txt".
Proof.
  apply (visit_touches_own_path_only example_lib example_config example_remote).
  discriminate.
Defined.

(** The lemma on sizes that are no numbers, at a size that arrives as the
    string ["4"]. *)
Lemma non_number_size_never_skipped_witness :
  ~ skipped example_lib example_config example_remote
      (meta "f1" "a.txt" (JString "4") "sha256:aaaa") example_device.
Proof.
  apply non_number_size_never_skipped. intros n. discriminate.
Defined.


(** *** Cycles *)

(** The visits of a list never settle only when a download of the list does
    not end. *)
Lemma visits_pending (lib : NodeLib) (config : Config) (remote : Remote)
    (ms : list FileMetadata) (d : Device) :
  fst (for_of ms (downloadFileFromServer lib config remote) d) = pending ->
  Exists (fun m => ~ settles (download remote (id m))) ms.
Proof.
  revert d. induction ms as [| m ms IH]; intros d H; [discriminate H |].
  destruct (downloadFileFromServer lib config remote m d) as [[[] | e] d1] eqn:Ev.
  - rewrite (for_of_next _ _ _ _ _ Ev) in H. apply Exists_cons_tl. now apply (IH d1).
  - apply Exists_cons_hd. intros Hs.
    destruct (visit_done lib config remote m d (or_intror Hs)) as (r & Hres & _).
    rewrite Ev in Hres. discriminate Hres.
Qed.

(** X14.  A cycle does not reject: it resolves or, when a download of the
    server's list does not end, never settles.  When the session cannot be
    opened, the cycle resolves, nothing is asked for beyond that, the disk
    stays as it was, [lastSyncAt] keeps its value, and the console has the
    error as [api.js] writes it (the error of the server's body, if there is
    one) and then as [sync.js] writes it (the message of the error).  When
    the session cannot be completed, or the cycle never settles,
    [lastSyncAt] keeps its value, so that the next cycle asks for the same
    changes again.  [lastSyncAt] moves only in a cycle that resolves after
    its session was opened and completed, and then to the server's time. *)
Theorem performSync_resolves_and_moves_time_on_success_only
    (lib : NodeLib) (config : Config) (remote : Remote) (d : Device) :
  let out := performSync lib config remote d in
  let opening := sync_init remote (DEVICE_ID config) (if_truthy (lastSyncAt d)) in
  (fst out = Resolved tt \/ fst out = pending)
  /\ (forall e, opening = Rejected e ->
        fst out = Resolved tt
        /\ disk (snd out) = disk d
        /\ lastSyncAt (snd out) = lastSyncAt d
        /\ sent (snd out)
           = (sent d ++ [PostSyncInit (DEVICE_ID config) (if_truthy (lastSyncAt d))])%list
        /\ console (snd out)
           = (console d
              ++ [StartingSync; ApiSyncInitFailed (shown e); SyncFailed (message e)])%list)
  /\ (forall data e, opening = Resolved data ->
        sync_complete remote (session_id data) = Rejected e ->
        lastSyncAt (snd out) = lastSyncAt d
        /\ (fst out = Resolved tt ->
            exists before,
              console (snd out)
              = (before ++ [ApiSyncCompleteFailed (shown e); SyncFailed (message e)])%list))
  /\ (fst out = pending ->
      lastSyncAt (snd out) = lastSyncAt d
      /\ exists data,
           opening = Resolved data
           /\ Exists (fun m => ~ settles (download remote (id m))) (changedFiles data))
  /\ (lastSyncAt (snd out) <> lastSyncAt d ->
      fst out = Resolved tt
      /\ exists data, opening = Resolved data
                      /\ sync_complete remote (session_id data) = Resolved tt
                      /\ lastSyncAt (snd out) = Some (serverTime data)).
Proof.
  cbv zeta.
  destruct (sync_init remote (DEVICE_ID config) (if_truthy (lastSyncAt d)))
    as [data | e0] eqn:Einit.
  - rewrite (performSync_opened lib config remote d data Einit).
    pose proof (visits_requests lib config remote (changedFiles data)
                  (opened config data d)) as Hreq.
    pose proof (visits_pending lib config remote (changedFiles data)
                  (opened config data d)) as Hpend.
    cbv zeta in Hreq. destruct Hreq as (Hres & Hlast & _).
    destruct (for_of (changedFiles data) (downloadFileFromServer lib config remote)
                (opened config data d)) as [[[] | [e |]] d1];
      cbn [fst snd] in Hres, Hlast, Hpend |- *.
    + split; [now left |]. split; [intros e H; discriminate H |]. split; [| split].
      * intros data' e' [= <-] Hdone. rewrite Hdone. cbn [lastSyncAt console].
        split; [exact Hlast |]. intros _. exists (console d1). reflexivity.
      * intros H; discriminate H.
      * intros Hne. split; [reflexivity |]. exists data.
        destruct (sync_complete remote (session_id data)) as [[] | e1];
          cbn [lastSyncAt] in *.
        -- auto.
        -- now destruct Hne.
    + destruct Hres as [H | H]; discriminate H.
    + split; [now right |]. split; [intros e H; discriminate H |]. split; [| split].
      * intros data' e' [= <-] _. split; [exact Hlast |]. intros H; discriminate H.
      * intros _. split; [exact Hlast |]. exists data. split; [reflexivity |].
        now apply Hpend.
      * intros Hne. now destruct Hne.
  - rewrite (performSync_not_opened lib config remote d e0 Einit).
    cbn [fst snd disk lastSyncAt sent console].
    split; [now left |]. split.
    + intros e [= <-]. auto.
    + split; [intros data e H; discriminate H |]. split.
      * intros H; discriminate H.
      * intros Hne. now destruct Hne.
Qed.

(** The theorem at a server that refuses to open the session with the error
    body "Invalid token": the two lines of the console differ. *)
Lemma performSync_resolves_and_moves_time_on_success_only_witness :
  let out := performSync example_lib example_config closed_remote device_Z in
  fst out = Resolved tt
  /\ disk (snd out) = disk device_Z
  /\ lastSyncAt (snd out) = lastSyncAt device_Z
  /\ console (snd out)
     = [StartingSync; ApiSyncInitFailed "Invalid token";
        SyncFailed "Request failed with status code 401"].
Proof.
  intros out.
  destruct (performSync_resolves_and_moves_time_on_success_only example_lib
              example_config closed_remote device_Z)
    as (_ & Hinit & _).
  destruct (Hinit (mkError "Request failed with status code 401" (Some "Invalid token"))
              eq_refl) as (Hres & Hd & Hl & _ & Hc).
  split; [exact Hres |]. split; [exact Hd |]. split; [exact Hl |]. exact Hc.
Defined.

(** X15.  In a cycle whose session the server opens, the client asks first
    for the changes since [lastSyncAt], then for downloads, and, when the
    cycle resolves, last for the completion of the session; it asks for
    nothing else, no upload and no deletion.  A cycle that never settles has
    not asked for the completion.  The downloads asked for are files of the
    server's list, in the order of the list, at most one request for each
    place in it. *)
Theorem cycle_asks_for_listed_files_only
    (lib : NodeLib) (config : Config) (remote : Remote)
    (d : Device) (data : SyncData) :
  sync_init remote (DEVICE_ID config) (if_truthy (lastSyncAt d)) = Resolved data ->
  let out := performSync lib config remote d in
  exists gets,
    sublist gets (List.map (fun m => GetDownload (id m)) (changedFiles data))
    /\ ((fst out = Resolved tt
         /\ sent (snd out)
            = (sent d
               ++ PostSyncInit (DEVICE_ID config) (if_truthy (lastSyncAt d))
                  :: gets ++ [PostSyncComplete (session_id data)])%list)
        \/ (fst out = pending
            /\ sent (snd out)
               = (sent d
                  ++ PostSyncInit (DEVICE_ID config) (if_truthy (lastSyncAt d))
                     :: gets)%list)).
Proof.
  intros Hinit. cbv zeta.
  rewrite (performSync_opened lib config remote d data Hinit).
  pose proof (visits_requests lib config remote (changedFiles data)
                (opened config data d)) as Hreq.
  cbv zeta in Hreq. destruct Hreq as (Hres & _ & gets & Hs & Hsub).
  exists gets. split; [exact Hsub |].
  destruct (for_of (changedFiles data) (downloadFileFromServer lib config remote)
              (opened config data d)) as [[[] | [e |]] d1];
    cbn [fst snd] in Hres, Hs |- *.
  - left. split; [reflexivity |].
    destruct (sync_complete remote (session_id data)) as [[] | e1];
      cbn [sent]; rewrite Hs; cbn [opened sent]; now rewrite <- !app_assoc.
  - destruct Hres as [H | H]; discriminate H.
  - right. split; [reflexivity |].
    rewrite Hs. cbn [opened sent]. now rewrite <- !app_assoc.
Qed.

(** The theorem at the example cycle, where the first of three files is
    skipped. *)
Lemma cycle_asks_for_listed_files_only_witness :
  let out := performSync example_lib example_config example_remote example_device in
  exists gets,
    sublist gets [GetDownload "f1"; GetDownload "f2"; GetDownload "f3"]
    /\ ((fst out = Resolved tt
         /\ sent (snd out)
            = ([] ++ PostSyncInit "laptop-001" None
                     :: gets ++ [PostSyncComplete "s1"])%list)
        \/ (fst out = pending
            /\ sent (snd out) = ([] ++ PostSyncInit "laptop-001" None :: gets)%list)).
Proof.
  apply (cycle_asks_for_listed_files_only example_lib example_config example_remote
           example_device example_data eq_refl).
Defined.

Lemma performSync_first_request (lib : NodeLib) (config : Config) (remote : Remote)
    (d : Device) :
  exists rest,
    sent (snd (performSync lib config remote d))
    = (sent d ++ PostSyncInit (DEVICE_ID config) (if_truthy (lastSyncAt d)) :: rest)%list.
Proof.
  destruct (sync_init remote (DEVICE_ID config) (if_truthy (lastSyncAt d)))
    as [data | e] eqn:Einit.
  - rewrite (performSync_opened lib config remote d data Einit).
    pose proof (visits_requests lib config remote (changedFiles data)
                  (opened config data d)) as Hreq.
    cbv zeta in Hreq. destruct Hreq as (_ & _ & gets & Hs & _).
    destruct (for_of (changedFiles data) (downloadFileFromServer lib config remote)
                (opened config data d)) as [[[] | [e |]] d1];
      cbn [fst snd] in Hs |- *.
    + exists (gets ++ [PostSyncComplete (session_id data)])%list.
      destruct (sync_complete remote (session_id data)) as [[] | e1];
        cbn [sent]; rewrite Hs; cbn [opened sent]; now rewrite <- !app_assoc.
    + exists gets. cbn [sent]. rewrite Hs. cbn [opened sent]. now rewrite <- !app_assoc.
    + exists gets. rewrite Hs. cbn [opened sent]. now rewrite <- !app_assoc.
  - exists []. now rewrite (performSync_not_opened lib config remote d e Einit).
Qed.

(** X16.  After a cycle whose session was opened and completed, the next
    cycle, whatever the server then answers, begins by asking for the
    changes since the time the server gave in the cycle before; only when
    that time is the empty string does it ask for everything again.  After a
    cycle that never settled, the next cycle asks again for the changes
    since the [lastSyncAt] the device had. *)
Theorem next_cycle_asks_since_server_time
    (lib : NodeLib) (config : Config) (remote remote' : Remote)
    (d : Device) (data : SyncData) :
  sync_init remote (DEVICE_ID config) (if_truthy (lastSyncAt d)) = Resolved data ->
  sync_complete remote (session_id data) = Resolved tt ->
  let out := performSync lib config remote d in
  let d1 := snd out in
  let since :=
    match fst out with
    | Resolved _ =>
        if String.eqb (serverTime data) "" then None else Some (serverTime data)
    | Rejected _ => if_truthy (lastSyncAt d)
    end in
  exists rest,
    sent (snd (performSync lib config remote' d1))
    = (sent d1 ++ PostSyncInit (DEVICE_ID config) since :: rest)%list.
Proof.
  intros Hinit Hdone out d1 since.
  assert (Hlast : if_truthy (lastSyncAt d1) = since).
  { subst since d1 out.
    rewrite (performSync_opened lib config remote d data Hinit), Hdone.
    pose proof (visits_requests lib config remote (changedFiles data)
                  (opened config data d)) as Hreq.
    cbv zeta in Hreq. destruct Hreq as (Hres & Hl & _).
    destruct (for_of (changedFiles data) (downloadFileFromServer lib config remote)
                (opened config data d)) as [[[] | [e |]] d0];
      cbn [fst snd lastSyncAt opened] in Hres, Hl |- *.
    - destruct (serverTime data) as [| c s]; reflexivity.
    - destruct Hres as [H | H]; discriminate H.
    - now rewrite Hl. }
  destruct (performSync_first_request lib config remote' d1) as (rest & Hs).
  exists rest. now rewrite Hs, Hlast.
Qed.

(** The theorem at the example cycle, followed by a cycle in front of a
    server that cannot be reached. *)
Lemma next_cycle_asks_since_server_time_witness :
  let d1 := snd (performSync example_lib example_config example_remote
                   example_device) in
  exists rest,
    sent (snd (performSync example_lib example_config unreachable_remote d1))
    = (sent d1 ++ PostSyncInit "laptop-001" (Some "2025-07-27T12:00:05.000Z") :: rest)%list.
Proof.
  intros d1.
  pose proof (next_cycle_asks_since_server_time example_lib example_config
                example_remote unreachable_remote example_device example_data
                eq_refl eq_refl) as Hnext.
  cbv zeta in Hnext. destruct Hnext as (rest & Hs).
  assert (Hout : fst (performSync example_lib example_config example_remote
                        example_device) = Resolved tt)
    by (vm_compute; reflexivity).
  rewrite Hout in Hs. exists rest. exact Hs.
Defined.

(** X23.  Downloads that fail do not stop a cycle.  When the server opens
    and completes the session and every download of its list ends, by
    resolving or by rejecting, the cycle resolves, and every changed file has
    been visited, in the order of the list: a file whose size on the disk is
    the size reported is skipped and not asked for; every other file is
    asked for, and the disk holds what its download wrote, if anything.
    Each file has its lines on the console (unchanged, downloaded, or failed
    with the error of that file), the session is completed after the last
    of them, [lastSyncAt] is the server's time, and the last line is "Sync
    completed". *)
Theorem performSync_survives_rejected_downloads
    (lib : NodeLib) (config : Config) (remote : Remote)
    (d : Device) (data : SyncData) :
  sync_init remote (DEVICE_ID config) (if_truthy (lastSyncAt d)) = Resolved data ->
  sync_complete remote (session_id data) = Resolved tt ->
  Forall (fun m => settles (download remote (id m))) (changedFiles data) ->
  exists (rs : list FileResult) (d1 : Device),
    visits lib config remote (changedFiles data) rs (opened config data d) d1
    /\ console d1
       = (console d
          ++ [StartingSync;
              if (0 <? length (changedFiles data))%nat
              then FoundChanged (length (changedFiles data)) else NoChanges]
          ++ reports (changedFiles data) rs)%list
    /\ performSync lib config remote d
       = (Resolved tt,
          mkDevice (disk d1) (Some (serverTime data)) (uploadQueue d1)
            (isProcessing d1) (timers d1) (console d1 ++ [SyncCompleted])
            (sent d1 ++ [PostSyncComplete (session_id data)])).
Proof.
  intros Hinit Hdone Hall.
  destruct (visits_done lib config remote (changedFiles data) (opened config data d) Hall)
    as (rs & Hres & Hvisits).
  rewrite (performSync_opened lib config remote d data Hinit), Hdone.
  destruct (for_of (changedFiles data) (downloadFileFromServer lib config remote)
              (opened config data d)) as [[[] | e] d1];
    cbn [fst snd] in Hres, Hvisits; [| discriminate Hres].
  exists rs, d1. split; [exact Hvisits |]. split; [| reflexivity].
  destruct (visits_console lib config remote _ _ _ _ Hvisits) as (Hc & _).
  rewrite Hc. cbn [opened console]. now rewrite <- app_assoc.
Qed.

(** The theorem at the example cycle, in which the download of the second
    file is refused: the third file is written all the same. *)
Lemma performSync_survives_rejected_downloads_witness :
  let out := performSync example_lib example_config example_remote example_device in
  exists (rs : list FileResult) (d1 : Device),
    visits example_lib example_config example_remote (changedFiles example_data) rs
      (opened example_config example_data example_device) d1
    /\ fst out = Resolved tt
    /\ disk (snd out) = disk d1
    /\ lastSyncAt (snd out) = Some "2025-07-27T12:00:05.000Z".
Proof.
  intros out.
  destruct (performSync_survives_rejected_downloads example_lib example_config
              example_remote example_device example_data eq_refl eq_refl)
    as (rs & d1 & Hvisits & _ & Hout).
  - repeat constructor.
  - exists rs, d1. split; [exact Hvisits |].
    subst out. rewrite Hout. repeat split; reflexivity.
Defined.

(** *** The upload queue *)

Lemma upload_turn_effect (lib : NodeLib) (config : Config) (remote : Remote)
    (relativePath : string) (d : Device) :
  let out := upload_turn lib config remote relativePath d in
  fst out = Resolved tt
  /\ disk (snd out) = disk d
  /\ lastSyncAt (snd out) = lastSyncAt d
  /\ uploadQueue (snd out) = uploadQueue d
  /\ isProcessing (snd out) = isProcessing d
  /\ timers (snd out) = timers d
  /\ sent (snd out) = (sent d ++ uploads_of lib config (disk d) [relativePath])%list.
Proof.
  unfold upload_turn, uploads_of, api_uploadFile.
  unfold log, send, settle, try_catch, throw_error, never, Js.try_catch, bind, ret,
    throw, modify, get.
  cbn [List.flat_map]. rewrite app_nil_r.
  destruct (bool_decide (is_Some (disk d !! path_join lib (WATCH_DIRECTORY config)
                                            relativePath))) eqn:E.
  - cbn [negb]. rewrite E. cbn [negb].
    destruct (upload remote _ _); cbn; repeat split; reflexivity.
  - cbn. rewrite app_nil_r. repeat split; reflexivity.
Qed.

Lemma uploads_of_cons (lib : NodeLib) (config : Config) (fs : gmap string Buffer)
    (rel : string) (rest : list string) :
  uploads_of lib config fs (rel :: rest)
  = (uploads_of lib config fs [rel] ++ uploads_of lib config fs rest)%list.
Proof.
  unfold uploads_of. cbn [List.flat_map]. now rewrite app_nil_r.
Qed.

Lemma upload_loop_effect (lib : NodeLib) (config : Config) (remote : Remote)
    (files : list string) (d : Device) :
  let out := for_of files (upload_turn lib config remote) d in
  fst out = Resolved tt
  /\ disk (snd out) = disk d
  /\ lastSyncAt (snd out) = lastSyncAt d
  /\ uploadQueue (snd out) = uploadQueue d
  /\ isProcessing (snd out) = isProcessing d
  /\ timers (snd out) = timers d
  /\ sent (snd out) = (sent d ++ uploads_of lib config (disk d) files)%list.
Proof.
  revert d. induction files as [| rel rest IH]; intros d.
  - cbn. rewrite app_nil_r. repeat split; reflexivity.
  - pose proof (upload_turn_effect lib config remote rel d) as Hturn.
    destruct (upload_turn lib config remote rel d) as [[[] | e] d1] eqn:E;
      cbv zeta in Hturn; cbn [fst snd] in Hturn;
      destruct Hturn as (Hr & Hd & Hl & Hq & Hp & Ht & Hs); [| discriminate Hr].
    specialize (IH d1). cbv zeta in IH |- *.
    rewrite (for_of_next _ _ _ _ _ E).
    destruct IH as (Ir & Id & Il & Iq & Ip & It & Is).
    rewrite uploads_of_cons, app_assoc, <- Hs, <- Hd.
    split; [exact Ir |]. split; [congruence |]. split; [congruence |].
    split; [congruence |]. split; [congruence |]. split; [congruence |]. exact Is.
Qed.

Lemma processUploadQueue_idle (lib : NodeLib) (config : Config) (remote : Remote)
    (d : Device) :
  isProcessing d = true \/ uploadQueue d = [] ->
  processUploadQueue lib config remote d = (Resolved tt, d).
Proof.
  intros H. unfold processUploadQueue, bind, get, ret.
  destruct H as [-> | ->]; [reflexivity |]. cbn. now rewrite orb_true_r.
Qed.

Lemma processUploadQueue_run (lib : NodeLib) (config : Config) (remote : Remote)
    (d : Device) :
  isProcessing d = false -> uploadQueue d <> [] ->
  processUploadQueue lib config remote d
  = (Resolved tt,
     with_isProcessing false
       (snd (for_of (uploadQueue d) (upload_turn lib config remote)
               (mkDevice (disk d) (lastSyncAt d) [] true (timers d)
                  (console d ++ [ProcessingQueue (length (uploadQueue d))])
                  (sent d))))).
Proof.
  intros Hbusy Hq.
  pose proof (upload_loop_effect lib config remote (uploadQueue d)
                (mkDevice (disk d) (lastSyncAt d) [] true (timers d)
                   (console d ++ [ProcessingQueue (length (uploadQueue d))])
                   (sent d))) as Hloop.
  cbv zeta in Hloop. destruct Hloop as (Hres & _).
  assert (Heq : processUploadQueue lib config remote d
                = bind (for_of (uploadQueue d) (upload_turn lib config remote))
                    (fun _ => modify (with_isProcessing false))
                    (mkDevice (disk d) (lastSyncAt d) [] true (timers d)
                       (console d ++ [ProcessingQueue (length (uploadQueue d))])
                       (sent d))).
  { unfold processUploadQueue. unfold bind at 1 2. unfold get at 1 2.
    rewrite Hbusy. destruct (uploadQueue d) as [| rel rest]; [now destruct Hq |].
    reflexivity. }
  rewrite Heq. unfold bind.
  destruct (for_of (uploadQueue d) (upload_turn lib config remote) _)
    as [[[] | e] d1]; [reflexivity | discriminate Hres].
Qed.

Lemma processUploadQueue_effect (lib : NodeLib) (config : Config) (remote : Remote)
    (d : Device) :
  isProcessing d = false -> uploadQueue d <> [] ->
  let out := processUploadQueue lib config remote d in
  fst out = Resolved tt
  /\ disk (snd out) = disk d
  /\ uploadQueue (snd out) = []
  /\ isProcessing (snd out) = false
  /\ sent (snd out) = (sent d ++ uploads_of lib config (disk d) (uploadQueue d))%list.
Proof.
  intros Hbusy Hq. cbv zeta. rewrite (processUploadQueue_run _ _ _ _ Hbusy Hq).
  pose proof (upload_loop_effect lib config remote (uploadQueue d)
                (mkDevice (disk d) (lastSyncAt d) [] true (timers d)
                   (console d ++ [ProcessingQueue (length (uploadQueue d))])
                   (sent d))) as Hloop.
  cbv zeta in Hloop. destruct Hloop as (_ & Hd & _ & Hu & _ & _ & Hs).
  cbn [fst snd with_isProcessing disk uploadQueue isProcessing sent] in *.
  auto.
Qed.

(** X17.  A run of the upload queue never rejects and never touches the
    disk.  While another run is going on, or with nothing queued, it does
    nothing at all.  Otherwise it takes the whole queue, sends one upload
    request for each queued path that is still on the disk and none for the
    others, in the order of the queue, with the folder of the path as remote
    path (the root for a file directly in the watched folder), and ends with
    the processing flag down.  Whatever the server answers to the uploads,
    the paths are not queued again: a refused upload is only logged. *)
Theorem processUploadQueue_sends_each_queued_file_once
    (lib : NodeLib) (config : Config) (remote : Remote) (d : Device) :
  let out := processUploadQueue lib config remote d in
  fst out = Resolved tt
  /\ disk (snd out) = disk d
  /\ (isProcessing d = true \/ uploadQueue d = [] -> snd out = d)
  /\ (isProcessing d = false -> uploadQueue d <> [] ->
      uploadQueue (snd out) = []
      /\ isProcessing (snd out) = false
      /\ sent (snd out)
         = (sent d ++ uploads_of lib config (disk d) (uploadQueue d))%list).
Proof.
  cbv zeta.
  assert (Hidle : isProcessing d = true \/ uploadQueue d = [] ->
                  processUploadQueue lib config remote d = (Resolved tt, d))
    by apply processUploadQueue_idle.
  destruct (isProcessing d) eqn:Hbusy.
  { rewrite Hidle by now left.
    split; [reflexivity |]. split; [reflexivity |]. split; [reflexivity |].
    intros H; discriminate H. }
  destruct (decide (uploadQueue d = [])) as [Hq | Hq].
  { rewrite Hidle by now right.
    split; [reflexivity |]. split; [reflexivity |]. split; [reflexivity |].
    intros _ H. now destruct H. }
  destruct (processUploadQueue_effect lib config remote d Hbusy Hq)
    as (Hr & Hd & Hu & Hp & Hs).
  split; [exact Hr |]. split; [exact Hd |].
  split; [intros [H | H]; [discriminate H | now destruct Hq] |].
  intros _ _. auto.
Qed.

(** The theorem at a device with two paths queued, one of them gone from the
    disk, in front of a server that refuses every upload. *)
Lemma processUploadQueue_sends_each_queued_file_once_witness :
  let out := processUploadQueue example_lib example_config refusing_remote
               device_with_queue in
  uploadQueue (snd out) = []
  /\ isProcessing (snd out) = false
  /\ sent (snd out) = [PostUpload "/sync/a.txt" "/"].
Proof.
  intros out.
  destruct (processUploadQueue_sends_each_queued_file_once example_lib example_config
              refusing_remote device_with_queue) as (_ & _ & _ & Hrun).
  destruct (Hrun eq_refl ltac:(discriminate)) as (Hq & Hp & Hs).
  split; [exact Hq |]. split; [exact Hp |]. exact Hs.
Defined.

(** *** The watcher *)

Lemma set_add_In (x : string) (q : list string) : In x (set_add x q).
Proof.
  unfold set_add. destruct (List.existsb (String.eqb x) q) eqn:E.
  - apply existsb_exists in E. destruct E as (y & Hy & Heq).
    apply String.eqb_eq in Heq. now subst y.
  - apply in_or_app. right. now left.
Qed.

Lemma set_add_keeps (x p : string) (q : list string) : In p q -> In p (set_add x q).
Proof.
  unfold set_add. destruct (List.existsb (String.eqb x) q); [auto |].
  intros H. apply in_or_app. now left.
Qed.

Lemma set_add_NoDup (x : string) (q : list string) : NoDup q -> NoDup (set_add x q).
Proof.
  unfold set_add. destruct (List.existsb (String.eqb x) q) eqn:E; [auto |].
  intros H. apply NoDup_app. split; [exact H |]. split; [| apply NoDup_singleton].
  intros y Hy Hy'. apply list_elem_of_In in Hy.
  apply list_elem_of_singleton in Hy'. subst y.
  assert (Hex : List.existsb (String.eqb x) q = true).
  { apply existsb_exists. exists x. split; [exact Hy | apply String.eqb_refl]. }
  congruence.
Qed.

Lemma handleFileChange_queues (lib : NodeLib) (config : Config)
    (filePath eventType : string) (d : Device) :
  eventType = "add" \/ eventType = "change" ->
  handleFileChange lib config filePath eventType d
  = if shouldIgnoreFile lib filePath then (Resolved tt, d)
    else
      (Resolved tt,
       mkDevice (disk d) (lastSyncAt d)
         (set_add (path_relative lib (WATCH_DIRECTORY config) filePath) (uploadQueue d))
         (isProcessing d) (S (timers d))
         (console d
          ++ [FileEvent eventType (path_relative lib (WATCH_DIRECTORY config) filePath)])
         (sent d)).
Proof.
  intros Hev. unfold handleFileChange.
  destruct (shouldIgnoreFile lib filePath); [reflexivity |].
  destruct Hev as [-> | ->]; reflexivity.
Qed.

(** X18.  An [add] or [change] event of the watcher sends nothing and leaves
    the disk alone.  For a path the ignore patterns match it changes nothing
    at all; for any other path it puts the path relative to the watched
    folder into the upload queue, where it then stands exactly once however
    many events arrive for it, keeps what was queued before, and sets one
    more timer for a run of the queue. *)
Theorem watcher_event_queues_path_once
    (lib : NodeLib) (config : Config) (ev : WatchEvent) (filePath : string)
    (d : Device) :
  ev = OnAdd filePath \/ ev = OnChange filePath ->
  let relativePath := path_relative lib (WATCH_DIRECTORY config) filePath in
  let out := on_event lib config ev d in
  fst out = Resolved tt
  /\ sent (snd out) = sent d
  /\ disk (snd out) = disk d
  /\ (shouldIgnoreFile lib filePath = true -> snd out = d)
  /\ (shouldIgnoreFile lib filePath = false ->
      In relativePath (uploadQueue (snd out))
      /\ (forall p, In p (uploadQueue d) -> In p (uploadQueue (snd out)))
      /\ (NoDup (uploadQueue d) -> NoDup (uploadQueue (snd out)))
      /\ (In relativePath (uploadQueue d) -> uploadQueue (snd out) = uploadQueue d)
      /\ timers (snd out) = S (timers d)).
Proof.
  intros Hev relativePath out.
  assert (Hout : out = handleFileChange lib config filePath
                         (match ev with OnChange _ => "change" | _ => "add" end) d).
  { subst out. destruct Hev as [-> | ->]; reflexivity. }
  rewrite handleFileChange_queues in Hout
    by (destruct Hev as [-> | ->]; [now left | now right]).
  rewrite Hout. clear Hout out.
  destruct (shouldIgnoreFile lib filePath);
    cbn [fst snd sent disk uploadQueue timers];
    (split; [reflexivity |]); (split; [reflexivity |]); (split; [reflexivity |]).
  - split; [reflexivity |]. intros H; discriminate H.
  - split; [intros H; discriminate H |]. intros _.
    split; [apply set_add_In |].
    split; [intros p; apply set_add_keeps |].
    split; [apply set_add_NoDup |].
    split; [| reflexivity].
    intros Hin. unfold set_add.
    assert (Hex : List.existsb (String.eqb relativePath) (uploadQueue d) = true).
    { apply existsb_exists. exists relativePath.
      split; [exact Hin | apply String.eqb_refl]. }
    fold relativePath. now rewrite Hex.
Qed.

(** The theorem at a change of [/sync/a.txt], which is queued already. *)
Lemma watcher_event_queues_path_once_witness :
  uploadQueue (snd (on_event example_lib example_config (OnChange "/sync/a.txt")
                      device_with_queue))
  = ["a.txt"; "gone.txt"].
Proof.
  destruct (watcher_event_queues_path_once example_lib example_config
              (OnChange "/sync/a.txt") "/sync/a.txt" device_with_queue
              (or_intror eq_refl)) as (_ & _ & _ & _ & Hq).
  destruct (Hq eq_refl) as (_ & _ & _ & Hsame & _).
  apply Hsame. now left.
Defined.

(** X19.  A file that appears in the watched folder reaches the server: when
    the watcher reports a path the ignore patterns let through, no run of the
    queue is going on, and the file is on the disk at its path under the
    watched folder, the next run of the queue sends the upload request for
    that path, with the folder of the relative path as remote path, and
    leaves the queue empty. *)
Theorem added_file_is_uploaded_at_next_run
    (lib : NodeLib) (config : Config) (remote : Remote) (filePath : string)
    (d : Device) :
  let relativePath := path_relative lib (WATCH_DIRECTORY config) filePath in
  let fullPath := path_join lib (WATCH_DIRECTORY config) relativePath in
  let remotePath := path_dirname lib relativePath in
  shouldIgnoreFile lib filePath = false ->
  isProcessing d = false ->
  is_Some (disk d !! fullPath) ->
  let queued := snd (on_event lib config (OnAdd filePath) d) in
  let done := snd (processUploadQueue lib config remote queued) in
  In (PostUpload fullPath (if String.eqb remotePath "." then "/" else remotePath))
     (sent done)
  /\ uploadQueue done = [].
Proof.
  intros relativePath fullPath remotePath Hpass Hbusy Hdisk queued done.
  assert (Hq : queued
               = mkDevice (disk d) (lastSyncAt d)
                   (set_add relativePath (uploadQueue d)) (isProcessing d)
                   (S (timers d)) (console d ++ [FileEvent "add" relativePath])
                   (sent d)).
  { subst queued. cbn [on_event].
    rewrite handleFileChange_queues by now left. now rewrite Hpass. }
  assert (Hin : In relativePath (uploadQueue queued)).
  { rewrite Hq. cbn. apply set_add_In. }
  destruct (processUploadQueue_effect lib config remote queued)
    as (_ & _ & Hempty & _ & Hsent).
  - rewrite Hq. exact Hbusy.
  - intros E. rewrite E in Hin. destruct Hin.
  - split; [| exact Hempty].
    subst done. rewrite Hsent. apply in_or_app. right.
    unfold uploads_of. apply in_flat_map. exists relativePath.
    split; [exact Hin |].
    replace (disk queued) with (disk d) by now rewrite Hq.
    fold fullPath remotePath.
    rewrite bool_decide_eq_true_2 by exact Hdisk. now left.
Qed.

(** The theorem at a new file [b.txt] in a sub-folder of the watched
    folder. *)
Lemma added_file_is_uploaded_at_next_run_witness :
  let d := with_disk (fun fs => <["/sync/docs/b.txt" := Buffer_from "bb"]> fs)
             example_device in
  In (PostUpload "/sync/docs/b.txt" "docs")
     (sent (snd (processUploadQueue example_lib example_config quiet_remote
                   (snd (on_event example_lib example_config
                           (OnAdd "/sync/docs/b.txt") d))))).
Proof.
  intros d.
  apply (added_file_is_uploaded_at_next_run example_lib example_config quiet_remote
           "/sync/docs/b.txt" d).
  - reflexivity.
  - reflexivity.
  - vm_compute. eexists. reflexivity.
Defined.

End ClientExtra.
